(** * FreelancerPro backend: query construction, pagination, aggregation
      and the savings-goal progress engine

    A shallow embedding of the controllers ([incomeController.ts],
    [expenseController.ts], [projectController.ts], [savingsController.ts]),
    of the helpers in [utils/helpers.ts] and of the Mongoose schemas in
    [models/], followed by the properties the specification states about
    them.

    Conventions of the embedding
    - a JavaScript number that holds a count, a page or a limit is a [Z];
      an amount of money is a [Q] (exact arithmetic: the rounding of
      binary64 is outside the model);
    - a [Date] is its time value, the number of milliseconds since the
      epoch, a [Z]; the process time zone is a fixed offset [tz] in minutes
      east of UTC;
    - a query descriptor is the JavaScript object handed to Mongoose, a
      finite map from field names to conditions;
    - a handler is a function from the store to a response or an error and
      the store it leaves behind. *)

From Stdlib Require Import ZArith QArith Qround Lia Lqa Ascii String.
From stdpp Require Import base option list gmap strings sorting.

Close Scope Q_scope.
Open Scope Z_scope.

(** ** Errors ([middleware/errorHandler.ts]) *)

Inductive CustomError : Type :=
  | BadRequestError (message : string)
  | UnauthorizedError (message : string)
  | ForbiddenError (message : string)
  | NotFoundError (message : string)
  | ConflictError (message : string)
  | AppValidationError (message : string)
  | InternalServerError (message : string).

Definition statusCode (e : CustomError) : Z :=
  match e with
  | BadRequestError _ => 400
  | UnauthorizedError _ => 401
  | ForbiddenError _ => 403
  | NotFoundError _ => 404
  | ConflictError _ => 409
  | AppValidationError _ => 422
  | InternalServerError _ => 500
  end.

Inductive result (A : Type) : Type :=
  | Ok (a : A)
  | Err (e : CustomError).
Arguments Ok {A} a.
Arguments Err {A} e.

(** ** JavaScript truthiness of the values the handlers test *)

(** [if (s)] on a possibly absent string: absent and the empty string are
    falsy. *)
Definition truthy_str (s : option string) : bool :=
  match s with
  | Some s => negb (String.eqb s "")
  | None => false
  end.

(** [if (x)] on a possibly absent number: absent and zero are falsy. *)
Definition truthy_num (x : option Q) : bool :=
  match x with
  | Some q => negb (Qeq_bool q 0)
  | None => false
  end.

Definition Qlt_bool (x y : Q) : bool := negb (Qle_bool y x).

(** [Array.prototype.includes] on an array of strings. *)
Definition includes (l : list string) (s : string) : bool :=
  existsb (String.eqb s) l.

(** ** Pagination ([utils/helpers.ts]) *)

Module Pagination.

Inductive SortOrder := asc | desc.

Record PaginationOptions := {
  page : Z;
  limit : Z;
  sortBy : string;
  sortOrder : SortOrder
}.

Record PaginationResult := {
  r_page : Z;
  r_limit : Z;
  r_total : Z;
  r_pages : Z;
  r_hasNext : bool;
  r_hasPrev : bool
}.

(** [parseInt(x) || d]: the argument is the integer [parseInt] read, or
    [None] for [NaN]; [NaN] and [0] are falsy. *)
Definition parseInt_or (x : option Z) (d : Z) : Z :=
  match x with
  | Some 0 | None => d
  | Some n => n
  end.

Definition getPaginationOptions (q_page q_limit : option Z)
    (q_sortBy q_sortOrder : option string) : PaginationOptions :=
  {| page := Z.max 1 (parseInt_or q_page 1);
     limit := Z.min 100 (Z.max 1 (parseInt_or q_limit 10));
     sortBy := if truthy_str q_sortBy then default "createdAt" q_sortBy
               else "createdAt";
     sortOrder := match q_sortOrder with
                  | Some s => if String.eqb s "asc" then asc else desc
                  | None => desc
                  end |}.

(** [Math.ceil(total / limit)] *)
Definition calculatePagination (total page limit : Z) : PaginationResult :=
  let pages := Qceiling (inject_Z total / inject_Z limit)%Q in
  let hasNext := page <? pages in
  let hasPrev := 1 <? page in
  {| r_page := page; r_limit := limit; r_total := total;
     r_pages := pages; r_hasNext := hasNext; r_hasPrev := hasPrev |}.

Definition getSkipValue (page limit : Z) : Z := (page - 1) * limit.

(** [.skip(n).limit(m)] on the sorted result of a [find]. *)
Definition skip_limit {A} (skip lim : Z) (l : list A) : list A :=
  take (Z.to_nat lim) (drop (Z.to_nat skip) l).

End Pagination.

(** ** Dates: [Date] time values, ISO-8601 input and the civil calendar *)

Module JSDate.

Definition msPerMinute : Z := 60000.
Definition msPerDay : Z := 86400000.

(** Day number (days since 1970-01-01) of a proleptic Gregorian date:
    ECMAScript's [MakeDay]. *)
Definition days_from_civil (y m d : Z) : Z :=
  let y' := if m <=? 2 then y - 1 else y in
  let era := y' / 400 in
  let yoe := y' - era * 400 in
  let mp := (m + 9) mod 12 in
  let doy := (153 * mp + 2) / 5 + d - 1 in
  let doe := yoe * 365 + yoe / 4 - yoe / 100 + doy in
  era * 146097 + doe - 719468.

(** The inverse: (year, month 1..12, day of month) of a day number. *)
Definition civil_from_days (z : Z) : Z * Z * Z :=
  let z := z + 719468 in
  let era := z / 146097 in
  let doe := z - era * 146097 in
  let yoe := (doe - doe / 1460 + doe / 36524 - doe / 146096) / 365 in
  let y := yoe + era * 400 in
  let doy := doe - (365 * yoe + yoe / 4 - yoe / 100) in
  let mp := (5 * doy + 2) / 153 in
  let d := doy - (153 * mp + 2) / 5 + 1 in
  let m := if mp <? 10 then mp + 3 else mp - 9 in
  (if m <=? 2 then y + 1 else y, m, d).

Definition MakeTime (h mi s ms : Z) : Z :=
  h * 3600000 + mi * 60000 + s * 1000 + ms.

(** A date string that passed the ISO-8601 check of the routes.  The
    date-only form is read as UTC; a date-time without a zone designator
    is read as local time; [zone = Some off] is an explicit offset in
    minutes ([Z] is [Some 0]). *)
Inductive IsoDate : Type :=
  | DateOnly (y m d : Z)
  | DateTime (y m d h mi s ms : Z) (zone : option Z).

(** [new Date(string)] in a process whose local time is UTC + [tz]
    minutes. *)
Definition Date_parse (tz : Z) (s : IsoDate) : Z :=
  match s with
  | DateOnly y m d => days_from_civil y m d * msPerDay
  | DateTime y m d h mi s ms zone =>
      days_from_civil y m d * msPerDay + MakeTime h mi s ms
      - default tz zone * msPerMinute
  end.

Definition LocalTime (tz t : Z) : Z := t + tz * msPerMinute.
Definition UTC (tz t : Z) : Z := t - tz * msPerMinute.

(** [date.setHours(h, mi, s, ms)]: keeps the local calendar day of [t]
    and replaces the time within the day. *)
Definition setHours (tz t h mi s ms : Z) : Z :=
  UTC tz ((LocalTime tz t / msPerDay) * msPerDay + MakeTime h mi s ms).

(** [$year] and [$month] of the aggregation pipeline (evaluated in UTC). *)
Definition year_of (t : Z) : Z := (civil_from_days (t / msPerDay)).1.1.
Definition month_of (t : Z) : Z := (civil_from_days (t / msPerDay)).1.2.

(** [getDateRange] of [utils/helpers.ts] *)
Record DateRange := { startDate : option Z; endDate : option Z }.

Definition getDateRange (tz : Z) (q_startDate q_endDate : option IsoDate)
    : DateRange :=
  {| startDate := Date_parse tz <$> q_startDate;
     endDate := (λ s, setHours tz (Date_parse tz s) 23 59 59 999)
                  <$> q_endDate |}.

End JSDate.

(** ** Strings: [trim], [toString], [padStart]

    A string is a sequence of bytes; its length and its white space are
    those of ASCII text. *)

Module JSString.

Definition is_space (c : ascii) : bool :=
  let n := nat_of_ascii c in
  ((9 <=? n) && (n <=? 13))%nat || (n =? 32)%nat.

Fixpoint trimStart (s : string) : string :=
  match s with
  | String c r => if is_space c then trimStart r else s
  | EmptyString => EmptyString
  end.

Fixpoint trimEnd (s : string) : string :=
  match s with
  | String c r =>
      match trimEnd r with
      | EmptyString => if is_space c then EmptyString else String c EmptyString
      | r' => String c r'
      end
  | EmptyString => EmptyString
  end.

Definition trim (s : string) : string := trimEnd (trimStart s).

Definition digit_char (d : Z) : ascii := ascii_of_nat (48 + Z.to_nat d).

Fixpoint digits (fuel : nat) (n : Z) (acc : string) : string :=
  match fuel with
  | O => acc
  | S fuel =>
      let acc := String (digit_char (n mod 10)) acc in
      if n <? 10 then acc else digits fuel (n / 10) acc
  end.

(** [Number.prototype.toString] on an integer. *)
Definition toString (n : Z) : string :=
  if n <? 0 then String "-" (digits (Z.to_nat (Z.log2 (- n)) + 1) (- n) "")
  else digits (Z.to_nat (Z.log2 n) + 1) n "".

Fixpoint repeat_char (c : ascii) (n : nat) : string :=
  match n with
  | O => EmptyString
  | S n => String c (repeat_char c n)
  end.

(** [s.padStart(n, c)] with a one-character filler. *)
Definition padStart (n : nat) (c : ascii) (s : string) : string :=
  repeat_char c (n - String.length s) +:+ s.

(** [parts.join(sep)] *)
Fixpoint join (sep : string) (parts : list string) : string :=
  match parts with
  | [] => ""
  | [p] => p
  | p :: rest => p +:+ sep +:+ join sep rest
  end.

End JSString.

(** ** The record store: documents, query descriptors, [find] and [sort] *)

Module Store.

(** Field values that occur in the four collections. *)
Inductive Value : Type :=
  | VStr (s : string)
  | VBool (b : bool)
  | VNum (q : Q)
  | VDate (t : Z).

Definition Value_eqb (v w : Value) : bool :=
  match v, w with
  | VStr a, VStr b => String.eqb a b
  | VBool a, VBool b => Bool.eqb a b
  | VNum a, VNum b => Qeq_bool a b
  | VDate a, VDate b => a =? b
  | _, _ => false
  end.

(** The condition a query descriptor puts on one field: an exact value
    ([{ field: v }]) or a date window ([{ field: { $gte, $lte } }]). *)
Inductive Cond : Type :=
  | CEq (v : Value)
  | CRange (gte lte : option Z).

Definition cond_holds (c : Cond) (v : option Value) : bool :=
  match c, v with
  | CEq w, Some v => Value_eqb v w
  | CRange lo hi, Some (VDate t) =>
      from_option (λ a, a <=? t) true lo && from_option (λ b, t <=? b) true hi
  | _, _ => false
  end.

(** A stored document, seen as the object [toObject()] returns. *)
Class Document (D : Type) := toObject : D → gmap string Value.

Definition field `{Document D} (d : D) (k : string) : option Value :=
  toObject d !! k.

(** A document matches a query descriptor when it satisfies the condition
    of every key of the descriptor. *)
Definition matches `{Document D} (q : gmap string Cond) (d : D) : Prop :=
  map_Forall (λ k c, cond_holds c (field d k) = true) q.

#[global] Instance matches_dec `{Document D} (q : gmap string Cond) (d : D) :
  Decision (matches q d).
Proof. unfold matches. apply _. Defined.

Definition find `{Document D} (q : gmap string Cond) (docs : list D) : list D :=
  filter (matches q) docs.

Definition findOne `{Document D} (q : gmap string Cond) (docs : list D)
    : option D :=
  head (find q docs).

Definition countDocuments `{Document D} (q : gmap string Cond)
    (docs : list D) : Z :=
  Z.of_nat (length (find q docs)).

(** Order of two field values under [sort]: an absent field first, then
    numbers, strings, booleans and dates, each by its own order. *)
Definition value_rank (v : option Value) : Z :=
  match v with
  | None => 0
  | Some (VNum _) => 1
  | Some (VStr _) => 2
  | Some (VBool _) => 3
  | Some (VDate _) => 4
  end.

Definition value_leb (v w : option Value) : bool :=
  match v, w with
  | Some (VNum a), Some (VNum b) => Qle_bool a b
  | Some (VStr a), Some (VStr b) => String.leb a b
  | Some (VBool a), Some (VBool b) => implb a b
  | Some (VDate a), Some (VDate b) => a <=? b
  | _, _ => value_rank v <=? value_rank w
  end.

Definition sort_rel `{Document D} (key : string) (o : Pagination.SortOrder)
    (d1 d2 : D) : Prop :=
  match o with
  | Pagination.asc => value_leb (field d1 key) (field d2 key) = true
  | Pagination.desc => value_leb (field d2 key) (field d1 key) = true
  end.

#[global] Instance sort_rel_dec `{Document D} key o (d1 d2 : D) :
  Decision (sort_rel key o d1 d2).
Proof. unfold sort_rel. destruct o; apply _. Defined.

(** [.sort({ [key]: 1 | -1 })]: a sort on the field [key]; the order among
    documents with equal keys is the one the merge sort leaves. *)
Definition sort `{Document D} (key : string) (o : Pagination.SortOrder)
    (docs : list D) : list D :=
  merge_sort (sort_rel key o) docs.

(** *** The four collections *)

Record Project := {
  p_id : string;
  p_userId : string;
  p_name : string;
  p_clientName : string;
  p_expectedPayment : Q;
  p_status : string;
  p_createdDate : Z;
  p_budgetAllocation : Q;
  p_description : option string;
  p_isActive : bool;
  p_createdAt : Z;
  p_updatedAt : Z
}.

(** [IncomeEntry] and [ExpenseEntry] share their fields; only an expense
    carries a [receiptUrl]. *)
Record Entry := {
  e_id : string;
  e_userId : string;
  e_projectId : string;
  e_amount : Q;
  e_description : string;
  e_date : Z;
  e_category : string;
  e_receiptUrl : option string;
  e_isActive : bool;
  e_createdAt : Z;
  e_updatedAt : Z
}.

Record SavingsGoal := {
  g_id : string;
  g_userId : string;
  g_title : string;
  g_targetAmount : Q;
  g_currentAmount : Q;
  g_deadline : Z;
  g_description : option string;
  g_category : string;
  g_priority : string;
  g_isActive : bool;
  g_isCompleted : bool;
  g_type : string;
  g_createdAt : Z;
  g_updatedAt : Z
}.

Definition opt_field (k : string) (v : option string)
    : list (string * Value) :=
  match v with
  | Some s => [(k, VStr s)]
  | None => []
  end.

#[global] Instance Project_doc : Document Project := λ p,
  list_to_map
    ([("_id", VStr (p_id p)); ("userId", VStr (p_userId p));
      ("name", VStr (p_name p)); ("clientName", VStr (p_clientName p));
      ("expectedPayment", VNum (p_expectedPayment p));
      ("status", VStr (p_status p)); ("createdDate", VDate (p_createdDate p));
      ("budgetAllocation", VNum (p_budgetAllocation p));
      ("isActive", VBool (p_isActive p));
      ("createdAt", VDate (p_createdAt p));
      ("updatedAt", VDate (p_updatedAt p))]
     ++ opt_field "description" (p_description p)).

#[global] Instance Entry_doc : Document Entry := λ e,
  list_to_map
    ([("_id", VStr (e_id e)); ("userId", VStr (e_userId e));
      ("projectId", VStr (e_projectId e)); ("amount", VNum (e_amount e));
      ("description", VStr (e_description e)); ("date", VDate (e_date e));
      ("category", VStr (e_category e)); ("isActive", VBool (e_isActive e));
      ("createdAt", VDate (e_createdAt e));
      ("updatedAt", VDate (e_updatedAt e))]
     ++ opt_field "receiptUrl" (e_receiptUrl e)).

#[global] Instance SavingsGoal_doc : Document SavingsGoal := λ g,
  list_to_map
    ([("_id", VStr (g_id g)); ("userId", VStr (g_userId g));
      ("title", VStr (g_title g));
      ("targetAmount", VNum (g_targetAmount g));
      ("currentAmount", VNum (g_currentAmount g));
      ("deadline", VDate (g_deadline g));
      ("category", VStr (g_category g)); ("priority", VStr (g_priority g));
      ("isActive", VBool (g_isActive g));
      ("isCompleted", VBool (g_isCompleted g)); ("type", VStr (g_type g));
      ("createdAt", VDate (g_createdAt g));
      ("updatedAt", VDate (g_updatedAt g))]
     ++ opt_field "description" (g_description g)).

Record State := {
  projects : list Project;
  incomeEntries : list Entry;
  expenseEntries : list Entry;
  savingsGoals : list SavingsGoal
}.

(** The query every handler starts from: [{ userId, isActive: true }]. *)
Definition scoped (userId : string) : gmap string Cond :=
  <["isActive" := CEq (VBool true)]> (<["userId" := CEq (VStr userId)]> ∅).

(** [{ _id: id, userId, isActive: true }] *)
Definition by_id (id userId : string) : gmap string Cond :=
  <["_id" := CEq (VStr id)]> (scoped userId).

(** [if (startDate || endDate) { query.date = {}; ... }] *)
Definition with_date (dr : JSDate.DateRange) (q : gmap string Cond)
    : gmap string Cond :=
  match JSDate.startDate dr, JSDate.endDate dr with
  | None, None => q
  | lo, hi => <["date" := CRange lo hi]> q
  end.

(** [if (c) query[k] = v] *)
Definition set_if (c : bool) (k : string) (v : Value)
    (q : gmap string Cond) : gmap string Cond :=
  if c then <[k := CEq v]> q else q.

End Store.

(** ** The aggregation pipeline: [$group] and [$sort] *)

Module Aggregate.

(** One output document of a [$group] stage with the accumulators
    [{ $sum: '$amount' }] and [{ $sum: 1 }]. *)
Record Group (K : Type) := {
  _id : K;
  total : Q;
  count : Z
}.
Arguments _id {K} g.
Arguments total {K} g.
Arguments count {K} g.

Section group.
Context {D K : Type} `{EqDecision K}.
Variable key : D → K.
Variable amount : D → Q.

Fixpoint accumulate (k : K) (a : Q) (acc : list (Group K))
    : list (Group K) :=
  match acc with
  | [] => [{| _id := k; total := a; count := 1 |}]
  | g :: rest =>
      if decide (_id g = k)
      then {| _id := k; total := (total g + a)%Q; count := count g + 1 |}
           :: rest
      else g :: accumulate k a rest
  end.

(** [{ $group: { _id: key, total: { $sum: '$amount' }, count: { $sum: 1 } } }]:
    one group per distinct key, in the order the keys are first met. *)
Definition group (docs : list D) : list (Group K) :=
  foldl (λ acc d, accumulate (key d) (amount d) acc) [] docs.
End group.

(** The documents of a record set that fall into the group [k]. *)
Definition members {D K : Type} `{EqDecision K} (key : D → K) (k : K)
    (docs : list D) : list D :=
  filter (λ d, key d = k) docs.

(** [{ $sort: { '_id.year': 1, '_id.month': 1 } }] *)
Definition month_le (g1 g2 : Group (Z * Z)) : Prop :=
  (_id g1).1 < (_id g2).1 ∨ ((_id g1).1 = (_id g2).1 ∧ (_id g1).2 ≤ (_id g2).2).

(** Strictly earlier month. *)
Definition month_lt (g1 g2 : Group (Z * Z)) : Prop :=
  (_id g1).1 < (_id g2).1 ∨ ((_id g1).1 = (_id g2).1 ∧ (_id g1).2 < (_id g2).2).

#[global] Instance month_le_dec g1 g2 : Decision (month_le g1 g2).
Proof. unfold month_le. apply _. Defined.

(** [{ $sort: { total: -1 } }] *)
Definition total_ge {K} (g1 g2 : Group K) : Prop :=
  Qle_bool (total g2) (total g1) = true.

#[global] Instance total_ge_dec {K} (g1 g2 : Group K) : Decision (total_ge g1 g2).
Proof. unfold total_ge. apply _. Defined.

Definition sum (l : list Q) : Q := foldl Qplus 0%Q l.

End Aggregate.

(** ** Handlers: shared plumbing *)

#[global] Instance result_ret : MRet result := @Ok.
#[global] Instance result_bind : MBind result := λ A B k r,
  match r with
  | Ok a => k a
  | Err e => Err e
  end.

(** [if (c) throw e] *)
Definition throw_if (c : bool) (e : CustomError) : result unit :=
  if c then Err e else Ok ().

(** [if (!doc) throw e] *)
Definition found {A} (doc : option A) (e : CustomError) : result A :=
  match doc with
  | Some d => Ok d
  | None => Err e
  end.

(** [const userId = req.user?.userId; if (!userId) throw ...] *)
Definition authenticated (user : option string) : result string :=
  if truthy_str user then Ok (default "" user)
  else Err (UnauthorizedError "User not authenticated").

(** What a handler reads from its environment: the offset of the local time
    zone, the clock, and the identifier the store gives the next document. *)
Record Env := {
  tz : Z;
  now : Z;
  newId : string
}.

(** [req.query] of the list and statistics routes. *)
Record ListQuery := {
  q_page : option Z;
  q_limit : option Z;
  q_sortBy : option string;
  q_sortOrder : option string;
  q_projectId : option string;
  q_category : option string;
  q_status : option string;
  q_priority : option string;
  q_startDate : option JSDate.IsoDate;
  q_endDate : option JSDate.IsoDate
}.

Definition pagination_of (q : ListQuery) : Pagination.PaginationOptions :=
  Pagination.getPaginationOptions (q_page q) (q_limit q) (q_sortBy q)
    (q_sortOrder q).

(** [Model.find(query).sort(..).skip(..).limit(..)] followed by
    [calculatePagination(total, page, limit)]. *)
Definition paginated `{Store.Document D} (query : gmap string Store.Cond)
    (opts : Pagination.PaginationOptions) (docs : list D)
    : list D * Pagination.PaginationResult :=
  let total := Store.countDocuments query docs in
  let page := Pagination.page opts in
  let limit := Pagination.limit opts in
  (Pagination.skip_limit (Pagination.getSkipValue page limit) limit
     (Store.sort (Pagination.sortBy opts) (Pagination.sortOrder opts)
        (Store.find query docs)),
   Pagination.calculatePagination total page limit).

(** Mongoose reports the failed validators of a [save] or [create] as one
    [ValidationError]; [handleValidationError] turns it into a 400. *)
Definition handleValidationError (errors : list string) : CustomError :=
  BadRequestError ("Validation failed: " +:+ JSString.join ", " errors).

Definition checked {A} (errors : list string) (doc : A) : result A :=
  match errors with
  | [] => Ok doc
  | _ => Err (handleValidationError errors)
  end.

(** One schema path: the message of its first failing validator. *)
Fixpoint first_failure (validators : list (bool * string)) : list string :=
  match validators with
  | [] => []
  | (ok, message) :: rest => if ok then first_failure rest else [message]
  end.

Definition enum_message (path value : string) : string :=
  "`" +:+ value +:+ "` is not a valid enum value for path `" +:+ path +:+ "`.".

(** [docs] with the document whose identifier is [id] replaced by [d]. *)
Definition replace {D} (id_of : D → string) (d : D) (docs : list D) : list D :=
  (λ x, if String.eqb (id_of x) (id_of d) then d else x) <$> docs.

(** ** Income and expense entries
       ([incomeController.ts], [expenseController.ts], [IncomeEntry.ts],
       [ExpenseEntry.ts])

    The two controllers are the same text up to the collection, the category
    enum, the default category and the [receiptUrl] of an expense; they are
    embedded once, over the kind of entry. *)

Module Entries.
Import Store.

Inductive EntryKind := Income | Expense.

Definition categories (k : EntryKind) : list string :=
  match k with
  | Income => ["project-payment"; "bonus"; "other"]
  | Expense => ["software"; "subscriptions"; "equipment"; "marketing"; "other"]
  end.

Definition default_category (k : EntryKind) : string :=
  match k with
  | Income => "project-payment"
  | Expense => "other"
  end.

Definition not_found_message (k : EntryKind) : string :=
  match k with
  | Income => "Income entry not found"
  | Expense => "Expense entry not found"
  end.

Definition collection (k : EntryKind) (st : State) : list Entry :=
  match k with
  | Income => incomeEntries st
  | Expense => expenseEntries st
  end.

Definition set_collection (k : EntryKind) (docs : list Entry) (st : State)
    : State :=
  match k with
  | Income =>
      {| projects := projects st; incomeEntries := docs;
         expenseEntries := expenseEntries st; savingsGoals := savingsGoals st |}
  | Expense =>
      {| projects := projects st; incomeEntries := incomeEntries st;
         expenseEntries := docs; savingsGoals := savingsGoals st |}
  end.

(** *** Listing *)

(** The query descriptor of [getIncomeEntries] / [getExpenseEntries]. *)
Definition list_query (k : EntryKind) (tz : Z) (userId : string)
    (q : ListQuery) : gmap string Cond :=
  let projectId := q_projectId q in
  let category := q_category q in
  let dr := JSDate.getDateRange tz (q_startDate q) (q_endDate q) in
  let query := scoped userId in
  let query :=
    set_if (truthy_str projectId) "projectId" (VStr (default "" projectId))
      query in
  let query :=
    set_if (truthy_str category && includes (categories k) (default "" category))
      "category" (VStr (default "" category)) query in
  with_date dr query.

Record ProjectRef := {
  name : string;
  clientName : string
}.

Record PopulatedEntry := {
  entry : Entry;
  project : option ProjectRef
}.

(** [Project.findOne({ _id, userId, isActive: true }).select('name clientName')] *)
Definition project_of (st : State) (userId projectId : string)
    : option ProjectRef :=
  (λ p, {| name := p_name p; clientName := p_clientName p |})
    <$> findOne (by_id projectId userId) (projects st).

Definition getEntries (k : EntryKind) (env : Env) (st : State)
    (user : option string) (q : ListQuery)
    : result (list PopulatedEntry * Pagination.PaginationResult) :=
  userId ← authenticated user;
  let query := list_query k (tz env) userId q in
  let '(entries, pagination) := paginated query (pagination_of q) (collection k st) in
  let populatedEntries :=
    (λ e, {| entry := e; project := project_of st userId (e_projectId e) |})
      <$> entries in
  mret (populatedEntries, pagination).

Definition getEntry (k : EntryKind) (st : State) (user : option string)
    (id : string) : result PopulatedEntry :=
  userId ← authenticated user;
  e ← found (findOne (by_id id userId) (collection k st))
        (NotFoundError (not_found_message k));
  mret {| entry := e; project := project_of st userId (e_projectId e) |}.

(** *** Schema validation and writes *)

Definition validate (k : EntryKind) (e : Entry) : list string :=
  first_failure
    [(negb (String.eqb (e_userId e) ""), "User ID is required")]
  ++ first_failure
    [(negb (String.eqb (e_projectId e) ""), "Project ID is required")]
  ++ first_failure
    [(Qle_bool (1 # 100) (e_amount e), "Amount must be greater than 0")]
  ++ first_failure
    [(negb (String.eqb (e_description e) ""), "Description is required");
     ((2 <=? String.length (e_description e))%nat,
      "Description must be at least 2 characters long");
     ((String.length (e_description e) <=? 200)%nat,
      "Description cannot exceed 200 characters")]
  ++ first_failure
    [(includes (categories k) (e_category e),
      enum_message "category" (e_category e))].

Record EntryBody := {
  b_projectId : option string;
  b_amount : option Q;
  b_description : option string;
  b_date : option JSDate.IsoDate;
  b_category : option string;
  b_receiptUrl : option string
}.

(** What [createIncomeEntry] / [createExpenseEntry] compute before the
    write: the document to insert, or the error thrown. *)
Definition create_doc (k : EntryKind) (env : Env) (st : State)
    (user : option string) (body : EntryBody) : result Entry :=
  userId ← authenticated user;
  let projectId := b_projectId body in
  let amount := b_amount body in
  let description := b_description body in
  let date := default (now env) (JSDate.Date_parse (tz env) <$> b_date body) in
  let category := default (default_category k) (b_category body) in
  _ ← throw_if (negb (truthy_str projectId) || negb (truthy_num amount)
                || negb (truthy_str description))
        (BadRequestError "Project ID, amount, and description are required");
  _ ← throw_if (Qle_bool (default 0%Q amount) 0)
        (BadRequestError "Amount must be greater than 0");
  project ← found (findOne (by_id (default "" projectId) userId) (projects st))
              (NotFoundError "Project not found");
  let doc :=
    {| e_id := newId env; e_userId := userId;
       e_projectId := default "" projectId;
       e_amount := default 0%Q amount;
       e_description := JSString.trim (default "" description);
       e_date := date; e_category := category;
       e_receiptUrl :=
         match k with
         | Income => None
         | Expense => JSString.trim <$> b_receiptUrl body
         end;
       e_isActive := true;
       e_createdAt := now env; e_updatedAt := now env |} in
  checked (validate k doc) doc.

Definition createEntry (k : EntryKind) (env : Env) (st : State)
    (user : option string) (body : EntryBody) : result Entry * State :=
  match create_doc k env st user body with
  | Ok doc => (Ok doc, set_collection k (collection k st ++ [doc]) st)
  | Err e => (Err e, st)
  end.

(** [if (v) entry.field = v] *)
Definition assign_if {A} (c : bool) (v : A) (old : A) : A :=
  if c then v else old.

Definition update_doc (k : EntryKind) (env : Env) (st : State)
    (user : option string) (id : string) (body : EntryBody) : result Entry :=
  userId ← authenticated user;
  e ← found (findOne (by_id id userId) (collection k st))
        (NotFoundError (not_found_message k));
  let projectId := b_projectId body in
  let amount := b_amount body in
  let description := b_description body in
  let category := b_category body in
  _ ← throw_if (from_option (λ a, Qle_bool a 0) false amount)
        (BadRequestError "Amount must be greater than 0");
  _ ← throw_if (truthy_str category
                && negb (includes (categories k) (default "" category)))
        (BadRequestError "Invalid category value");
  _ ← (if truthy_str projectId
          && negb (String.eqb (default "" projectId) (e_projectId e))
       then
         _ ← found (findOne (by_id (default "" projectId) userId) (projects st))
               (NotFoundError "Project not found");
         mret ()
       else mret ());
  let doc :=
    {| e_id := e_id e; e_userId := e_userId e;
       e_projectId :=
         assign_if (truthy_str projectId) (default "" projectId) (e_projectId e);
       e_amount := default (e_amount e) amount;
       e_description :=
         assign_if (truthy_str description)
           (JSString.trim (default "" description)) (e_description e);
       e_date :=
         default (e_date e) (JSDate.Date_parse (tz env) <$> b_date body);
       e_category :=
         assign_if (truthy_str category) (default "" category) (e_category e);
       e_receiptUrl :=
         match k, b_receiptUrl body with
         | Expense, Some url => Some (JSString.trim url)
         | _, _ => e_receiptUrl e
         end;
       e_isActive := e_isActive e;
       e_createdAt := e_createdAt e; e_updatedAt := now env |} in
  checked (validate k doc) doc.

Definition updateEntry (k : EntryKind) (env : Env) (st : State)
    (user : option string) (id : string) (body : EntryBody)
    : result Entry * State :=
  match update_doc k env st user id body with
  | Ok doc => (Ok doc, set_collection k (replace e_id doc (collection k st)) st)
  | Err e => (Err e, st)
  end.

Definition deleteEntry (k : EntryKind) (env : Env) (st : State)
    (user : option string) (id : string) : result unit * State :=
  let doc :=
    userId ← authenticated user;
    e ← found (findOne (by_id id userId) (collection k st))
          (NotFoundError (not_found_message k));
    let doc :=
      {| e_id := e_id e; e_userId := e_userId e; e_projectId := e_projectId e;
         e_amount := e_amount e; e_description := e_description e;
         e_date := e_date e; e_category := e_category e;
         e_receiptUrl := e_receiptUrl e; e_isActive := false;
         e_createdAt := e_createdAt e; e_updatedAt := now env |} in
    checked (validate k doc) doc in
  match doc with
  | Ok doc => (Ok (), set_collection k (replace e_id doc (collection k st)) st)
  | Err e => (Err e, st)
  end.

(** *** Statistics *)

(** The [$match] stage of the statistics routes. *)
Definition match_query (tz : Z) (userId : string) (q : ListQuery)
    : gmap string Cond :=
  with_date (JSDate.getDateRange tz (q_startDate q) (q_endDate q))
    (scoped userId).

Record TrendPoint := {
  month : string;
  amount : Q;
  count : Z
}.

Record Stats := {
  totalAmount : Q;
  totalEntries : Z;
  averageAmount : Q;
  byCategory : gmap string Q;
  monthlyTrend : list TrendPoint
}.

Definition month_key (e : Entry) : Z * Z :=
  (JSDate.year_of (e_date e), JSDate.month_of (e_date e)).

(** The third pipeline of the statistics route: [$group] by year and month
    of [date], then [$sort] by year and month. *)
Definition monthlyStats (docs : list Entry) : list (Aggregate.Group (Z * Z)) :=
  merge_sort Aggregate.month_le (Aggregate.group month_key e_amount docs).

Definition month_label (ym : Z * Z) : string :=
  JSString.toString ym.1 +:+ "-"
    +:+ JSString.padStart 2 "0" (JSString.toString ym.2).

Definition trend_point (stat : Aggregate.Group (Z * Z)) : TrendPoint :=
  {| month := month_label (Aggregate._id stat);
     amount := Aggregate.total stat;
     count := Aggregate.count stat |}.

Definition monthlyTrendOf (docs : list Entry) : list TrendPoint :=
  trend_point <$> monthlyStats docs.

(** The summary pipeline groups everything under [_id: null]; the list
    it pushes under [incomeByCategory] is overwritten by the key of the
    same name that follows the spread. *)
Definition getStats (k : EntryKind) (env : Env) (st : State)
    (user : option string) (q : ListQuery) : result Stats :=
  userId ← authenticated user;
  let matched := find (match_query (tz env) userId q) (collection k st) in
  let stats := Aggregate.group (λ _, ()) e_amount matched in
  let categoryStats := Aggregate.group e_category e_amount matched in
  let summary :=
    match stats with
    | g :: _ =>
        (Aggregate.total g, Aggregate.count g,
         (Aggregate.total g / inject_Z (Aggregate.count g))%Q)
    | [] => (0%Q, 0, 0%Q)
    end in
  mret {| totalAmount := summary.1.1;
          totalEntries := summary.1.2;
          averageAmount := summary.2;
          byCategory :=
            foldl (λ acc stat, <[Aggregate._id stat := Aggregate.total stat]> acc)
              ∅ categoryStats;
          monthlyTrend := monthlyTrendOf matched |}.

Record ProjectRow := {
  projectId : string;
  projectName : string;
  rowClientName : string;
  rowTotal : Q;
  entryCount : Z
}.

(** [{ $group: { _id: '$projectId', ... } }, { $sort: { total: -1 } }] *)
Definition projectStats (docs : list Entry) : list (Aggregate.Group string) :=
  merge_sort Aggregate.total_ge (Aggregate.group e_projectId e_amount docs).

(** [v || fallback] on a possibly absent string. *)
Definition or_else (v : option string) (fallback : string) : string :=
  if truthy_str v then default fallback v else fallback.

Definition project_row (st : State) (userId : string)
    (stat : Aggregate.Group string) : ProjectRow :=
  let project := findOne (by_id (Aggregate._id stat) userId) (projects st) in
  {| projectId := Aggregate._id stat;
     projectName := or_else (p_name <$> project) "Unknown Project";
     rowClientName := or_else (p_clientName <$> project) "Unknown Client";
     rowTotal := Aggregate.total stat;
     entryCount := Aggregate.count stat |}.

Definition getByProject (k : EntryKind) (env : Env) (st : State)
    (user : option string) (q : ListQuery) : result (list ProjectRow) :=
  userId ← authenticated user;
  let matched := find (match_query (tz env) userId q) (collection k st) in
  mret (project_row st userId <$> projectStats matched).

End Entries.

Definition getIncomeEntries := Entries.getEntries Entries.Income.
Definition getIncomeEntry := Entries.getEntry Entries.Income.
Definition createIncomeEntry := Entries.createEntry Entries.Income.
Definition updateIncomeEntry := Entries.updateEntry Entries.Income.
Definition deleteIncomeEntry := Entries.deleteEntry Entries.Income.
Definition getIncomeStats := Entries.getStats Entries.Income.
Definition getIncomeByProject := Entries.getByProject Entries.Income.

Definition getExpenseEntries := Entries.getEntries Entries.Expense.
Definition getExpenseEntry := Entries.getEntry Entries.Expense.
Definition createExpenseEntry := Entries.createEntry Entries.Expense.
Definition updateExpenseEntry := Entries.updateEntry Entries.Expense.
Definition deleteExpenseEntry := Entries.deleteEntry Entries.Expense.
Definition getExpenseStats := Entries.getStats Entries.Expense.
Definition getExpensesByProject := Entries.getByProject Entries.Expense.

(** ** Projects ([projectController.ts]) *)

Module Projects.
Import Store.

Definition statuses : list string := ["active"; "completed"; "on-hold"].

(** The query descriptor of [getProjects]. *)
Definition list_query (userId : string) (q : ListQuery) : gmap string Cond :=
  let status := q_status q in
  set_if (truthy_str status && includes statuses (default "" status))
    "status" (VStr (default "" status)) (scoped userId).

Definition getProjects (st : State) (user : option string) (q : ListQuery)
    : result (list Project * Pagination.PaginationResult) :=
  userId ← authenticated user;
  mret (paginated (list_query userId q) (pagination_of q) (projects st)).

(** [{ userId, status, isActive: true }] *)
Definition status_query (userId status : string) : gmap string Cond :=
  <["status" := CEq (VStr status)]> (scoped userId).

Definition getProjectsByStatus (st : State) (user : option string)
    (status : string) (q : ListQuery)
    : result (list Project * Pagination.PaginationResult) :=
  userId ← authenticated user;
  _ ← throw_if (negb (includes statuses status))
        (BadRequestError "Invalid status value");
  mret (paginated (status_query userId status) (pagination_of q) (projects st)).

Record ProjectStats := {
  totalProjects : Z;
  activeProjects : Z;
  completedProjects : Z;
  onHoldProjects : Z;
  totalExpectedPayment : Q;
  averageExpectedPayment : Q
}.

(** [{ $sum: { $cond: [{ $eq: ['$status', s] }, 1, 0] } }] *)
Definition count_status (s : string) (docs : list Project) : Z :=
  foldl (λ n p, n + (if String.eqb (p_status p) s then 1 else 0)) 0 docs.

Definition getProjectStats (st : State) (user : option string)
    : result ProjectStats :=
  userId ← authenticated user;
  let matched := find (scoped userId) (projects st) in
  mret match Aggregate.group (λ _, ()) p_expectedPayment matched with
       | g :: _ =>
           {| totalProjects := Aggregate.count g;
              activeProjects := count_status "active" matched;
              completedProjects := count_status "completed" matched;
              onHoldProjects := count_status "on-hold" matched;
              totalExpectedPayment := Aggregate.total g;
              averageExpectedPayment :=
                (Aggregate.total g / inject_Z (Aggregate.count g))%Q |}
       | [] =>
           {| totalProjects := 0; activeProjects := 0; completedProjects := 0;
              onHoldProjects := 0; totalExpectedPayment := 0%Q;
              averageExpectedPayment := 0%Q |}
       end.

End Projects.

(** ** Savings goals ([SavingsGoal.ts], [savingsController.ts]) *)

Module Savings.
Import Store.

Definition categories : list string :=
  ["emergency-fund"; "vacation"; "house"; "car"; "education"; "retirement";
   "other"].
Definition priorities : list string := ["low"; "medium"; "high"].
Definition types : list string := ["monthly"; "yearly"].

(** *** The schema: validators, the [pre('save')] hook, [save] *)

Definition validate (now : Z) (g : SavingsGoal) : list string :=
  first_failure
    [(negb (String.eqb (g_userId g) ""), "User ID is required")]
  ++ first_failure
    [(negb (String.eqb (g_title g) ""), "Title is required");
     ((2 <=? String.length (g_title g))%nat,
      "Title must be at least 2 characters long");
     ((String.length (g_title g) <=? 100)%nat,
      "Title cannot exceed 100 characters")]
  ++ first_failure
    [(Qle_bool 1 (g_targetAmount g), "Target amount must be at least $1")]
  ++ first_failure
    [(Qle_bool 0 (g_currentAmount g), "Current amount cannot be negative")]
  ++ first_failure
    [(now <? g_deadline g, "Deadline must be in the future")]
  ++ first_failure
    [((String.length (default "" (g_description g)) <=? 500)%nat,
      "Description cannot exceed 500 characters")]
  ++ first_failure
    [(includes categories (g_category g),
      enum_message "category" (g_category g))]
  ++ first_failure
    [(includes priorities (g_priority g),
      enum_message "priority" (g_priority g))]
  ++ first_failure
    [(includes types (g_type g), enum_message "type" (g_type g))].

Definition set_currentAmount (a : Q) (g : SavingsGoal) : SavingsGoal :=
  {| g_id := g_id g; g_userId := g_userId g; g_title := g_title g;
     g_targetAmount := g_targetAmount g; g_currentAmount := a;
     g_deadline := g_deadline g; g_description := g_description g;
     g_category := g_category g; g_priority := g_priority g;
     g_isActive := g_isActive g; g_isCompleted := g_isCompleted g;
     g_type := g_type g; g_createdAt := g_createdAt g;
     g_updatedAt := g_updatedAt g |}.

Definition set_isCompleted (b : bool) (g : SavingsGoal) : SavingsGoal :=
  {| g_id := g_id g; g_userId := g_userId g; g_title := g_title g;
     g_targetAmount := g_targetAmount g; g_currentAmount := g_currentAmount g;
     g_deadline := g_deadline g; g_description := g_description g;
     g_category := g_category g; g_priority := g_priority g;
     g_isActive := g_isActive g; g_isCompleted := b;
     g_type := g_type g; g_createdAt := g_createdAt g;
     g_updatedAt := g_updatedAt g |}.

Definition set_isActive (b : bool) (g : SavingsGoal) : SavingsGoal :=
  {| g_id := g_id g; g_userId := g_userId g; g_title := g_title g;
     g_targetAmount := g_targetAmount g; g_currentAmount := g_currentAmount g;
     g_deadline := g_deadline g; g_description := g_description g;
     g_category := g_category g; g_priority := g_priority g;
     g_isActive := b; g_isCompleted := g_isCompleted g;
     g_type := g_type g; g_createdAt := g_createdAt g;
     g_updatedAt := g_updatedAt g |}.

Definition set_updatedAt (t : Z) (g : SavingsGoal) : SavingsGoal :=
  {| g_id := g_id g; g_userId := g_userId g; g_title := g_title g;
     g_targetAmount := g_targetAmount g; g_currentAmount := g_currentAmount g;
     g_deadline := g_deadline g; g_description := g_description g;
     g_category := g_category g; g_priority := g_priority g;
     g_isActive := g_isActive g; g_isCompleted := g_isCompleted g;
     g_type := g_type g; g_createdAt := g_createdAt g;
     g_updatedAt := t |}.

(** [savingsGoalSchema.pre('save', ...)] *)
Definition pre_save (g : SavingsGoal) : SavingsGoal :=
  if Qle_bool (g_targetAmount g) (g_currentAmount g) && negb (g_isCompleted g)
  then set_isCompleted true g
  else g.

Definition has_id (id : string) (g : SavingsGoal) : bool :=
  String.eqb (g_id g) id.

(** The write of a [save]: an insert for a new document, a replacement of
    the stored one otherwise. *)
Definition write (g : SavingsGoal) (st : State) : State :=
  {| projects := projects st; incomeEntries := incomeEntries st;
     expenseEntries := expenseEntries st;
     savingsGoals :=
       if existsb (has_id (g_id g)) (savingsGoals st)
       then replace g_id g (savingsGoals st)
       else savingsGoals st ++ [g] |}.

(** [doc.save()]: the validators of the schema, then the [pre('save')]
    hook, then the write. *)
Definition save (env : Env) (g : SavingsGoal) (st : State)
    : result SavingsGoal * State :=
  match checked (validate (now env) g) g with
  | Ok g =>
      let saved := set_updatedAt (now env) (pre_save g) in
      (Ok saved, write saved st)
  | Err e => (Err e, st)
  end.

(** A handler that prepares a document or throws, then saves it. *)
Definition save_prepared (env : Env) (prepared : result SavingsGoal)
    (st : State) : result SavingsGoal * State :=
  match prepared with
  | Ok g => save env g st
  | Err e => (Err e, st)
  end.

(** *** Instance methods of the model *)

Definition addProgress (env : Env) (g : SavingsGoal) (amount : Q)
    (st : State) : result SavingsGoal * State :=
  save env (set_currentAmount (g_currentAmount g + amount)%Q g) st.

(** [Math.max(0, x)] *)
Definition max0 (x : Q) : Q := if Qle_bool 0 x then x else 0%Q.

Definition subtractProgress (env : Env) (g : SavingsGoal) (amount : Q)
    (st : State) : result SavingsGoal * State :=
  save env (set_currentAmount (max0 (g_currentAmount g - amount)%Q) g) st.

Definition markCompleted (env : Env) (g : SavingsGoal) (st : State)
    : result SavingsGoal * State :=
  save env (set_isCompleted true g) st.

Definition markActive (env : Env) (g : SavingsGoal) (st : State)
    : result SavingsGoal * State :=
  save env (set_isCompleted false g) st.

(** *** Static finders *)

Definition completed_query (userId : string) (b : bool) : gmap string Cond :=
  <["isCompleted" := CEq (VBool b)]> (scoped userId).

Definition findByUser (userId : string) (st : State) : list SavingsGoal :=
  sort "deadline" Pagination.asc (find (scoped userId) (savingsGoals st)).

Definition findActiveByUser (userId : string) (st : State) : list SavingsGoal :=
  sort "deadline" Pagination.asc
    (find (completed_query userId false) (savingsGoals st)).

Definition findCompletedByUser (userId : string) (st : State)
    : list SavingsGoal :=
  sort "updatedAt" Pagination.desc
    (find (completed_query userId true) (savingsGoals st)).

Definition expiring_query (now : Z) (userId : string) (days : Z)
    : gmap string Cond :=
  let futureDate := now + days * JSDate.msPerDay in
  <["deadline" := CRange None (Some futureDate)]> (completed_query userId false).

Definition findExpiringSoon (now : Z) (userId : string) (days : Z)
    (st : State) : list SavingsGoal :=
  sort "deadline" Pagination.asc
    (find (expiring_query now userId days) (savingsGoals st)).

(** *** Handlers *)

(** The query descriptor of [getSavingsGoals]. *)
Definition list_query (userId : string) (q : ListQuery) : gmap string Cond :=
  let status := q_status q in
  let category := q_category q in
  let priority := q_priority q in
  let query := scoped userId in
  let query :=
    if truthy_str status then
      if String.eqb (default "" status) "active"
      then <["isCompleted" := CEq (VBool false)]> query
      else if String.eqb (default "" status) "completed"
      then <["isCompleted" := CEq (VBool true)]> query
      else query
    else query in
  let query :=
    set_if (truthy_str category) "category" (VStr (default "" category))
      query in
  let query :=
    set_if (truthy_str priority && includes priorities (default "" priority))
      "priority" (VStr (default "" priority)) query in
  query.

Definition getSavingsGoals (st : State) (user : option string)
    (q : ListQuery)
    : result (list SavingsGoal * Pagination.PaginationResult) :=
  userId ← authenticated user;
  mret (paginated (list_query userId q) (pagination_of q) (savingsGoals st)).

Definition getActiveSavingsGoals (st : State) (user : option string)
    : result (list SavingsGoal) :=
  userId ← authenticated user;
  mret (findActiveByUser userId st).

Definition getCompletedSavingsGoals (st : State) (user : option string)
    : result (list SavingsGoal) :=
  userId ← authenticated user;
  mret (findCompletedByUser userId st).

Definition getExpiringSoonSavingsGoals (env : Env) (st : State)
    (user : option string) (q_days : option Z) : result (list SavingsGoal) :=
  let days := Pagination.parseInt_or q_days 7 in
  userId ← authenticated user;
  _ ← throw_if ((days <? 1) || (365 <? days))
        (BadRequestError "Days must be between 1 and 365");
  mret (findExpiringSoon (now env) userId days st).

Definition getSavingsGoalById (st : State) (user : option string)
    (id : string) : result SavingsGoal :=
  userId ← authenticated user;
  found (findOne (by_id id userId) (savingsGoals st))
    (NotFoundError "Savings goal not found").

Record GoalBody := {
  gb_title : option string;
  gb_targetAmount : option Q;
  gb_currentAmount : option Q;
  gb_deadline : option JSDate.IsoDate;
  gb_description : option string;
  gb_category : option string;
  gb_priority : option string
}.

(** [v || fallback] on a possibly absent number. *)
Definition num_or (v : option Q) (fallback : Q) : Q :=
  if truthy_num v then default fallback v else fallback.

Definition goalData (env : Env) (user : option string) (body : GoalBody)
    : result SavingsGoal :=
  userId ← authenticated user;
  let title := gb_title body in
  let targetAmount := gb_targetAmount body in
  let currentAmount := gb_currentAmount body in
  let deadline := JSDate.Date_parse (tz env) <$> gb_deadline body in
  let priority := gb_priority body in
  _ ← throw_if (negb (truthy_str title) || negb (truthy_num targetAmount)
                || negb (bool_decide (is_Some deadline)))
        (BadRequestError "Title, target amount, and deadline are required");
  _ ← throw_if (Qle_bool (default 0%Q targetAmount) 0)
        (BadRequestError "Target amount must be greater than 0");
  _ ← throw_if (truthy_num currentAmount
                && Qlt_bool (default 0%Q currentAmount) 0)
        (BadRequestError "Current amount cannot be negative");
  _ ← throw_if (default 0 deadline <=? now env)
        (BadRequestError "Deadline must be in the future");
  mret {| g_id := newId env; g_userId := userId;
          g_title := JSString.trim (default "" title);
          g_targetAmount := default 0%Q targetAmount;
          g_currentAmount := num_or currentAmount 0;
          g_deadline := default 0 deadline;
          g_description := JSString.trim <$> gb_description body;
          g_category := default "other" (gb_category body);
          g_priority :=
            if truthy_str priority then default "medium" priority else "medium";
          g_isActive := true;
          g_isCompleted := false;
          g_type := "monthly";
          g_createdAt := now env; g_updatedAt := now env |}.

Definition createSavingsGoal (env : Env) (st : State) (user : option string)
    (body : GoalBody) : result SavingsGoal * State :=
  save_prepared env (goalData env user body) st.

Definition updated_goal (env : Env) (st : State) (user : option string)
    (id : string) (body : GoalBody) : result SavingsGoal :=
  userId ← authenticated user;
  g ← found (findOne (by_id id userId) (savingsGoals st))
        (NotFoundError "Savings goal not found");
  _ ← throw_if (from_option (λ t, String.eqb (JSString.trim t) "") false
                  (gb_title body))
        (BadRequestError "Title cannot be empty");
  _ ← throw_if (from_option (λ a, Qle_bool a 0) false (gb_targetAmount body))
        (BadRequestError "Target amount must be greater than 0");
  _ ← throw_if (from_option (λ a, Qlt_bool a 0) false (gb_currentAmount body))
        (BadRequestError "Current amount cannot be negative");
  let deadline := JSDate.Date_parse (tz env) <$> gb_deadline body in
  _ ← throw_if (from_option (λ d, d <=? now env) false deadline)
        (BadRequestError "Deadline must be in the future");
  _ ← throw_if (from_option (λ p, negb (includes priorities p)) false
                  (gb_priority body))
        (BadRequestError "Priority must be low, medium, or high");
  mret {| g_id := g_id g; g_userId := g_userId g;
          g_title := default (g_title g) (JSString.trim <$> gb_title body);
          g_targetAmount := default (g_targetAmount g) (gb_targetAmount body);
          g_currentAmount := default (g_currentAmount g) (gb_currentAmount body);
          g_deadline := default (g_deadline g) deadline;
          g_description :=
            match gb_description body with
            | Some d => Some (JSString.trim d)
            | None => g_description g
            end;
          g_category := default (g_category g) (gb_category body);
          g_priority := default (g_priority g) (gb_priority body);
          g_isActive := g_isActive g;
          g_isCompleted := g_isCompleted g;
          g_type := g_type g;
          g_createdAt := g_createdAt g; g_updatedAt := g_updatedAt g |}.

Definition updateSavingsGoal (env : Env) (st : State) (user : option string)
    (id : string) (body : GoalBody) : result SavingsGoal * State :=
  save_prepared env (updated_goal env st user id body) st.

Record ProgressBody := {
  pb_amount : option Q;
  pb_action : option string
}.

Definition dquote : string := String (ascii_of_nat 34) EmptyString.

Definition action_message : string :=
  "Action must be either " +:+ dquote +:+ "add" +:+ dquote +:+ " or "
    +:+ dquote +:+ "subtract" +:+ dquote.

Definition progressed_goal (st : State) (user : option string) (id : string)
    (body : ProgressBody) : result SavingsGoal :=
  let amount := pb_amount body in
  let action := pb_action body in
  userId ← authenticated user;
  _ ← throw_if (negb (truthy_num amount) || Qle_bool (default 0%Q amount) 0)
        (BadRequestError "Amount must be greater than 0");
  _ ← throw_if (negb (truthy_str action)
                || negb (includes ["add"; "subtract"] (default "" action)))
        (BadRequestError action_message);
  g ← found (findOne (by_id id userId) (savingsGoals st))
        (NotFoundError "Savings goal not found");
  if String.eqb (default "" action) "add" then
    mret (set_currentAmount (g_currentAmount g + default 0%Q amount)%Q g)
  else
    let newAmount := (g_currentAmount g - default 0%Q amount)%Q in
    _ ← throw_if (Qlt_bool newAmount 0)
          (BadRequestError "Cannot subtract more than current amount");
    mret (set_currentAmount newAmount g).

Definition updateSavingsGoalProgress (env : Env) (st : State)
    (user : option string) (id : string) (body : ProgressBody)
    : result SavingsGoal * State :=
  save_prepared env (progressed_goal st user id body) st.

Definition deleteSavingsGoal (env : Env) (st : State) (user : option string)
    (id : string) : result SavingsGoal * State :=
  save_prepared env
    (userId ← authenticated user;
     g ← found (findOne (by_id id userId) (savingsGoals st))
           (NotFoundError "Savings goal not found");
     mret (set_isActive false g))
    st.

Record GoalsStats := {
  totalGoals : Z;
  activeGoals : Z;
  completedGoals : Z;
  expiringSoonCount : Z;
  totalTargetAmount : Q;
  totalCurrentAmount : Q;
  totalProgress : Q
}.

(** [Math.round(x * 100) / 100] *)
Definition round2 (x : Q) : Q :=
  (inject_Z (Qfloor (x * 100 + (1 # 2))) / 100)%Q.

Definition getSavingsGoalsStats (env : Env) (st : State)
    (user : option string) : result GoalsStats :=
  userId ← authenticated user;
  let goals := savingsGoals st in
  let goalsData := find (scoped userId) goals in
  let totalTargetAmount :=
    foldl (λ sum goal, (sum + g_targetAmount goal)%Q) 0%Q goalsData in
  let totalCurrentAmount :=
    foldl (λ sum goal, (sum + g_currentAmount goal)%Q) 0%Q goalsData in
  let totalProgress :=
    if Qlt_bool 0 totalTargetAmount
    then (totalCurrentAmount / totalTargetAmount * 100)%Q
    else 0%Q in
  mret {| totalGoals := countDocuments (scoped userId) goals;
          activeGoals := countDocuments (completed_query userId false) goals;
          completedGoals := countDocuments (completed_query userId true) goals;
          expiringSoonCount :=
            Z.of_nat (length (findExpiringSoon (now env) userId 7 st));
          totalTargetAmount := totalTargetAmount;
          totalCurrentAmount := totalCurrentAmount;
          totalProgress := round2 totalProgress |}.

End Savings.

(** ** The read operations and the query descriptors they hand to the store *)

Inductive ReadOperation : Type :=
  | GetIncomeEntries (q : ListQuery)
  | GetIncomeStats (q : ListQuery)
  | GetIncomeByProject (q : ListQuery)
  | GetExpenseEntries (q : ListQuery)
  | GetExpenseStats (q : ListQuery)
  | GetExpensesByProject (q : ListQuery)
  | GetProjects (q : ListQuery)
  | GetProjectsByStatus (status : string) (q : ListQuery)
  | GetProjectStats
  | GetSavingsGoals (q : ListQuery)
  | GetActiveSavingsGoals
  | GetCompletedSavingsGoals
  | GetExpiringSoonSavingsGoals (days : Z)
  | GetSavingsGoalsStats.

(** Every descriptor the handler of a read operation passes to [find],
    [countDocuments] or [$match], in the order of the source. *)
Definition descriptors (env : Env) (userId : string) (op : ReadOperation)
    : list (gmap string Store.Cond) :=
  match op with
  | GetIncomeEntries q => [Entries.list_query Entries.Income (tz env) userId q]
  | GetExpenseEntries q => [Entries.list_query Entries.Expense (tz env) userId q]
  | GetIncomeStats q | GetIncomeByProject q
  | GetExpenseStats q | GetExpensesByProject q =>
      [Entries.match_query (tz env) userId q]
  | GetProjects q => [Projects.list_query userId q]
  | GetProjectsByStatus status q => [Projects.status_query userId status]
  | GetProjectStats => [Store.scoped userId]
  | GetSavingsGoals q => [Savings.list_query userId q]
  | GetActiveSavingsGoals => [Savings.completed_query userId false]
  | GetCompletedSavingsGoals => [Savings.completed_query userId true]
  | GetExpiringSoonSavingsGoals days =>
      [Savings.expiring_query (now env) userId days]
  | GetSavingsGoalsStats =>
      [Store.scoped userId;
       Savings.completed_query userId false;
       Savings.completed_query userId true;
       Savings.expiring_query (now env) userId 7;
       Store.scoped userId]
  end.

(** [req.query] with one filter replaced. *)
Definition set_category (v : option string) (q : ListQuery) : ListQuery :=
  {| q_page := q_page q; q_limit := q_limit q; q_sortBy := q_sortBy q;
     q_sortOrder := q_sortOrder q; q_projectId := q_projectId q;
     q_category := v; q_status := q_status q; q_priority := q_priority q;
     q_startDate := q_startDate q; q_endDate := q_endDate q |}.

Definition set_status (v : option string) (q : ListQuery) : ListQuery :=
  {| q_page := q_page q; q_limit := q_limit q; q_sortBy := q_sortBy q;
     q_sortOrder := q_sortOrder q; q_projectId := q_projectId q;
     q_category := q_category q; q_status := v; q_priority := q_priority q;
     q_startDate := q_startDate q; q_endDate := q_endDate q |}.

Definition set_priority (v : option string) (q : ListQuery) : ListQuery :=
  {| q_page := q_page q; q_limit := q_limit q; q_sortBy := q_sortBy q;
     q_sortOrder := q_sortOrder q; q_projectId := q_projectId q;
     q_category := q_category q; q_status := q_status q; q_priority := v;
     q_startDate := q_startDate q; q_endDate := q_endDate q |}.

Definition set_endDate (v : option JSDate.IsoDate) (q : ListQuery) : ListQuery :=
  {| q_page := q_page q; q_limit := q_limit q; q_sortBy := q_sortBy q;
     q_sortOrder := q_sortOrder q; q_projectId := q_projectId q;
     q_category := q_category q; q_status := q_status q;
     q_priority := q_priority q;
     q_startDate := q_startDate q; q_endDate := v |}.

(** A request without any query parameter. *)
Definition no_query : ListQuery :=
  {| q_page := None; q_limit := None; q_sortBy := None; q_sortOrder := None;
     q_projectId := None; q_category := None; q_status := None;
     q_priority := None; q_startDate := None; q_endDate := None |}.

(** ** Sample data for the worked examples of the specification *)

Module Sample.
Import Store.

(** A process running in UTC on 2024-01-01T00:00:00Z. *)
Definition env : Env :=
  {| tz := 0; now := 1704067200000; newId := "new" |}.

(** A goal with [currentAmount = 80] and [targetAmount = 100], due on
    2025-01-01. *)
Definition goal : SavingsGoal :=
  {| g_id := "g1"; g_userId := "u1"; g_title := "Laptop";
     g_targetAmount := 100; g_currentAmount := 80;
     g_deadline := 1735689600000; g_description := None;
     g_category := "other"; g_priority := "medium";
     g_isActive := true; g_isCompleted := false; g_type := "monthly";
     g_createdAt := 1700000000000; g_updatedAt := 1700000000000 |}.

Definition empty : State :=
  {| projects := []; incomeEntries := []; expenseEntries := [];
     savingsGoals := [] |}.

Definition goals (l : list SavingsGoal) : State :=
  {| projects := []; incomeEntries := []; expenseEntries := [];
     savingsGoals := l |}.

Definition add (a : Q) : Savings.ProgressBody :=
  {| Savings.pb_amount := Some a; Savings.pb_action := Some "add" |}.

Definition subtract (a : Q) : Savings.ProgressBody :=
  {| Savings.pb_amount := Some a; Savings.pb_action := Some "subtract" |}.

(** The goal after 25 were added: 105 of 100, completed. *)
Definition goal_105 : SavingsGoal :=
  {| g_id := "g1"; g_userId := "u1"; g_title := "Laptop";
     g_targetAmount := 100; g_currentAmount := 105;
     g_deadline := 1735689600000; g_description := None;
     g_category := "other"; g_priority := "medium";
     g_isActive := true; g_isCompleted := true; g_type := "monthly";
     g_createdAt := 1700000000000; g_updatedAt := 1704067200000 |}.

(** ... and after 50 were then taken back: 55 of 100, still completed. *)
Definition goal_55 : SavingsGoal :=
  {| g_id := "g1"; g_userId := "u1"; g_title := "Laptop";
     g_targetAmount := 100; g_currentAmount := 55;
     g_deadline := 1735689600000; g_description := None;
     g_category := "other"; g_priority := "medium";
     g_isActive := true; g_isCompleted := true; g_type := "monthly";
     g_createdAt := 1700000000000; g_updatedAt := 1704067200000 |}.

Definition entry (id userId projectId : string) (amount : Q)
    (date : JSDate.IsoDate) (category : string) : Entry :=
  {| e_id := id; e_userId := userId; e_projectId := projectId;
     e_amount := amount; e_description := "invoice";
     e_date := JSDate.Date_parse 0 date; e_category := category;
     e_receiptUrl := None; e_isActive := true;
     e_createdAt := 1700000000000; e_updatedAt := 1700000000000 |}.

Definition project (id userId name : string) : Project :=
  {| p_id := id; p_userId := userId; p_name := name;
     p_clientName := "Acme"; p_expectedPayment := 1000;
     p_status := "active"; p_createdDate := 1700000000000;
     p_budgetAllocation := 10; p_description := None; p_isActive := true;
     p_createdAt := 1700000000000; p_updatedAt := 1700000000000 |}.

(** A store whose only project, "p2", belongs to the user "u2". *)
Definition foreign_project : State :=
  {| projects := [project "p2" "u2" "Website"]; incomeEntries := [];
     expenseEntries := []; savingsGoals := [] |}.

(** The user "u1" owns the project "p1" and has entries on "p1" and on
    "p2", a project of "u2". *)
Definition ledger : State :=
  {| projects := [project "p1" "u1" "Shop"; project "p2" "u2" "Website"];
     incomeEntries :=
       [entry "e1" "u1" "p1" 100 (JSDate.DateOnly 2024 1 15) "project-payment";
        entry "e2" "u1" "p2" 400 (JSDate.DateOnly 2024 1 20) "bonus";
        entry "e3" "u1" "p1" 200 (JSDate.DateOnly 2024 2 3) "project-payment"];
     expenseEntries := []; savingsGoals := [] |}.

(** A process whose local time is UTC-05:00. *)
Definition env_west : Env :=
  {| tz := -300; now := 1704067200000; newId := "new" |}.

Definition entry_on (tz : Z) (id : string) (date : JSDate.IsoDate) : Entry :=
  {| e_id := id; e_userId := "u1"; e_projectId := "p1";
     e_amount := 100; e_description := "invoice";
     e_date := JSDate.Date_parse tz date; e_category := "bonus";
     e_receiptUrl := None; e_isActive := true;
     e_createdAt := 1700000000000; e_updatedAt := 1700000000000 |}.

(** Two income entries of "u1", dated 2024-01-31T23:00:00 and
    2024-02-01T00:00:01 in a process at offset [tz]. *)
Definition late_january (tz : Z) : State :=
  {| projects := [project "p1" "u1" "Shop"];
     incomeEntries :=
       [entry_on tz "e1" (JSDate.DateTime 2024 1 31 23 0 0 0 None);
        entry_on tz "e2" (JSDate.DateTime 2024 2 1 0 0 1 0 None)];
     expenseEntries := []; savingsGoals := [] |}.

(** [?endDate=2024-01-31] *)
Definition until_january_31 : ListQuery :=
  set_endDate (Some (JSDate.DateOnly 2024 1 31)) no_query.

(** The three entries of the monthly-trend example. *)
Definition january_february : list Entry :=
  [entry "e1" "u1" "p1" 100 (JSDate.DateOnly 2024 1 15) "project-payment";
   entry "e2" "u1" "p1" 50 (JSDate.DateOnly 2024 1 20) "bonus";
   entry "e3" "u1" "p1" 200 (JSDate.DateOnly 2024 2 3) "project-payment"].

End Sample.


(** ** Projects: reads by identifier and writes
       ([projectController.ts], [Project.ts]) *)

Module ProjectWrites.
Import Store.

Definition validate (p : Project) : list string :=
  first_failure
    [(negb (String.eqb (p_userId p) ""), "User ID is required")]
  ++ first_failure
    [(negb (String.eqb (p_name p) ""), "Project name is required");
     ((2 <=? String.length (p_name p))%nat,
      "Project name must be at least 2 characters long");
     ((String.length (p_name p) <=? 100)%nat,
      "Project name cannot exceed 100 characters")]
  ++ first_failure
    [(negb (String.eqb (p_clientName p) ""), "Client name is required");
     ((2 <=? String.length (p_clientName p))%nat,
      "Client name must be at least 2 characters long");
     ((String.length (p_clientName p) <=? 100)%nat,
      "Client name cannot exceed 100 characters")]
  ++ first_failure
    [(Qle_bool 0 (p_expectedPayment p), "Expected payment cannot be negative")]
  ++ first_failure
    [(includes Projects.statuses (p_status p),
      enum_message "status" (p_status p))]
  ++ first_failure
    [(Qle_bool 0 (p_budgetAllocation p), "Budget allocation cannot be negative");
     (Qle_bool (p_budgetAllocation p) 100, "Budget allocation cannot exceed 100%")]
  ++ first_failure
    [((String.length (default "" (p_description p)) <=? 500)%nat,
      "Description cannot exceed 500 characters")].

Record ProjectBody := {
  pj_name : option string;
  pj_clientName : option string;
  pj_expectedPayment : option Q;
  pj_status : option string;
  pj_budgetAllocation : option Q;
  pj_description : option string
}.

Definition set_projects (docs : list Project) (st : State) : State :=
  {| projects := docs; incomeEntries := incomeEntries st;
     expenseEntries := expenseEntries st; savingsGoals := savingsGoals st |}.

Definition getProject (st : State) (user : option string) (id : string)
    : result Project :=
  userId ← authenticated user;
  found (findOne (by_id id userId) (projects st))
    (NotFoundError "Project not found").

(** What [createProject] computes before the write. *)
Definition create_doc (env : Env) (user : option string) (body : ProjectBody)
    : result Project :=
  userId ← authenticated user;
  let name := pj_name body in
  let clientName := pj_clientName body in
  let expectedPayment := pj_expectedPayment body in
  let status := default "active" (pj_status body) in
  let budgetAllocation := default 10%Q (pj_budgetAllocation body) in
  _ ← throw_if (negb (truthy_str name) || negb (truthy_str clientName)
                || negb (truthy_num expectedPayment))
        (BadRequestError "Name, client name, and expected payment are required");
  _ ← throw_if (Qle_bool (default 0%Q expectedPayment) 0)
        (BadRequestError "Expected payment must be greater than 0");
  _ ← throw_if (Qlt_bool budgetAllocation 0 || Qlt_bool 100 budgetAllocation)
        (BadRequestError "Budget allocation must be between 0 and 100");
  let doc :=
    {| p_id := newId env; p_userId := userId;
       p_name := JSString.trim (default "" name);
       p_clientName := JSString.trim (default "" clientName);
       p_expectedPayment := default 0%Q expectedPayment;
       p_status := status;
       p_createdDate := now env;
       p_budgetAllocation := budgetAllocation;
       p_description := JSString.trim <$> pj_description body;
       p_isActive := true;
       p_createdAt := now env; p_updatedAt := now env |} in
  checked (validate doc) doc.

Definition createProject (env : Env) (st : State) (user : option string)
    (body : ProjectBody) : result Project * State :=
  match create_doc env user body with
  | Ok doc => (Ok doc, set_projects (projects st ++ [doc]) st)
  | Err e => (Err e, st)
  end.

Definition update_doc (env : Env) (st : State) (user : option string)
    (id : string) (body : ProjectBody) : result Project :=
  userId ← authenticated user;
  p ← found (findOne (by_id id userId) (projects st))
        (NotFoundError "Project not found");
  let name := pj_name body in
  let clientName := pj_clientName body in
  let status := pj_status body in
  _ ← throw_if (from_option (λ a, Qle_bool a 0) false (pj_expectedPayment body))
        (BadRequestError "Expected payment must be greater than 0");
  _ ← throw_if (from_option (λ b, Qlt_bool b 0 || Qlt_bool 100 b) false
                  (pj_budgetAllocation body))
        (BadRequestError "Budget allocation must be between 0 and 100");
  _ ← throw_if (truthy_str status
                && negb (includes Projects.statuses (default "" status)))
        (BadRequestError "Invalid status value");
  let doc :=
    {| p_id := p_id p; p_userId := p_userId p;
       p_name :=
         Entries.assign_if (truthy_str name) (JSString.trim (default "" name))
           (p_name p);
       p_clientName :=
         Entries.assign_if (truthy_str clientName)
           (JSString.trim (default "" clientName)) (p_clientName p);
       p_expectedPayment := default (p_expectedPayment p) (pj_expectedPayment body);
       p_status :=
         Entries.assign_if (truthy_str status) (default "" status) (p_status p);
       p_createdDate := p_createdDate p;
       p_budgetAllocation :=
         default (p_budgetAllocation p) (pj_budgetAllocation body);
       p_description :=
         match pj_description body with
         | Some d => Some (JSString.trim d)
         | None => p_description p
         end;
       p_isActive := p_isActive p;
       p_createdAt := p_createdAt p; p_updatedAt := now env |} in
  checked (validate doc) doc.

Definition updateProject (env : Env) (st : State) (user : option string)
    (id : string) (body : ProjectBody) : result Project * State :=
  match update_doc env st user id body with
  | Ok doc => (Ok doc, set_projects (replace p_id doc (projects st)) st)
  | Err e => (Err e, st)
  end.

Definition deactivated (env : Env) (p : Project) : Project :=
  {| p_id := p_id p; p_userId := p_userId p; p_name := p_name p;
     p_clientName := p_clientName p;
     p_expectedPayment := p_expectedPayment p; p_status := p_status p;
     p_createdDate := p_createdDate p;
     p_budgetAllocation := p_budgetAllocation p;
     p_description := p_description p; p_isActive := false;
     p_createdAt := p_createdAt p; p_updatedAt := now env |}.

Definition deleteProject (env : Env) (st : State) (user : option string)
    (id : string) : result unit * State :=
  let doc :=
    userId ← authenticated user;
    p ← found (findOne (by_id id userId) (projects st))
          (NotFoundError "Project not found");
    checked (validate (deactivated env p)) (deactivated env p) in
  match doc with
  | Ok doc => (Ok (), set_projects (replace p_id doc (projects st)) st)
  | Err e => (Err e, st)
  end.

End ProjectWrites.

(** ** Virtual properties of a savings goal ([SavingsGoal.ts]) *)

Module Virtuals.
Import Store.

(** [Math.min(100, x)] *)
Definition min100 (x : Q) : Q := if Qle_bool x 100 then x else 100%Q.

Definition progressPercentage (g : SavingsGoal) : Q :=
  min100 (g_currentAmount g / g_targetAmount g * 100)%Q.

Definition remainingAmount (g : SavingsGoal) : Q :=
  Savings.max0 (g_targetAmount g - g_currentAmount g)%Q.

(** [Math.ceil(timeDiff / (1000 * 3600 * 24))] *)
Definition daysRemaining (now : Z) (g : SavingsGoal) : Z :=
  let timeDiff := g_deadline g - now in
  Qceiling (inject_Z timeDiff / inject_Z (1000 * 3600 * 24))%Q.

End Virtuals.

(** ** The remaining helpers of [utils/helpers.ts] *)

Module Helpers.
Import JSDate JSString.

(** The [Date] constructor reads a year from 0 to 99 as 1900 + year. *)
Definition full_year (y : Z) : Z :=
  if (0 <=? y) && (y <=? 99) then 1900 + y else y.

(** ECMAScript's [MakeDay]: a month index outside 0..11 carries into the
    year, a day of the month outside the month carries into the months. *)
Definition MakeDay (year month date : Z) : Z :=
  days_from_civil (year + month / 12) (month mod 12 + 1) 1 + date - 1.

(** [new Date(year, month, date, h, mi, s, ms)], in local time. *)
Definition Date_local (tz year month date h mi s ms : Z) : Z :=
  UTC tz (MakeDay (full_year year) month date * msPerDay + MakeTime h mi s ms).

Record Range := {
  r_start : Z;
  r_end : Z
}.

Definition getMonthRange (tz year month : Z) : Range :=
  {| r_start := Date_local tz year (month - 1) 1 0 0 0 0;
     r_end := Date_local tz year month 0 23 59 59 999 |}.

Definition getYearRange (tz year : Z) : Range :=
  {| r_start := Date_local tz year 0 1 0 0 0 0;
     r_end := Date_local tz year 11 31 23 59 59 999 |}.

Definition pad (n : nat) (z : Z) : string := padStart n "0" (toString z).

(** The year of [toISOString]: four digits from 0 to 9999, a sign and six
    digits otherwise. *)
Definition iso_year (y : Z) : string :=
  if (0 <=? y) && (y <=? 9999) then pad 4 y
  else (if y <? 0 then "-" else "+") +:+ pad 6 (Z.abs y).

(** [date.toISOString().split('T')[0]] *)
Definition formatDate (t : Z) : string :=
  let '(y, m, d) := civil_from_days (t / msPerDay) in
  iso_year y +:+ "-" +:+ pad 2 m +:+ "-" +:+ pad 2 d.

(** The Gregorian calendar, to say which (year, month, day) name a date. *)
Definition is_leap (y : Z) : bool :=
  (y mod 4 =? 0) && (negb (y mod 100 =? 0) || (y mod 400 =? 0)).

Definition days_in_month (y m : Z) : Z :=
  if m =? 2 then (if is_leap y then 29 else 28)
  else if (m =? 4) || (m =? 6) || (m =? 9) || (m =? 11) then 30
  else 31.

(** [Math.round(amount * 100) / 100] *)
Definition roundToTwoDecimals (amount : Q) : Q :=
  (inject_Z (Qfloor (amount * 100 + (1 # 2))) / 100)%Q.

(** [[...new Set(array)]]: the elements in the order they are first met. *)
Definition removeDuplicates {A} `{EqDecision A} (array : list A) : list A :=
  foldl (λ set x, if decide (x ∈ set) then set else set ++ [x]) [] array.

(** [array.reduce((groups, item) => { ... groups[group].push(item) ... }, {})] *)
Definition groupBy {T} (key : T → string) (array : list T)
    : gmap string (list T) :=
  foldl (λ groups item,
           let group := key item in
           <[group := default [] (groups !! group) ++ [item]]> groups)
    ∅ array.

Definition in_range (lo hi : nat) (c : ascii) : bool :=
  let n := nat_of_ascii c in ((lo <=? n) && (n <=? hi))%nat.

Definition toLowerCase_char (c : ascii) : ascii :=
  if in_range 65 90 c then ascii_of_nat (nat_of_ascii c + 32) else c.

Fixpoint map_string (f : ascii → ascii) (s : string) : string :=
  match s with
  | EmptyString => EmptyString
  | String c r => String (f c) (map_string f r)
  end.

Fixpoint filter_string (f : ascii → bool) (s : string) : string :=
  match s with
  | EmptyString => EmptyString
  | String c r => if f c then String c (filter_string f r) else filter_string f r
  end.

(** The class [\w] of a regular expression. *)
Definition is_word (c : ascii) : bool :=
  in_range 48 57 c || in_range 65 90 c || in_range 97 122 c
  || (nat_of_ascii c =? 95)%nat.

Definition is_blank (c : ascii) : bool := (nat_of_ascii c =? 32)%nat.

(** [.replace(/ +/g, '-')]: [in_run] tells that the previous character was
    a blank, already replaced. *)
Fixpoint dashes (in_run : bool) (s : string) : string :=
  match s with
  | EmptyString => EmptyString
  | String c r =>
      if is_blank c
      then (if in_run then dashes true r else String "-" (dashes true r))
      else String c (dashes false r)
  end.

Definition slugify (str : string) : string :=
  dashes false
    (filter_string (λ c, is_word c || is_blank c)
       (map_string toLowerCase_char str)).

(** [str.length > length ? str.substring(0, length) + '...' : str] *)
Definition truncate (str : string) (length : Z) : string :=
  if length <? Z.of_nat (String.length str)
  then String.substring 0 (Z.to_nat length) str +:+ "..."
  else str.

End Helpers.

(** * Properties *)

(** ** Pagination *)

Section pagination_facts.
Import Pagination.

Lemma Qceiling_quotient (a b : Z) :
  0 < b → Qceiling (inject_Z a / inject_Z b) = - (- a / b).
Proof.
  intros Hb. destruct b as [|p|p]; try lia.
  unfold Qceiling, Qfloor, Qdiv, Qmult, Qinv, Qopp, inject_Z. simpl.
  by rewrite Z.mul_1_r.
Qed.

Lemma pages_is_ceiling (total page limit : Z) :
  0 < limit →
  let pages := r_pages (calculatePagination total page limit) in
  (pages - 1) * limit < total ≤ pages * limit.
Proof.
  intros Hl. simpl. rewrite Qceiling_quotient by done.
  pose proof (Z.div_mod (- total) limit ltac:(lia)) as Hdm.
  pose proof (Z.mod_pos_bound (- total) limit Hl) as Hm.
  nia.
Qed.

Lemma getPaginationOptions_bounds p l s o :
  let opts := getPaginationOptions p l s o in
  1 ≤ page opts ∧ 1 ≤ limit opts ≤ 100.
Proof. simpl. lia. Qed.

Lemma skip_limit_beyond {A} (skip lim : Z) (l : list A) :
  0 ≤ skip → Z.of_nat (length l) ≤ skip → skip_limit skip lim l = [].
Proof.
  intros H0 Hlen. unfold skip_limit.
  rewrite drop_ge by lia. by rewrite take_nil.
Qed.
End pagination_facts.

(** Claim C2.  For a non-negative [total], a positive [page] and a [limit]
    between 1 and 100, [calculatePagination] returns [pages = ceil(total /
    limit)], that is the least number of pages of [limit] records that hold
    [total] records (so [pages = 0] when [total = 0]); [hasNext] holds exactly
    when [page < pages] and [hasPrev] exactly when [page > 1]; [getSkipValue]
    is [(page - 1) * limit]; [page], [limit] and [total] are echoed.  A page
    beyond [pages] is not an error: [hasNext] is false and the slice taken
    from any record set of [total] records is empty. *)
Theorem pagination_metadata (total page limit : Z) :
  0 ≤ total → 1 ≤ page → 1 ≤ limit ≤ 100 →
  let r := Pagination.calculatePagination total page limit in
  let pages := Pagination.r_pages r in
  ((pages - 1) * limit < total ≤ pages * limit)
  ∧ (total = 0 → pages = 0)
  ∧ (Pagination.r_hasNext r = true ↔ page < pages)
  ∧ (Pagination.r_hasPrev r = true ↔ 1 < page)
  ∧ Pagination.getSkipValue page limit = (page - 1) * limit
  ∧ Pagination.r_page r = page
  ∧ Pagination.r_limit r = limit
  ∧ Pagination.r_total r = total
  ∧ (pages < page →
       Pagination.r_hasNext r = false
       ∧ ∀ (A : Type) (records : list A),
           Z.of_nat (length records) = total →
           Pagination.skip_limit (Pagination.getSkipValue page limit) limit
             records = []).
Proof.
  intros Htotal Hpage Hlimit r pages.
  assert (Hceil : (pages - 1) * limit < total ≤ pages * limit)
    by (apply pages_is_ceiling; lia).
  split; [done|].
  split; [intros ->; nia|].
  split; [subst r; simpl; fold pages; apply Z.ltb_lt|].
  split; [subst r; simpl; apply Z.ltb_lt|].
  repeat (split; [done|]).
  intros Hbeyond. split.
  - change (Pagination.r_hasNext r) with (page <? pages). apply Z.ltb_ge. lia.
  - intros A records Hlen. apply skip_limit_beyond.
    + unfold Pagination.getSkipValue. nia.
    + unfold Pagination.getSkipValue. nia.
Qed.

Lemma pagination_metadata_witness :
  0 ≤ 101 ∧ 1 ≤ 2 ∧ 1 ≤ 10 ≤ 100
  ∧ Pagination.r_pages (Pagination.calculatePagination 101 2 10) = 11
  ∧ (Pagination.r_hasNext (Pagination.calculatePagination 101 2 10) = true
     ↔ 2 < Pagination.r_pages (Pagination.calculatePagination 101 2 10)).
Proof.
  assert (H0 : 0 ≤ 101) by lia.
  assert (H1 : 1 ≤ 2) by lia.
  assert (H2 : 1 ≤ 10 ≤ 100) by lia.
  pose proof (pagination_metadata 101 2 10 H0 H1 H2) as (Hceil & _ & Hnext & _).
  split; [exact H0|]. split; [exact H1|]. split; [exact H2|].
  split; [lia | exact Hnext].
Defined.

(** ** Query descriptors: owner and active-only scoping *)

Section scoping.
Import Store.

Lemma scoped_userId (userId : string) :
  scoped userId !! "userId" = Some (CEq (VStr userId)).
Proof. unfold scoped. by rewrite lookup_insert_ne, lookup_insert_eq. Qed.

Lemma scoped_isActive (userId : string) :
  scoped userId !! "isActive" = Some (CEq (VBool true)).
Proof. unfold scoped. by rewrite lookup_insert_eq. Qed.

Lemma scoped_other (userId k : string) :
  k ≠ "userId" → k ≠ "isActive" → scoped userId !! k = None.
Proof.
  intros H1 H2. unfold scoped.
  rewrite !lookup_insert_ne by done. apply lookup_empty.
Qed.

(** Writing another key into a descriptor keeps the scoping part. *)
Lemma scoped_insert (userId k : string) (c : Cond) (q : gmap string Cond) :
  k ≠ "userId" → k ≠ "isActive" →
  scoped userId ⊆ q → scoped userId ⊆ <[k := c]> q.
Proof. intros. apply insert_subseteq_r; [by apply scoped_other | done]. Qed.

Lemma scoped_set_if (userId k : string) b v (q : gmap string Cond) :
  k ≠ "userId" → k ≠ "isActive" →
  scoped userId ⊆ q → scoped userId ⊆ set_if b k v q.
Proof. intros. destruct b; simpl; [by apply scoped_insert | done]. Qed.

Lemma scoped_with_date (userId : string) dr (q : gmap string Cond) :
  scoped userId ⊆ q → scoped userId ⊆ with_date dr q.
Proof.
  intros. unfold with_date.
  destruct (JSDate.startDate dr), (JSDate.endDate dr);
    try done; by apply scoped_insert.
Qed.

Lemma Value_eqb_VStr v s : Value_eqb v (VStr s) = true → v = VStr s.
Proof. destruct v; simpl; try done. by intros ->%String.eqb_eq. Qed.

Lemma Value_eqb_VBool v b : Value_eqb v (VBool b) = true → v = VBool b.
Proof. destruct v; simpl; try done. by intros ->%Bool.eqb_prop. Qed.

(** What the scoping part asks of a document. *)
Lemma matches_scoped `{Document D} (userId : string) (d : D) :
  matches (scoped userId) d ↔
  field d "userId" = Some (VStr userId)
  ∧ field d "isActive" = Some (VBool true).
Proof.
  unfold matches. rewrite map_Forall_lookup. split.
  - intros Hq.
    pose proof (Hq _ _ (scoped_userId userId)) as Hu.
    pose proof (Hq _ _ (scoped_isActive userId)) as Ha.
    simpl in Hu, Ha.
    destruct (field d "userId") as [vu|]; [|done].
    destruct (field d "isActive") as [va|]; [|done].
    by rewrite (Value_eqb_VStr _ _ Hu), (Value_eqb_VBool _ _ Ha).
  - intros [Hu Ha] k c. unfold scoped.
    rewrite lookup_insert. case_decide as Hk.
    + intros [= <-]. subst k. rewrite Ha. done.
    + rewrite lookup_insert. case_decide as Hk'; [|by rewrite lookup_empty].
      intros [= <-]. subst k. rewrite Hu. simpl. apply String.eqb_refl.
Qed.

Lemma matches_subseteq `{Document D} (q1 q2 : gmap string Cond) (d : D) :
  q1 ⊆ q2 → matches q2 d → matches q1 d.
Proof.
  unfold matches. rewrite !map_Forall_lookup. intros Hsub Hq k c Hk.
  apply Hq. eapply lookup_weaken; eauto.
Qed.

Lemma find_restricts `{Document D} (q1 q2 : gmap string Cond) (docs : list D) :
  q1 ⊆ q2 → find q2 docs = filter (matches q2) (find q1 docs).
Proof.
  intros Hsub. unfold find. rewrite list_filter_filter.
  apply list_filter_iff. intros d. split; [|tauto].
  intros Hd. split; [done|]. by eapply matches_subseteq.
Qed.

(** A page of a listing holds documents of the collection that match the
  descriptor. *)
Lemma paginated_found `{Document D} (q : gmap string Cond)
  (opts : Pagination.PaginationOptions) (docs : list D) (d : D) :
d ∈ (paginated q opts docs).1 → d ∈ docs ∧ matches q d.
Proof.
unfold paginated, Pagination.skip_limit, sort. cbn [fst].
intros Hd. apply subseteq_take, subseteq_drop in Hd.
rewrite merge_sort_Permutation in Hd.
apply list_elem_of_filter in Hd as [Hm Hd]. done.
Qed.

Lemma descriptors_scoped env userId op query :
  query ∈ descriptors env userId op → scoped userId ⊆ query.
Proof.
  destruct op; simpl; rewrite ?elem_of_cons, ?elem_of_nil;
    intros Hq; repeat (destruct Hq as [-> | Hq]); try done;
    unfold Entries.list_query, Entries.match_query, Projects.list_query,
      Projects.status_query, Savings.list_query, Savings.expiring_query,
      Savings.completed_query;
    repeat first
      [ done
      | apply scoped_with_date
      | apply scoped_set_if; [done | done |]
      | apply scoped_insert; [done | done |]
      | match goal with |- context [if ?b then _ else _] => destruct b end ].
Qed.
End scoping.



(** ** Savings goals: progress and completion *)

Section savings.
Import Store Savings.

Lemma bind_Ok_inv {A B} (r : result A) (k : A → result B) (b : B) :
  r ≫= k = Ok b → ∃ a, r = Ok a ∧ k a = Ok b.
Proof. destruct r as [a|e]; [by exists a | done]. Qed.

Lemma throw_if_Ok c e u : throw_if c e = Ok u → c = false.
Proof. by destruct c. Qed.

Lemma throw_if_false e : throw_if false e = Ok ().
Proof. reflexivity. Qed.

Lemma authenticated_Some (userId : string) :
  userId ≠ "" → authenticated (Some userId) = Ok userId.
Proof.
  intros Hne. unfold authenticated, truthy_str.
  destruct (String.eqb_spec userId ""); [done | reflexivity].
Qed.

Lemma Qlt_bool_true (x y : Q) : Qlt_bool x y = true ↔ (x < y)%Q.
Proof.
  unfold Qlt_bool. rewrite negb_true_iff, <- not_true_iff_false, Qle_bool_iff.
  split; [apply Qnot_le_lt | apply Qlt_not_le].
Qed.

Lemma Qlt_bool_false (x y : Q) : Qlt_bool x y = false ↔ (y <= x)%Q.
Proof.
  unfold Qlt_bool. rewrite negb_false_iff. apply Qle_bool_iff.
Qed.

Lemma Qle_bool_false (x y : Q) : Qle_bool x y = false ↔ (y < x)%Q.
Proof.
  rewrite <- not_true_iff_false, Qle_bool_iff.
  split; [apply Qnot_le_lt | apply Qlt_not_le].
Qed.

Lemma truthy_num_pos (a : Q) : (0 < a)%Q → truthy_num (Some a) = true.
Proof.
  intros Ha. unfold truthy_num. apply negb_true_iff, not_true_iff_false.
  rewrite Qeq_bool_iff. intros Heq. rewrite Heq in Ha.
  by apply Qlt_irrefl in Ha.
Qed.

(** The validators do not read [isCompleted], [currentAmount] apart from
    its sign, or the time stamps. *)
Lemma validate_set_isCompleted now b g :
  validate now (set_isCompleted b g) = validate now g.
Proof. reflexivity. Qed.

Lemma save_valid env g st :
  validate (now env) g = [] →
  save env g st
  = (Ok (set_updatedAt (now env) (pre_save g)),
     write (set_updatedAt (now env) (pre_save g)) st).
Proof. intros Hv. unfold save. by rewrite Hv. Qed.

Lemma save_result env g st saved st' :
  save env g st = (Ok saved, st') →
  saved = set_updatedAt (now env) (pre_save g) ∧ st' = write saved st.
Proof.
  unfold save. destruct (checked (validate (now env) g) g) as [g'|e] eqn:Hc;
    [|done].
  unfold checked in Hc. destruct (validate (now env) g); [|done].
  injection Hc as <-. by intros [= <- <-].
Qed.

Lemma pre_save_reached g :
  (g_targetAmount g <= g_currentAmount g)%Q → g_isCompleted (pre_save g) = true.
Proof.
  intros Hle. unfold pre_save. apply Qle_bool_iff in Hle. rewrite Hle.
  by destruct (g_isCompleted g) eqn:Hc.
Qed.

Lemma pre_save_keeps g :
  g_isCompleted g = true → pre_save g = g.
Proof. intros Hc. unfold pre_save. rewrite Hc. by rewrite andb_false_r. Qed.

Lemma pre_save_below g :
  (g_currentAmount g < g_targetAmount g)%Q → pre_save g = g.
Proof.
  intros Hlt. unfold pre_save. apply Qle_bool_false in Hlt. by rewrite Hlt.
Qed.

Lemma pre_save_amounts g :
  g_currentAmount (pre_save g) = g_currentAmount g
  ∧ g_targetAmount (pre_save g) = g_targetAmount g.
Proof. unfold pre_save. by destruct (_ && _). Qed.

(** None of the handlers that persist an existing goal writes
    [isCompleted] before the save. *)
Lemma progressed_goal_isCompleted st userId id body g g' :
  userId ≠ "" →
  findOne (by_id id userId) (savingsGoals st) = Some g →
  progressed_goal st (Some userId) id body = Ok g' →
  g_isCompleted g' = g_isCompleted g.
Proof.
  intros Hu Hf. unfold progressed_goal.
  rewrite (authenticated_Some _ Hu). intros Hp.
  apply bind_Ok_inv in Hp as (? & [= <-] & Hp).
  apply bind_Ok_inv in Hp as (? & _ & Hp).
  apply bind_Ok_inv in Hp as (? & _ & Hp).
  rewrite Hf in Hp. apply bind_Ok_inv in Hp as (? & [= <-] & Hp).
  destruct (String.eqb _ "add").
  - by injection Hp as <-.
  - apply bind_Ok_inv in Hp as (? & _ & Hp). by injection Hp as <-.
Qed.

Lemma updated_goal_isCompleted env st userId id body g g' :
  userId ≠ "" →
  findOne (by_id id userId) (savingsGoals st) = Some g →
  updated_goal env st (Some userId) id body = Ok g' →
  g_isCompleted g' = g_isCompleted g.
Proof.
  intros Hu Hf. unfold updated_goal.
  rewrite (authenticated_Some _ Hu). intros Hp.
  apply bind_Ok_inv in Hp as (? & [= <-] & Hp).
  rewrite Hf in Hp. apply bind_Ok_inv in Hp as (? & [= <-] & Hp).
  do 5 apply bind_Ok_inv in Hp as (? & _ & Hp).
  by injection Hp as <-.
Qed.

Lemma save_prepared_keeps env prepared st g' saved st' :
  prepared = Ok g' →
  g_isCompleted g' = true →
  save_prepared env prepared st = (Ok saved, st') →
  g_isCompleted saved = true.
Proof.
  intros -> Hc Hs. simpl in Hs. apply save_result in Hs as [-> _].
  by rewrite pre_save_keeps.
Qed.
End savings.



(** Claim C4.  A save of a valid goal succeeds, keeps the amounts as they
    are (an overshoot is not clamped) and stores [isCompleted = true]
    whenever [currentAmount >= targetAmount]; a goal that is completed stays
    completed through every save, whatever its amounts, so neither
    [updateSavingsGoalProgress], [updateSavingsGoal] nor [deleteSavingsGoal]
    brings a completed goal back to incomplete; for a goal below its target
    [markActive] does.  Adding 25 to a goal at 80 of 100 yields 105 and
    [isCompleted = true], through the handler and through [addProgress];
    taking 50 back from it leaves 55 of 100, still completed. *)
Theorem completion_is_one_way (env : Env) (st : Store.State)
    (userId id : string) (g : Store.SavingsGoal) :
  userId ≠ "" →
  Savings.validate (now env) g = [] →
  let saved := Savings.set_updatedAt (now env) (Savings.pre_save g) in
  Savings.save env g st = (Ok saved, Savings.write saved st)
  ∧ Store.g_currentAmount saved = Store.g_currentAmount g
  ∧ ((Store.g_targetAmount g <= Store.g_currentAmount g)%Q →
       Store.g_isCompleted saved = true)
  ∧ (Store.g_isCompleted g = true → Store.g_isCompleted saved = true)
  ∧ (Store.findOne (Store.by_id id userId) (Store.savingsGoals st) = Some g →
     Store.g_isCompleted g = true →
     ∀ saved' st',
       (∃ body, Savings.updateSavingsGoalProgress env st (Some userId) id body
                = (Ok saved', st'))
       ∨ (∃ body, Savings.updateSavingsGoal env st (Some userId) id body
                  = (Ok saved', st'))
       ∨ Savings.deleteSavingsGoal env st (Some userId) id = (Ok saved', st') →
       Store.g_isCompleted saved' = true)
  ∧ ((Store.g_currentAmount g < Store.g_targetAmount g)%Q →
       ∃ m, Savings.markActive env g st = (Ok m, Savings.write m st)
            ∧ Store.g_isCompleted m = false)
  ∧ Savings.updateSavingsGoalProgress Sample.env (Sample.goals [Sample.goal])
      (Some "u1") "g1" (Sample.add 25)
    = (Ok Sample.goal_105, Sample.goals [Sample.goal_105])
  ∧ Savings.addProgress Sample.env Sample.goal 25 (Sample.goals [Sample.goal])
    = (Ok Sample.goal_105, Sample.goals [Sample.goal_105])
  ∧ Savings.updateSavingsGoalProgress Sample.env (Sample.goals [Sample.goal_105])
      (Some "u1") "g1" (Sample.subtract 50)
    = (Ok Sample.goal_55, Sample.goals [Sample.goal_55]).
Proof.
  intros Hu Hvalid saved.
  split; [by apply save_valid|].
  split; [apply pre_save_amounts|].
  split; [intros Hle; by apply pre_save_reached|].
  split; [intros Hc; subst saved; by rewrite pre_save_keeps|].
  split.
  { intros Hf Hc saved' st' [[body Hs] | [[body Hs] | Hs]].
    - unfold Savings.updateSavingsGoalProgress in Hs.
      destruct (Savings.progressed_goal st (Some userId) id body) as [g'|e] eqn:Hp;
        [|done].
      eapply save_prepared_keeps; [reflexivity | | exact Hs].
      erewrite progressed_goal_isCompleted; eauto.
    - unfold Savings.updateSavingsGoal in Hs.
      destruct (Savings.updated_goal env st (Some userId) id body) as [g'|e] eqn:Hp;
        [|done].
      eapply save_prepared_keeps; [reflexivity | | exact Hs].
      erewrite updated_goal_isCompleted; eauto.
    - unfold Savings.deleteSavingsGoal in Hs.
      rewrite (authenticated_Some _ Hu) in Hs. simpl in Hs. rewrite Hf in Hs.
      eapply save_prepared_keeps; [reflexivity | | exact Hs]. done. }
  split.
  { intros Hlt. eexists. split.
    - unfold Savings.markActive. apply save_valid.
      by rewrite validate_set_isCompleted.
    - by rewrite pre_save_below. }
  repeat split; vm_compute; reflexivity.
Qed.

Lemma completion_is_one_way_witness :
  Savings.save Sample.env Sample.goal_105 (Sample.goals [Sample.goal])
  = (Ok Sample.goal_105, Sample.goals [Sample.goal_105])
  ∧ Store.g_isCompleted Sample.goal_105 = true.
Proof.
  assert (Hu : "u1" ≠ "") by done.
  assert (Hv : Savings.validate (now Sample.env) Sample.goal_105 = [])
    by (vm_compute; reflexivity).
  pose proof (completion_is_one_way Sample.env (Sample.goals [Sample.goal])
                "u1" "g1" Sample.goal_105 Hu Hv) as (Hsave & _).
  split; [exact Hsave | reflexivity].
Defined.

Section creation.
Import Store Savings.

Lemma write_stores g st : g ∈ savingsGoals (write g st).
Proof.
  unfold write. cbn [savingsGoals].
  destruct (existsb (has_id (g_id g)) (savingsGoals st)) eqn:Hex.
  - apply existsb_exists in Hex as (x & Hx & Hid).
    unfold replace. apply list_elem_of_fmap. exists x.
    unfold has_id in Hid. rewrite Hid. split; [done|].
    by apply list_elem_of_In.
  - apply elem_of_app. right. apply list_elem_of_here.
Qed.

Lemma trim_nonempty (s : string) :
  (2 ≤ String.length (JSString.trim s))%nat → s ≠ "".
Proof. intros Hlen ->. vm_compute in Hlen. lia. Qed.

Lemma eqb_nonempty (s : string) : s ≠ "" → String.eqb s "" = false.
Proof. intros Hne. by apply String.eqb_neq. Qed.

Lemma truthy_str_Some (s : string) : s ≠ "" → truthy_str (Some s) = true.
Proof. intros Hne. unfold truthy_str. by rewrite eqb_nonempty. Qed.
End creation.

(** Claim C10.  Creating a savings goal with a valid title, a target of at
    least 1, a deadline in the future and a [currentAmount] that already
    reaches the target succeeds, and the goal that is stored and returned
    has [isCompleted = true], although [createSavingsGoal] builds it with
    [isCompleted: false]: the hook fires on the creating save. *)
Theorem created_at_target_is_completed (env : Env) (st : Store.State)
    (userId title : string) (target current : Q) (deadline : JSDate.IsoDate)
    (description category priority : option string) :
  userId ≠ "" →
  (2 ≤ String.length (JSString.trim title) ≤ 100)%nat →
  (1 <= target)%Q →
  (target <= current)%Q →
  now env < JSDate.Date_parse (tz env) deadline →
  from_option (λ d, (String.length (JSString.trim d) ≤ 500)%nat) True description →
  from_option (λ c, includes Savings.categories c = true) True category →
  from_option (λ p, p = "" ∨ includes Savings.priorities p = true) True priority →
  ∃ saved,
    Savings.createSavingsGoal env st (Some userId)
      {| Savings.gb_title := Some title;
         Savings.gb_targetAmount := Some target;
         Savings.gb_currentAmount := Some current;
         Savings.gb_deadline := Some deadline;
         Savings.gb_description := description;
         Savings.gb_category := category;
         Savings.gb_priority := priority |}
    = (Ok saved, Savings.write saved st)
    ∧ saved ∈ Store.savingsGoals (Savings.write saved st)
    ∧ Store.g_isCompleted saved = true
    ∧ Store.g_currentAmount saved = current
    ∧ Store.g_targetAmount saved = target.
Proof.
  intros Hu Htitle Htarget Hcurrent Hdeadline Hdesc Hcat Hprio.
  assert (Htitle' : title ≠ "") by (apply trim_nonempty; lia).
  assert (Htrim : JSString.trim title ≠ "")
    by (intros Heq; rewrite Heq in Htitle; simpl in Htitle; lia).
  assert (Htpos : (0 < target)%Q) by lra.
  assert (Hcpos : (0 < current)%Q) by lra.
  unfold Savings.createSavingsGoal, Savings.goalData.
  rewrite (authenticated_Some _ Hu).
  cbn [Savings.gb_title Savings.gb_targetAmount Savings.gb_currentAmount
       Savings.gb_deadline Savings.gb_description Savings.gb_category
       Savings.gb_priority fmap option_fmap option_map default from_option
       mbind result_bind].
  unfold id. rewrite (truthy_str_Some _ Htitle').
  rewrite !(truthy_num_pos _ Htpos).
  assert (H1 : Qle_bool target 0 = false) by (apply Qle_bool_false; lra).
  assert (H2 : Qlt_bool current 0 = false) by (apply Qlt_bool_false; lra).
  assert (H3 : (JSDate.Date_parse (tz env) deadline <=? now env) = false)
    by (apply Z.leb_gt; lia).
  rewrite H1, H2, H3, !(truthy_num_pos _ Hcpos).
  replace (bool_decide (is_Some (Some (JSDate.Date_parse (tz env) deadline))))
    with true by (symmetry; apply bool_decide_eq_true; eauto).
  unfold Savings.num_or. rewrite (truthy_num_pos _ Hcpos).
  cbn [negb orb andb throw_if mret result_ret mbind result_bind
       Savings.save_prepared default from_option id].
  match goal with |- ∃ saved, Savings.save env ?g st = _ ∧ _ => set (doc := g) end.
  assert (Hvalid : Savings.validate (now env) doc = []).
  { assert (E1 : String.eqb (Store.g_userId doc) "" = false)
      by (by apply eqb_nonempty).
    assert (E2 : String.eqb (Store.g_title doc) "" = false)
      by (by apply eqb_nonempty).
    assert (E3 : (2 <=? String.length (Store.g_title doc))%nat = true)
      by (apply Nat.leb_le; subst doc; cbn [Store.g_title]; lia).
    assert (E4 : (String.length (Store.g_title doc) <=? 100)%nat = true)
      by (apply Nat.leb_le; subst doc; cbn [Store.g_title]; lia).
    assert (E5 : Qle_bool 1 (Store.g_targetAmount doc) = true)
      by (by apply Qle_bool_iff).
    assert (E6 : Qle_bool 0 (Store.g_currentAmount doc) = true)
      by (apply Qle_bool_iff; subst doc; cbn [Store.g_currentAmount]; lra).
    assert (E7 : (now env <? Store.g_deadline doc) = true)
      by (by apply Z.ltb_lt).
    assert (E8 : (String.length (default "" (Store.g_description doc)) <=? 500)%nat
                 = true)
      by (apply Nat.leb_le; subst doc; cbn [Store.g_description];
          destruct description; simpl in *; lia).
    assert (E9 : includes Savings.categories (Store.g_category doc) = true)
      by (subst doc; cbn [Store.g_category]; destruct category; simpl in *; done).
    assert (E10 : includes Savings.priorities (Store.g_priority doc) = true).
    { subst doc. cbn [Store.g_priority].
      destruct priority as [p|]; [|done]. simpl in Hprio |- *.
      destruct (String.eqb_spec p ""); [done|].
      destruct Hprio as [?|Hp]; [done|]. simpl. by rewrite Hp. }
    unfold Savings.validate.
    rewrite E1, E2, E3, E4, E5, E6, E7, E8, E9, E10. reflexivity. }
  exists (Savings.set_updatedAt (now env) (Savings.pre_save doc)).
  split; [by apply save_valid|].
  split; [apply write_stores|].
  split; [apply pre_save_reached; by subst doc|].
  split; [apply pre_save_amounts | apply pre_save_amounts].
Qed.

Lemma created_at_target_is_completed_witness :
  ∃ saved,
    Savings.createSavingsGoal Sample.env Sample.empty (Some "u1")
      {| Savings.gb_title := Some " Car ";
         Savings.gb_targetAmount := Some 100%Q;
         Savings.gb_currentAmount := Some 100%Q;
         Savings.gb_deadline := Some (JSDate.DateOnly 2025 1 1);
         Savings.gb_description := None;
         Savings.gb_category := None;
         Savings.gb_priority := None |}
    = (Ok saved, Savings.write saved Sample.empty)
    ∧ saved ∈ Store.savingsGoals (Savings.write saved Sample.empty)
    ∧ Store.g_isCompleted saved = true
    ∧ Store.g_currentAmount saved = 100%Q
    ∧ Store.g_targetAmount saved = 100%Q.
Proof.
  apply (created_at_target_is_completed Sample.env Sample.empty "u1" " Car "
           100 100 (JSDate.DateOnly 2025 1 1) None None None).
  - done.
  - vm_compute. lia.
  - by vm_compute.
  - by vm_compute.
  - by vm_compute.
  - exact I.
  - exact I.
  - exact I.
Defined.

(** ** Income and expense entries: the referenced project *)

Section entries.
Import Store Entries.

Lemma Project_fields (p : Project) :
  field p "_id" = Some (VStr (p_id p))
  ∧ field p "userId" = Some (VStr (p_userId p))
  ∧ field p "isActive" = Some (VBool (p_isActive p)).
Proof. destruct p as [? ? ? ? ? ? ? ? [d|] ? ? ?]; vm_compute; done. Qed.

Lemma Entry_fields (e : Entry) :
  field e "_id" = Some (VStr (e_id e))
  ∧ field e "userId" = Some (VStr (e_userId e))
  ∧ field e "isActive" = Some (VBool (e_isActive e))
  ∧ field e "projectId" = Some (VStr (e_projectId e))
  ∧ field e "category" = Some (VStr (e_category e))
  ∧ field e "date" = Some (VDate (e_date e)).
Proof. destruct e as [? ? ? ? ? ? ? [u|] ? ? ?]; vm_compute; done. Qed.

Lemma by_id_lookup (id userId : string) :
  by_id id userId !! "_id" = Some (CEq (VStr id)).
Proof. unfold by_id. by rewrite lookup_insert_eq. Qed.

Lemma scoped_by_id (id userId : string) : scoped userId ⊆ by_id id userId.
Proof. unfold by_id. by apply scoped_insert. Qed.

(** What [{ _id, userId, isActive: true }] asks of a project. *)
Lemma matches_by_id_project (id userId : string) (p : Project) :
  matches (by_id id userId) p ↔
  p_id p = id ∧ p_userId p = userId ∧ p_isActive p = true.
Proof.
  destruct (Project_fields p) as (Hid & Hu & Ha). split.
  - intros Hm.
    pose proof (matches_subseteq _ _ p (scoped_by_id id userId) Hm) as Hs.
    apply matches_scoped in Hs as [Hu' Ha'].
    unfold matches in Hm. rewrite map_Forall_lookup in Hm.
    pose proof (Hm _ _ (by_id_lookup id userId)) as Hid'.
    rewrite Hid in Hid'. simpl in Hid'. apply String.eqb_eq in Hid'.
    rewrite Hu in Hu'. rewrite Ha in Ha'. by simplify_eq.
  - intros (<- & <- & Hact). unfold matches, by_id.
    apply map_Forall_insert_2.
    + rewrite Hid. simpl. apply String.eqb_refl.
    + apply (matches_scoped (p_userId p) p). by rewrite Hu, Ha, Hact.
Qed.

Lemma findOne_None `{Document D} (q : gmap string Cond) (docs : list D) :
  (∀ d, d ∈ docs → ¬ matches q d) → findOne q docs = None.
Proof.
  intros Hnone. unfold findOne, find.
  destruct (filter (matches q) docs) as [|d rest] eqn:Hf; [done|].
  assert (Hd : d ∈ filter (matches q) docs) by (rewrite Hf; left).
  apply list_elem_of_filter in Hd as [Hm Hd]. by destruct (Hnone d Hd).
Qed.

(** A project identifier that names no active project of the caller, be
    it unknown, soft-deleted or owned by somebody else, is not found. *)
Lemma project_not_visible (st : State) (userId projectId : string) :
  (∀ p, p ∈ projects st → p_id p = projectId →
        p_userId p ≠ userId ∨ p_isActive p = false) →
  findOne (by_id projectId userId) (projects st) = None.
Proof.
  intros Hnone. apply findOne_None. intros p Hp Hm.
  apply matches_by_id_project in Hm as (Hid & Hu & Ha).
  destruct (Hnone p Hp Hid) as [?|Hf]; [done | congruence].
Qed.
End entries.



(** ** The [$group] stage *)

Section group_facts.
Import Aggregate.
Context {D K : Type} `{EqDecision K}.
Variable key : D → K.
Variable amount : D → Q.

Lemma sum_snoc (l : list Q) (a : Q) : sum (l ++ [a]) = (sum l + a)%Q.
Proof. unfold sum. by rewrite foldl_app. Qed.

Lemma group_snoc (docs : list D) (d : D) :
  group key amount (docs ++ [d])
  = accumulate (key d) (amount d) (group key amount docs).
Proof. unfold group. by rewrite foldl_app. Qed.

Lemma accumulate_ids (k : K) (a : Q) (acc : list (Group K)) :
  _id <$> accumulate k a acc
  = if decide (k ∈ _id <$> acc) then _id <$> acc else (_id <$> acc) ++ [k].
Proof.
  induction acc as [|g rest IH]; cbn [accumulate].
  - rewrite decide_False by apply not_elem_of_nil. done.
  - rewrite !fmap_cons.
    destruct (decide (_id g = k)) as [<- | Hne]; rewrite fmap_cons.
    + rewrite decide_True by left. done.
    + rewrite IH. destruct (decide (k ∈ _id <$> rest)) as [Hin | Hnin].
      * rewrite decide_True by (by right). done.
      * rewrite decide_False; [done|].
        intros [Heq | Hin]%elem_of_cons; congruence.
Qed.

Lemma accumulate_NoDup (k : K) (a : Q) (acc : list (Group K)) :
  NoDup (_id <$> acc) → NoDup (_id <$> accumulate k a acc).
Proof.
  intros Hnd. rewrite accumulate_ids. case_decide as Hin; [done|].
  apply NoDup_app. split; [done|]. split.
  - intros x Hx ->%list_elem_of_singleton. done.
  - apply NoDup_singleton.
Qed.

(** Where a group of the output of [accumulate] comes from. *)
Lemma accumulate_elem (k : K) (a : Q) (acc : list (Group K)) (g : Group K) :
  NoDup (_id <$> acc) →
  g ∈ accumulate k a acc →
  (_id g ≠ k ∧ g ∈ acc)
  ∨ (_id g = k
     ∧ (∃ g0, g0 ∈ acc ∧ _id g0 = k
          ∧ total g = (total g0 + a)%Q ∧ count g = count g0 + 1))
  ∨ (_id g = k ∧ (k ∉ _id <$> acc) ∧ total g = a ∧ count g = 1).
Proof.
  induction acc as [|g1 rest IH]; simpl; intros Hnd Hg.
  - apply list_elem_of_singleton in Hg as ->. right. right.
    repeat split; try done. apply not_elem_of_nil.
  - apply NoDup_cons in Hnd as [Hg1 Hnd].
    destruct (decide (_id g1 = k)) as [Heq | Hne].
    + apply elem_of_cons in Hg as [-> | Hg].
      * right. left. split; [done|]. exists g1.
        repeat split; try done. left.
      * left. split; [|by right].
        intros Hk. apply Hg1. rewrite Heq, <- Hk.
        by apply list_elem_of_fmap_2.
    + apply elem_of_cons in Hg as [-> | Hg]; [left; split; [done | left]|].
      destruct (IH Hnd Hg) as [[? ?] | [(? & g0 & ? & ? & ? & ?) | (? & ? & ? & ?)]].
      * left. split; [done | by right].
      * right. left. split; [done|]. exists g0. repeat split; try done.
        by right.
      * right. right. repeat split; try done.
        intros [? | ?]%elem_of_cons; [congruence | done].
Qed.

Lemma group_NoDup (docs : list D) : NoDup (_id <$> group key amount docs).
Proof.
  induction docs as [|d docs IH] using rev_ind.
  - apply NoDup_nil_2.
  - rewrite group_snoc. by apply accumulate_NoDup.
Qed.

(** One group per key that occurs, none for a key that does not. *)
Lemma group_ids (docs : list D) (k : K) :
  k ∈ _id <$> group key amount docs ↔ ∃ d, d ∈ docs ∧ key d = k.
Proof.
  induction docs as [|d docs IH] using rev_ind.
  - split; [by intros ?%elem_of_nil | by intros (? & ?%elem_of_nil & _)].
  - rewrite group_snoc, accumulate_ids.
    assert (Hsnoc : (∃ d0, d0 ∈ docs ++ [d] ∧ key d0 = k)
                    ↔ (∃ d0, d0 ∈ docs ∧ key d0 = k) ∨ key d = k).
    { split.
      - intros (d0 & [Hd0 | ->%list_elem_of_singleton]%elem_of_app & Hk);
          [left; eauto | by right].
      - intros [(d0 & Hd0 & Hk) | Hk].
        + exists d0. split; [apply elem_of_app; by left | done].
        + exists d. split; [apply elem_of_app; right; left | done]. }
    rewrite Hsnoc, <- IH. case_decide as Hin.
    + split; [by left|]. intros [? | <-]; done.
    + rewrite elem_of_app, list_elem_of_singleton.
      split; (intros [? | ?]; [by left | by right]).
Qed.

Lemma members_snoc (k : K) (docs : list D) (d : D) :
  members key k (docs ++ [d])
  = members key k docs ++ (if decide (key d = k) then [d] else []).
Proof.
  unfold members. by rewrite filter_app.
Qed.

Lemma members_nil (k : K) (docs : list D) :
  k ∉ _id <$> group key amount docs → members key k docs = [].
Proof.
  intros Hk. unfold members.
  destruct (filter (λ d, key d = k) docs) as [|d rest] eqn:Hf; [done|].
  assert (Hd : d ∈ filter (λ d, key d = k) docs) by (rewrite Hf; left).
  apply list_elem_of_filter in Hd as [Hkey Hd].
  destruct Hk. apply group_ids. eauto.
Qed.

(** Each group carries the sum and the number of its members. *)
Lemma group_totals (docs : list D) (g : Group K) :
  g ∈ group key amount docs →
  (total g == sum (amount <$> members key (_id g) docs))%Q
  ∧ count g = Z.of_nat (length (members key (_id g) docs)).
Proof.
  revert g. induction docs as [|d docs IH] using rev_ind; intros g Hg.
  - by apply elem_of_nil in Hg.
  - rewrite group_snoc in Hg. rewrite members_snoc.
    apply accumulate_elem in Hg; [|apply group_NoDup].
    destruct Hg as [[Hne Hg] | [(Heq & g0 & Hg0 & Hid0 & Ht & Hc)
                                | (Heq & Hnew & Ht & Hc)]].
    + rewrite decide_False by done. rewrite app_nil_r. by apply IH.
    + rewrite decide_True by done.
      destruct (IH g0 Hg0) as [IHt IHc]. rewrite Hid0, <- Heq in IHt, IHc.
      rewrite fmap_app. change (amount <$> [d]) with [amount d].
      rewrite sum_snoc, length_app. simpl. split.
      * rewrite Ht, IHt. reflexivity.
      * rewrite Hc, IHc. lia.
    + rewrite decide_True by done. rewrite Heq.
      rewrite (members_nil _ _ Hnew). simpl. split.
      * rewrite Ht. unfold sum. simpl. by rewrite Qplus_0_l.
      * by rewrite Hc.
Qed.
End group_facts.

(** ** The [$sort] stage *)

Section sort_facts.
Import Aggregate.

#[global] Instance month_le_trans : Transitive month_le.
Proof. unfold month_le. intros x y z. lia. Qed.

#[global] Instance month_le_total : Total month_le.
Proof. unfold month_le. intros x y. lia. Qed.

#[global] Instance total_ge_trans {K} : Transitive (@total_ge K).
Proof.
  unfold total_ge. intros x y z. rewrite !Qle_bool_iff.
  intros Hxy Hyz. by eapply Qle_trans.
Qed.

#[global] Instance total_ge_total {K} : Total (@total_ge K).
Proof.
  unfold total_ge. intros x y. rewrite !Qle_bool_iff.
  destruct (Qlt_le_dec (total x) (total y)) as [Hlt | Hle];
    [right; by apply Qlt_le_weak | by left].
Qed.

(** A sorted list without two equal keys is strictly sorted. *)
Lemma StronglySorted_strict {A B} (R S : relation A) (f : A → B)
    (l : list A) :
  (∀ x y, R x y → f x ≠ f y → S x y) →
  StronglySorted R l → NoDup (f <$> l) → StronglySorted S l.
Proof.
  intros HRS. induction 1 as [|x l Hl IH Hx]; intros Hnd.
  - constructor.
  - rewrite fmap_cons in Hnd. apply NoDup_cons in Hnd as [Hnx Hnd].
    constructor; [by apply IH|].
    rewrite Forall_forall in Hx |- *. intros y Hy.
    apply HRS; [by apply Hx|].
    intros Heq. apply Hnx. rewrite Heq. by apply list_elem_of_fmap_2.
Qed.

Lemma month_le_lt (x y : Group (Z * Z)) :
  month_le x y → _id x ≠ _id y → month_lt x y.
Proof.
  unfold month_le, month_lt. destruct (_id x) as [y1 m1], (_id y) as [y2 m2].
  simpl. intros Hle Hne.
  assert (¬ (y1 = y2 ∧ m1 = m2)) by (intros [-> ->]; done). lia.
Qed.
End sort_facts.

(** ** The civil calendar and the month label *)

Section calendar_facts.
Import JSDate JSString.

(** A boolean property checked on every integer below [n] holds on all of
    them. *)
Lemma checked_below (P : Z → bool) (n : positive) :
  (Pos.iter (λ zb : Z * bool, (zb.1 + 1, zb.2 && P zb.1)) (0, true) n).2 = true →
  ∀ x, 0 ≤ x < Z.pos n → P x = true.
Proof.
  set (step := λ zb : Z * bool, (zb.1 + 1, zb.2 && P zb.1)).
  assert (Hinv : (Pos.iter step (0, true) n).1 = Z.pos n
                 ∧ ((Pos.iter step (0, true) n).2 = true →
                    ∀ x, 0 ≤ x < Z.pos n → P x = true)).
  { induction n as [|n [IH1 IH2]] using Pos.peano_ind.
    - simpl. split; [done|]. intros HP x Hx.
      assert (x = 0) as -> by lia. done.
    - rewrite Pos.iter_succ. unfold step at 1. simpl. split; [lia|].
      intros [Hb HP]%andb_true_iff x Hx. rewrite IH1 in HP.
      destruct (decide (x = Z.pos n)) as [-> | Hne]; [done|].
      apply IH2; [done | lia]. }
  apply Hinv.
Qed.

Lemma month_of_range (t : Z) : 1 ≤ month_of t ≤ 12.
Proof.
  unfold month_of, civil_from_days. cbn [fst snd].
  set (z := t / msPerDay + 719468).
  set (doe := z - z / 146097 * 146097).
  assert (Hdoe : 0 ≤ doe < 146097).
  { subst doe. pose proof (Z.mod_pos_bound z 146097 ltac:(lia)).
    pose proof (Z.div_mod z 146097 ltac:(lia)). lia. }
  generalize dependent doe. intros doe Hdoe.
  set (P := λ doe : Z,
         let yoe := (doe - doe / 1460 + doe / 36524 - doe / 146096) / 365 in
         let doy := doe - (365 * yoe + yoe / 4 - yoe / 100) in
         let mp := (5 * doy + 2) / 153 in
         (0 <=? mp) && (mp <=? 11)).
  assert (HP : P doe = true).
  { apply (checked_below P 146097); [vm_compute; reflexivity | lia]. }
  unfold P in HP. apply andb_true_iff in HP as [H0 H11].
  apply Z.leb_le in H0, H11.
  destruct (_ <? 10) eqn:Hlt; [apply Z.ltb_lt in Hlt | apply Z.ltb_ge in Hlt];
    lia.
Qed.

Lemma month_two_digits (m : Z) :
  1 ≤ m ≤ 12 → String.length (padStart 2 "0" (toString m)) = 2%nat.
Proof.
  intros Hm.
  assert (m = 1 ∨ m = 2 ∨ m = 3 ∨ m = 4 ∨ m = 5 ∨ m = 6 ∨ m = 7 ∨ m = 8
          ∨ m = 9 ∨ m = 10 ∨ m = 11 ∨ m = 12) as Hcases by lia.
  repeat (destruct Hcases as [-> | Hcases]; [reflexivity|]).
  by subst m.
Qed.
End calendar_facts.

(** ** Monthly trend and by-project breakdown *)

Section breakdown_facts.
Import Store Entries Aggregate.

Lemma monthlyStats_perm (docs : list Entry) :
  monthlyStats docs ≡ₚ group month_key e_amount docs.
Proof. apply merge_sort_Permutation. Qed.

Lemma projectStats_perm (docs : list Entry) :
  projectStats docs ≡ₚ group e_projectId e_amount docs.
Proof. apply merge_sort_Permutation. Qed.

Lemma monthlyStats_sorted (docs : list Entry) :
  StronglySorted month_lt (monthlyStats docs).
Proof.
  apply (StronglySorted_strict month_le month_lt _id).
  - apply month_le_lt.
  - apply StronglySorted_merge_sort; apply _.
  - rewrite monthlyStats_perm. apply group_NoDup.
Qed.

Lemma projectStats_sorted (docs : list Entry) :
  StronglySorted total_ge (projectStats docs).
Proof. apply StronglySorted_merge_sort; apply _. Qed.

Lemma getStats_Ok k env st userId q :
  userId ≠ "" →
  ∃ s, getStats k env st (Some userId) q = Ok s
       ∧ monthlyTrend s
         = monthlyTrendOf (find (match_query (tz env) userId q) (collection k st)).
Proof.
  intros Hu. unfold getStats. rewrite (authenticated_Some _ Hu).
  eexists. split; reflexivity.
Qed.
End breakdown_facts.

(** Claim C6.  The monthly trend of a scoped record set has one bucket for
    each (year, month) in which the set has a record and none for any other
    month; a bucket carries the sum of the amounts and the number of the
    records of its month; its label is the year, a dash and the month padded
    with a zero to two digits; the buckets are in strictly ascending
    (year, month) order.  The statistics handlers return this trend of the
    records their [$match] selects.  Entries of 100, 50 and 200 dated
    2024-01-15, 2024-01-20 and 2024-02-03 give
    [("2024-01", 150, 2); ("2024-02", 200, 1)]. *)
Theorem monthly_trend_buckets (docs : list Store.Entry) :
  let stats := Entries.monthlyStats docs in
  Entries.monthlyTrendOf docs = Entries.trend_point <$> stats
  ∧ NoDup (Aggregate._id <$> stats)
  ∧ (∀ ym, ym ∈ Aggregate._id <$> stats
           ↔ ∃ e, e ∈ docs ∧ Entries.month_key e = ym)
  ∧ (∀ b, b ∈ stats →
       let bucket := Aggregate.members Entries.month_key (Aggregate._id b) docs in
       let point := Entries.trend_point b in
       (Entries.amount point == Aggregate.sum (Store.e_amount <$> bucket))%Q
       ∧ Entries.count point = Z.of_nat (length bucket)
       ∧ 1 ≤ Entries.count point
       ∧ Entries.month point
         = JSString.toString (Aggregate._id b).1 +:+ "-"
             +:+ JSString.padStart 2 "0" (JSString.toString (Aggregate._id b).2)
       ∧ 1 ≤ (Aggregate._id b).2 ≤ 12
       ∧ String.length
           (JSString.padStart 2 "0" (JSString.toString (Aggregate._id b).2))
         = 2%nat)
  ∧ StronglySorted Aggregate.month_lt stats
  ∧ (∀ k env st userId q,
       userId ≠ "" →
       ∃ s, Entries.getStats k env st (Some userId) q = Ok s
            ∧ Entries.monthlyTrend s
              = Entries.monthlyTrendOf
                  (Store.find (Entries.match_query (tz env) userId q)
                     (Entries.collection k st)))
  ∧ Entries.monthlyTrendOf Sample.january_february
    = [ {| Entries.month := "2024-01"; Entries.amount := 150; Entries.count := 2 |};
        {| Entries.month := "2024-02"; Entries.amount := 200; Entries.count := 1 |} ].
Proof.
  intros stats.
  split; [done|].
  split; [subst stats; rewrite monthlyStats_perm; apply group_NoDup|].
  split; [intros ym; subst stats; rewrite monthlyStats_perm; apply group_ids|].
  split.
  { intros b Hb bucket point.
    assert (Hg : b ∈ Aggregate.group Entries.month_key Store.e_amount docs)
      by (by rewrite <- monthlyStats_perm).
    destruct (group_totals _ _ _ _ Hg) as [Ht Hc].
    assert (Hkey : ∃ e, e ∈ docs ∧ Entries.month_key e = Aggregate._id b).
    { apply group_ids with (amount := Store.e_amount).
      by apply list_elem_of_fmap_2. }
    destruct Hkey as (e & He & Hkey).
    assert (Hmonth : 1 ≤ (Aggregate._id b).2 ≤ 12)
      by (rewrite <- Hkey; apply month_of_range).
    split; [exact Ht|]. split; [exact Hc|]. split.
    { change (Entries.count point) with (Aggregate.count b). rewrite Hc.
      assert (Hin : e ∈ Aggregate.members Entries.month_key (Aggregate._id b) docs)
        by (apply list_elem_of_filter; split; [exact Hkey | exact He]).
      destruct (Aggregate.members Entries.month_key (Aggregate._id b) docs);
        [by apply elem_of_nil in Hin | simpl; lia]. }
    split; [reflexivity|]. split; [exact Hmonth|].
    by apply month_two_digits. }
  split; [apply monthlyStats_sorted|].
  split; [intros; by apply getStats_Ok|].
  vm_compute. reflexivity.
Qed.

Lemma monthly_trend_buckets_witness :
  ∃ s, getIncomeStats Sample.env Sample.empty (Some "u1") no_query = Ok s
       ∧ Entries.monthlyTrend s = [].
Proof.
  assert (Hu : "u1" ≠ "") by done.
  destruct (monthly_trend_buckets []) as (_ & _ & _ & _ & _ & Hstats & _).
  destruct (Hstats Entries.Income Sample.env Sample.empty "u1" no_query Hu)
    as (s & Hs & Htrend).
  exists s. split; [exact Hs | exact Htrend].
Defined.

(** Claim C7.  The by-project breakdown of an authenticated caller succeeds
    and has exactly one row for each [projectId] that occurs in the scoped
    entry set (a project without a matching entry has no row); a row carries
    the sum of the amounts and the number of the entries of its project; the
    rows are in descending order of total; a row whose project is missing,
    soft-deleted or owned by somebody else is named "Unknown Project" /
    "Unknown Client", and the other rows carry the name and the client of
    their project. *)
Theorem by_project_breakdown (k : Entries.EntryKind) (env : Env)
    (st : Store.State) (userId : string) (q : ListQuery) :
  userId ≠ "" →
  let docs :=
    Store.find (Entries.match_query (tz env) userId q) (Entries.collection k st) in
  ∃ rows,
    Entries.getByProject k env st (Some userId) q = Ok rows
    ∧ NoDup (Entries.projectId <$> rows)
    ∧ (∀ pid, pid ∈ Entries.projectId <$> rows
              ↔ ∃ e, e ∈ docs ∧ Store.e_projectId e = pid)
    ∧ (∀ r, r ∈ rows →
         let entries :=
           Aggregate.members Store.e_projectId (Entries.projectId r) docs in
         (Entries.rowTotal r == Aggregate.sum (Store.e_amount <$> entries))%Q
         ∧ Entries.entryCount r = Z.of_nat (length entries)
         ∧ ((∀ p, p ∈ Store.projects st → Store.p_id p = Entries.projectId r →
                  Store.p_userId p ≠ userId ∨ Store.p_isActive p = false) →
            Entries.projectName r = "Unknown Project"
            ∧ Entries.rowClientName r = "Unknown Client")
         ∧ (∀ p, Store.findOne (Store.by_id (Entries.projectId r) userId)
                   (Store.projects st) = Some p →
                 Store.p_name p ≠ "" → Store.p_clientName p ≠ "" →
                 Entries.projectName r = Store.p_name p
                 ∧ Entries.rowClientName r = Store.p_clientName p))
    ∧ StronglySorted (λ r1 r2, (Entries.rowTotal r2 <= Entries.rowTotal r1)%Q) rows.
Proof.
  intros Hu docs.
  exists (Entries.project_row st userId <$> Entries.projectStats docs).
  assert (Hids : Entries.projectId <$> (Entries.project_row st userId
                                          <$> Entries.projectStats docs)
                 = Aggregate._id <$> Entries.projectStats docs).
  { rewrite <- list_fmap_compose. by apply list_fmap_ext. }
  split.
  { unfold Entries.getByProject. by rewrite (authenticated_Some _ Hu). }
  rewrite Hids.
  split; [rewrite projectStats_perm; apply group_NoDup|].
  split; [intros pid; rewrite projectStats_perm; apply group_ids|].
  split.
  - intros r (stat & -> & Hstat)%list_elem_of_fmap entries.
    assert (Hg : stat ∈ Aggregate.group Store.e_projectId Store.e_amount docs)
      by (by rewrite <- projectStats_perm).
    destruct (group_totals _ _ _ _ Hg) as [Ht Hc].
    split; [exact Ht|]. split; [exact Hc|]. split.
    + intros Hnone. unfold Entries.project_row in *.
      cbn [Entries.projectName Entries.rowClientName Entries.projectId] in *.
      by rewrite (project_not_visible st userId _ Hnone).
    + intros p Hp Hname Hclient. unfold Entries.project_row in *.
      cbn [Entries.projectName Entries.rowClientName Entries.projectId] in *.
      rewrite Hp. unfold Entries.or_else. cbn [fmap option_fmap option_map].
      by rewrite (truthy_str_Some _ Hname), (truthy_str_Some _ Hclient).
  - apply (StronglySorted_fmap _ Aggregate.total_ge); [|apply projectStats_sorted].
    intros x y Hxy. by apply Qle_bool_iff.
Qed.

Lemma by_project_breakdown_witness :
  ∃ rows,
    getIncomeByProject Sample.env Sample.ledger (Some "u1") no_query = Ok rows
    ∧ NoDup (Entries.projectId <$> rows)
    ∧ StronglySorted
        (λ r1 r2, (Entries.rowTotal r2 <= Entries.rowTotal r1)%Q) rows.
Proof.
  assert (Hu : "u1" ≠ "") by done.
  destruct (by_project_breakdown Entries.Income Sample.env Sample.ledger "u1"
              no_query Hu) as (rows & Hrows & Hnodup & _ & _ & Hsorted).
  exists rows. split; [exact Hrows|]. split; [exact Hnodup | exact Hsorted].
Defined.

(** The breakdown of the sample ledger: the entry on the project of another
    user is reported under "Unknown Project". *)
Example by_project_breakdown_ledger :
  getIncomeByProject Sample.env Sample.ledger (Some "u1") no_query
  = Ok [ {| Entries.projectId := "p2"; Entries.projectName := "Unknown Project";
            Entries.rowClientName := "Unknown Client";
            Entries.rowTotal := 400; Entries.entryCount := 1 |};
         {| Entries.projectId := "p1"; Entries.projectName := "Shop";
            Entries.rowClientName := "Acme";
            Entries.rowTotal := 300; Entries.entryCount := 2 |} ].
Proof. vm_compute. reflexivity. Qed.

(** ** Date range *)

Section date_range.
Import JSDate Store.

Lemma getDateRange_start tz s e :
  startDate (getDateRange tz s e) = Date_parse tz <$> s.
Proof. reflexivity. Qed.

(** [setHours(23, 59, 59, 999)] moves a time value to the last millisecond
    of its calendar day in local time. *)
Lemma end_of_local_day (tz t : Z) :
  let e := setHours tz t 23 59 59 999 in
  LocalTime tz e / msPerDay = LocalTime tz t / msPerDay
  ∧ LocalTime tz e mod msPerDay = msPerDay - 1
  ∧ t ≤ e.
Proof.
  intros e. subst e.
  unfold setHours, LocalTime, UTC, MakeTime, msPerDay, msPerMinute.
  set (l := t + tz * 60000). set (d := l / 86400000).
  replace (d * 86400000 + (23 * 3600000 + 59 * 60000 + 59 * 1000 + 999)
           - tz * 60000 + tz * 60000)
    with (86400000 * d + 86399999) by lia.
  split; [symmetry; apply (Z.div_unique _ _ d 86399999); lia|].
  split; [symmetry; apply (Z.mod_unique _ _ d 86399999); lia|].
  pose proof (Z.div_mod l 86400000 ltac:(lia)).
  pose proof (Z.mod_pos_bound l 86400000 ltac:(lia)).
  subst d l. lia.
Qed.

(** East of UTC, and at UTC, the end of a date-only [endDate] is the last
    millisecond of the day it names, in local time. *)
Lemma end_date_east (tz y m d : Z) :
  0 ≤ tz < 1440 →
  endDate (getDateRange tz None (Some (DateOnly y m d)))
  = Some (Date_parse tz (DateTime y m d 23 59 59 999 None)).
Proof.
  intros Htz. unfold getDateRange, setHours, LocalTime, UTC, Date_parse,
    MakeTime, msPerDay, msPerMinute.
  cbn [endDate fmap option_fmap option_map default from_option Datatypes.id].
  f_equal. set (D := days_from_civil y m d).
  replace ((D * 86400000 + tz * 60000) / 86400000) with D; [lia|].
  apply (Z.div_unique _ _ D (tz * 60000)); lia.
Qed.

(** West of UTC it is the last millisecond of the day before: the window
    closes one millisecond before the named day begins in local time. *)
Lemma end_date_west (tz y m d : Z) :
  -1440 < tz < 0 →
  endDate (getDateRange tz None (Some (DateOnly y m d)))
  = Some (Date_parse tz (DateTime y m d 0 0 0 0 None) - 1).
Proof.
  intros Htz. unfold getDateRange, setHours, LocalTime, UTC, Date_parse,
    MakeTime, msPerDay, msPerMinute.
  cbn [endDate fmap option_fmap option_map default from_option Datatypes.id].
  f_equal. set (D := days_from_civil y m d).
  replace ((D * 86400000 + tz * 60000) / 86400000) with (D - 1); [lia|].
  apply (Z.div_unique _ _ (D - 1) (86400000 + tz * 60000)); lia.
Qed.

(** The date window of a descriptor admits exactly the entries dated from
    [startDate] to [endDate]. *)
Lemma date_window (dr : DateRange) (q : gmap string Cond) (e : Entry) :
  q !! "date" = None →
  matches (with_date dr q) e ↔
  matches q e
  ∧ from_option (λ s, s ≤ e_date e) True (startDate dr)
  ∧ from_option (λ b, e_date e ≤ b) True (endDate dr).
Proof.
  intros Hq. unfold with_date.
  assert (Hins : ∀ lo hi,
    matches (<["date" := CRange lo hi]> q) e ↔
    matches q e ∧ from_option (λ s, s ≤ e_date e) True lo
    ∧ from_option (λ b, e_date e ≤ b) True hi).
  { intros lo hi. unfold matches. rewrite map_Forall_insert by done.
    destruct (Entry_fields e) as (_ & _ & _ & _ & _ & ->). simpl.
    rewrite andb_true_iff.
    destruct lo, hi; simpl; rewrite ?Z.leb_le; tauto. }
  destruct (startDate dr), (endDate dr); rewrite ?Hins; simpl; tauto.
Qed.
End date_range.

(** Claim C5, evaluated.  [getDateRange] reads [endDate=2024-01-31] as
    midnight UTC and then moves it to 23:59:59.999 of the local calendar
    day of that instant.  In a process at UTC-05:00 that day is 30 January:
    the window ends at 2024-01-31T04:59:59.999Z and the income entry dated
    2024-01-31T23:00:00 is left out of the listing.  In a process at UTC the
    window ends at 2024-01-31T23:59:59.999Z, the entry is listed and the one
    dated 2024-02-01T00:00:01 is not. *)
Theorem end_of_day_depends_on_time_zone :
  JSDate.getDateRange (-300) None (Some (JSDate.DateOnly 2024 1 31))
  = {| JSDate.startDate := None; JSDate.endDate := Some 1706677199999 |}
  ∧ getIncomeEntries Sample.env_west (Sample.late_january (-300)) (Some "u1")
      Sample.until_january_31
    = Ok ([], {| Pagination.r_page := 1; Pagination.r_limit := 10;
                 Pagination.r_total := 0; Pagination.r_pages := 0;
                 Pagination.r_hasNext := false; Pagination.r_hasPrev := false |})
  ∧ JSDate.getDateRange 0 None (Some (JSDate.DateOnly 2024 1 31))
    = {| JSDate.startDate := None; JSDate.endDate := Some 1706745599999 |}
  ∧ getIncomeEntries Sample.env (Sample.late_january 0) (Some "u1")
      Sample.until_january_31
    = Ok ([ {| Entries.entry :=
                 Sample.entry_on 0 "e1" (JSDate.DateTime 2024 1 31 23 0 0 0 None);
               Entries.project :=
                 Some {| Entries.name := "Shop"; Entries.clientName := "Acme" |} |} ],
          {| Pagination.r_page := 1; Pagination.r_limit := 10;
             Pagination.r_total := 1; Pagination.r_pages := 1;
             Pagination.r_hasNext := false; Pagination.r_hasPrev := false |}).
Proof. repeat split; vm_compute; reflexivity. Qed.

(** ** Enumerated filters *)

Section enum_filters.
Import Store.

Lemma set_if_rejected (c : option string) (allowed : list string) k
    (q : gmap string Cond) :
  from_option (λ v, includes allowed v = false) True c →
  set_if (truthy_str c && includes allowed (default "" c)) k
    (VStr (default "" c)) q
  = q.
Proof.
  destruct c as [v|]; simpl; [|done].
  intros ->. by rewrite andb_false_r.
Qed.

Lemma entries_category_ignored k tz userId q (c : string) :
  includes (Entries.categories k) c = false →
  Entries.list_query k tz userId (set_category (Some c) q)
  = Entries.list_query k tz userId (set_category None q).
Proof.
  intros Hc. unfold Entries.list_query.
  cbn [set_category q_projectId q_category q_startDate q_endDate].
  by rewrite (set_if_rejected (Some c)), (set_if_rejected None).
Qed.

Lemma projects_status_ignored userId q (s : string) :
  includes Projects.statuses s = false →
  Projects.list_query userId (set_status (Some s) q)
  = Projects.list_query userId (set_status None q).
Proof.
  intros Hs. unfold Projects.list_query. cbn [set_status q_status].
  by rewrite (set_if_rejected (Some s)), (set_if_rejected None).
Qed.

Lemma savings_status_ignored userId q (s : string) :
  includes ["active"; "completed"] s = false →
  Savings.list_query userId (set_status (Some s) q)
  = Savings.list_query userId (set_status None q).
Proof.
  intros Hs. unfold Savings.list_query.
  cbn [set_status q_status q_category q_priority default from_option
       Datatypes.id].
  assert (String.eqb s "active" = false ∧ String.eqb s "completed" = false)
    as [-> ->].
  { simpl in Hs. rewrite orb_false_r in Hs.
    by apply orb_false_iff in Hs. }
  by destruct (truthy_str (Some s)).
Qed.

Lemma savings_priority_ignored userId q (p : string) :
  includes Savings.priorities p = false →
  Savings.list_query userId (set_priority (Some p) q)
  = Savings.list_query userId (set_priority None q).
Proof.
  intros Hp. unfold Savings.list_query.
  cbn [set_priority q_status q_category q_priority].
  by rewrite (set_if_rejected (Some p)), (set_if_rejected None).
Qed.
End enum_filters.

(** Claim C9, as the code has it.  For an authenticated caller, a category
    outside the enum of income or of expense entries, a project status
    outside the project enum, a savings status other than "active" and
    "completed" and a savings priority outside the priority enum are
    ignored by [getIncomeEntries], [getExpenseEntries], [getProjects] and
    [getSavingsGoals]: the request succeeds and its result is the result of
    the same request without that filter.  The listing addressed by status,
    [getProjectsByStatus], rejects a status outside the enum with the 400
    error "Invalid status value". *)
Theorem unrecognized_filter_is_ignored (env : Env) (st : Store.State)
    (userId : string) (q : ListQuery)
    (income_category expense_category project_status goal_status
       goal_priority : string) :
  userId ≠ "" →
  includes (Entries.categories Entries.Income) income_category = false →
  includes (Entries.categories Entries.Expense) expense_category = false →
  includes Projects.statuses project_status = false →
  includes ["active"; "completed"] goal_status = false →
  includes Savings.priorities goal_priority = false →
  (∃ r, getIncomeEntries env st (Some userId)
          (set_category (Some income_category) q) = Ok r
        ∧ getIncomeEntries env st (Some userId) (set_category None q) = Ok r)
  ∧ (∃ r, getExpenseEntries env st (Some userId)
            (set_category (Some expense_category) q) = Ok r
          ∧ getExpenseEntries env st (Some userId) (set_category None q) = Ok r)
  ∧ (∃ r, Projects.getProjects st (Some userId)
            (set_status (Some project_status) q) = Ok r
          ∧ Projects.getProjects st (Some userId) (set_status None q) = Ok r)
  ∧ (∃ r, Savings.getSavingsGoals st (Some userId)
            (set_status (Some goal_status) q) = Ok r
          ∧ Savings.getSavingsGoals st (Some userId) (set_status None q) = Ok r)
  ∧ (∃ r, Savings.getSavingsGoals st (Some userId)
            (set_priority (Some goal_priority) q) = Ok r
          ∧ Savings.getSavingsGoals st (Some userId) (set_priority None q) = Ok r)
  ∧ Projects.getProjectsByStatus st (Some userId) project_status q
    = Err (BadRequestError "Invalid status value").
Proof.
  intros Hu Hinc Hexp Hps Hgs Hgp.
  unfold getIncomeEntries, getExpenseEntries, Entries.getEntries,
    Projects.getProjects, Savings.getSavingsGoals, Projects.getProjectsByStatus.
  rewrite (authenticated_Some _ Hu).
  cbn [mbind result_bind mret result_ret].
  rewrite (entries_category_ignored Entries.Income _ _ _ _ Hinc),
    (entries_category_ignored Entries.Expense _ _ _ _ Hexp),
    (projects_status_ignored _ _ _ Hps),
    (savings_status_ignored _ _ _ Hgs),
    (savings_priority_ignored _ _ _ Hgp).
  repeat split; try (eexists; split; reflexivity).
  by rewrite Hps.
Qed.

Lemma unrecognized_filter_is_ignored_witness :
  Projects.getProjects Sample.ledger (Some "u1")
    (set_status (Some "archived") no_query)
  = Projects.getProjects Sample.ledger (Some "u1") (set_status None no_query).
Proof.
  destruct (unrecognized_filter_is_ignored Sample.env Sample.ledger "u1"
              no_query "salary" "travel" "archived" "paused" "urgent")
    as (_ & _ & (r & -> & ->) & _); done.
Defined.

(** Claim C9 as stated fails: a savings-goal category outside the enum is
    applied as a filter and empties the listing, and [getProjectsByStatus]
    rejects an unknown status. *)
Lemma unrecognized_filter_counterexample :
  includes Savings.categories "bogus" = false
  ∧ Savings.getSavingsGoals (Sample.goals [Sample.goal]) (Some "u1")
      (set_category (Some "bogus") no_query)
    ≠ Savings.getSavingsGoals (Sample.goals [Sample.goal]) (Some "u1")
        (set_category None no_query)
  ∧ includes Projects.statuses "bogus" = false
  ∧ Projects.getProjectsByStatus Sample.ledger (Some "u1") "bogus" no_query
    = Err (BadRequestError "Invalid status value").
Proof.
  split; [reflexivity|].
  split; [vm_compute; discriminate|].
  split; reflexivity.
Qed.


(** * Further properties of the code *)

(** ** Pagination options and page slices *)

(** X1.  Whatever the query holds, [getPaginationOptions] returns a page of
    at least 1 and a limit between 1 and 100.  A page of at least 1 and a
    limit between 1 and 100 are kept as they are; a larger limit becomes
    100, a negative one 1; an absent, unreadable or zero page or limit is
    replaced by the default (1 and 10): zero is not clamped to 1.  The sort
    order is ascending only for "asc", and the sort field is never empty. *)
Theorem pagination_options_normalised (q_page q_limit : option Z)
    (q_sortBy q_sortOrder : option string) :
  let o := Pagination.getPaginationOptions q_page q_limit q_sortBy q_sortOrder in
  1 ≤ Pagination.page o
  ∧ 1 ≤ Pagination.limit o ≤ 100
  ∧ (∀ p, q_page = Some p → 1 ≤ p → Pagination.page o = p)
  ∧ (∀ p, q_page = Some p → p ≤ 0 → Pagination.page o = 1)
  ∧ (q_page = None → Pagination.page o = 1)
  ∧ (∀ l, q_limit = Some l → 1 ≤ l ≤ 100 → Pagination.limit o = l)
  ∧ (∀ l, q_limit = Some l → 100 < l → Pagination.limit o = 100)
  ∧ (∀ l, q_limit = Some l → l < 0 → Pagination.limit o = 1)
  ∧ (q_limit = None ∨ q_limit = Some 0 → Pagination.limit o = 10)
  ∧ (Pagination.sortOrder o = Pagination.asc ↔ q_sortOrder = Some "asc")
  ∧ Pagination.sortBy o ≠ ""
  ∧ (q_sortBy = None ∨ q_sortBy = Some "" → Pagination.sortBy o = "createdAt").
Proof.
  intros o. subst o. unfold Pagination.getPaginationOptions.
  cbn [Pagination.page Pagination.limit Pagination.sortBy Pagination.sortOrder].
  split; [lia|]. split; [lia|].
  split; [intros p -> Hp; destruct p; simpl; lia|].
  split; [intros p -> Hp; destruct p; simpl; lia|].
  split; [by intros ->|].
  split; [intros l -> Hl; destruct l; simpl; lia|].
  split; [intros l -> Hl; destruct l; simpl; lia|].
  split; [intros l -> Hl; destruct l; simpl; lia|].
  split; [by intros [-> | ->]|].
  split.
  { destruct q_sortOrder as [s|]; [|done].
    destruct (String.eqb_spec s "asc") as [-> | Hne]; [done|].
    split; [done | by intros [= ->]]. }
  split.
  - destruct q_sortBy as [s|]; [|done]. unfold truthy_str.
    destruct (String.eqb_spec s ""); simpl; done.
  - by intros [-> | ->].
Qed.

Section slices.
Import Pagination.

Lemma hasNext_more (total page limit : Z) :
  0 < limit →
  r_hasNext (calculatePagination total page limit) = true ↔ page * limit < total.
Proof.
  intros Hl. pose proof (pages_is_ceiling total page limit Hl) as Hc.
  cbn zeta in Hc. unfold calculatePagination in *. cbn [r_hasNext r_pages] in *.
  rewrite Z.ltb_lt. nia.
Qed.
End slices.

(** X2.  The pages of a listing tile it.  For a positive page and limit,
    the slice that [skip(getSkipValue(page, limit)).limit(limit)] takes
    from a record set holds [min(limit, total - (page - 1) * limit)]
    records (none when that is negative); [hasNext] holds exactly when
    records remain after the page; every page up to [pages] is non-empty;
    and the record at index [i] is found on page [i / limit + 1], at
    position [i mod limit]. *)
Theorem pages_tile_the_listing {A : Type} (records : list A) (page limit : Z) :
  1 ≤ page → 1 ≤ limit →
  let total := Z.of_nat (length records) in
  let r := Pagination.calculatePagination total page limit in
  let slice :=
    Pagination.skip_limit (Pagination.getSkipValue page limit) limit records in
  Z.of_nat (length slice) = Z.max 0 (Z.min limit (total - (page - 1) * limit))
  ∧ (Pagination.r_hasNext r = true ↔ page * limit < total)
  ∧ (page ≤ Pagination.r_pages r → slice ≠ [])
  ∧ (∀ (i : nat) (x : A),
       records !! i = Some x →
       Z.of_nat i / limit + 1 = page →
       slice !! Z.to_nat (Z.of_nat i mod limit) = Some x).
Proof.
  intros Hpage Hlimit total r slice.
  assert (Hlen : Z.of_nat (length slice)
                 = Z.max 0 (Z.min limit (total - (page - 1) * limit))).
  { subst slice. unfold Pagination.skip_limit, Pagination.getSkipValue.
    rewrite length_take, length_drop. subst total.
    assert (Hskip : 0 ≤ (page - 1) * limit) by nia.
    set (skip := (page - 1) * limit) in *. lia. }
  split; [exact Hlen|].
  split; [apply hasNext_more; lia|].
  split.
  { intros Hp Hnil. rewrite Hnil in Hlen. simpl in Hlen.
    pose proof (pages_is_ceiling total page limit ltac:(lia)) as Hc.
    cbn zeta in Hc. fold r in Hc. nia. }
  intros i x Hi Hp. subst slice.
  unfold Pagination.skip_limit, Pagination.getSkipValue.
  pose proof (Z.div_mod (Z.of_nat i) limit ltac:(lia)) as Hdm.
  pose proof (Z.mod_pos_bound (Z.of_nat i) limit ltac:(lia)) as Hm.
  assert (Hq : 0 ≤ Z.of_nat i / limit) by (apply Z.div_pos; lia).
  replace ((page - 1) * limit) with (limit * (Z.of_nat i / limit)) by lia.
  assert (Hqq : 0 ≤ limit * (Z.of_nat i / limit)) by nia.
  set (qq := limit * (Z.of_nat i / limit)) in *.
  rewrite lookup_take, decide_True by lia.
  rewrite lookup_drop, <- Hi. f_equal. lia.
Qed.

Lemma pages_tile_the_listing_witness :
  Pagination.skip_limit (Pagination.getSkipValue 2 2) 2 ["a"; "b"; "c"] !! 0%nat
  = Some "c"
  ∧ (Pagination.r_hasNext (Pagination.calculatePagination 3 2 2) = true ↔ 2 * 2 < 3).
Proof.
  assert (H1 : 1 ≤ 2) by lia.
  destruct (pages_tile_the_listing ["a"; "b"; "c"] 2 2 H1 H1)
    as (_ & Hnext & _ & Hat).
  split; [|exact Hnext].
  exact (Hat 2%nat "c" eq_refl eq_refl).
Defined.


(** ** Reading, creating and deleting entries *)

Section entry_lookup.
Import Store Entries.

Lemma findOne_Some `{Document D} (q : gmap string Cond) (docs : list D) (d : D) :
  findOne q docs = Some d → d ∈ docs ∧ matches q d.
Proof.
  unfold findOne, find. intros Hh.
  assert (Hd : d ∈ filter (matches q) docs)
    by (destruct (filter (matches q) docs); simpl in Hh; simplify_eq; left).
  apply list_elem_of_filter in Hd. tauto.
Qed.

Lemma findOne_is_None `{Document D} (q : gmap string Cond) (docs : list D) :
  findOne q docs = None → ∀ d, d ∈ docs → ¬ matches q d.
Proof.
  unfold findOne, find. intros Hh d Hd Hm.
  assert (Hin : d ∈ filter (matches q) docs)
    by (apply list_elem_of_filter; done).
  destruct (filter (matches q) docs); [by apply elem_of_nil in Hin | done].
Qed.

(** What [{ _id, userId, isActive: true }] asks of a document whose three
    fields are known. *)
Lemma matches_by_id_fields `{Document D} (id userId : string) (d : D)
    (i u : string) (a : bool) :
  field d "_id" = Some (VStr i) →
  field d "userId" = Some (VStr u) →
  field d "isActive" = Some (VBool a) →
  matches (by_id id userId) d ↔ i = id ∧ u = userId ∧ a = true.
Proof.
  intros Hid Hu Ha. split.
  - intros Hm.
    pose proof (matches_subseteq _ _ d (scoped_by_id id userId) Hm) as Hs.
    apply matches_scoped in Hs as [Hu' Ha'].
    unfold matches in Hm. rewrite map_Forall_lookup in Hm.
    pose proof (Hm _ _ (by_id_lookup id userId)) as Hid'.
    rewrite Hid in Hid'. simpl in Hid'. apply String.eqb_eq in Hid'.
    rewrite Hu in Hu'. rewrite Ha in Ha'. by simplify_eq.
  - intros (-> & -> & ->). unfold matches, by_id.
    apply map_Forall_insert_2.
    + rewrite Hid. simpl. apply String.eqb_refl.
    + apply (matches_scoped userId d). by rewrite Hu, Ha.
Qed.

Lemma matches_by_id_entry (id userId : string) (e : Entry) :
  matches (by_id id userId) e ↔
  e_id e = id ∧ e_userId e = userId ∧ e_isActive e = true.
Proof.
  destruct (Entry_fields e) as (Hid & Hu & Ha & _).
  by apply matches_by_id_fields.
Qed.

Lemma collection_set k docs st : collection k (set_collection k docs st) = docs.
Proof. by destruct k. Qed.

Lemma projects_set k docs st :
  projects (set_collection k docs st) = projects st.
Proof. by destruct k. Qed.

Lemma replace_length {D} (id_of : D → string) (d : D) (docs : list D) :
  length (replace id_of d docs) = length docs.
Proof. unfold replace. apply length_fmap. Qed.

Lemma replace_elem {D} (id_of : D → string) (d x : D) (docs : list D) :
  x ∈ replace id_of d docs →
  x = d ∨ (x ∈ docs ∧ id_of x ≠ id_of d).
Proof.
  unfold replace. intros (y & -> & Hy)%list_elem_of_fmap.
  destruct (String.eqb_spec (id_of y) (id_of d)); [by left | by right].
Qed.

Lemma replace_other {D} (id_of : D → string) (d x : D) (docs : list D) :
  x ∈ docs → id_of x ≠ id_of d → x ∈ replace id_of d docs.
Proof.
  intros Hx Hne. unfold replace. apply list_elem_of_fmap. exists x.
  split; [|done]. by destruct (String.eqb_spec (id_of x) (id_of d)).
Qed.

Lemma replace_self {D} (id_of : D → string) (d x : D) (docs : list D) :
  x ∈ docs → id_of x = id_of d → d ∈ replace id_of d docs.
Proof.
  intros Hx Heq. unfold replace. apply list_elem_of_fmap. exists x.
  split; [|done]. by destruct (String.eqb_spec (id_of x) (id_of d)).
Qed.
End entry_lookup.

(** X3.  [getIncomeEntry] / [getExpenseEntry] never hands out an entry of
    somebody else or a deleted one.  For an authenticated caller the
    handler either returns a stored entry that carries the requested
    identifier, belongs to the caller and is active, together with the name
    and client of its project as the caller may see it, or it fails with the
    404 "... entry not found", and then no stored entry with that identifier
    is an active entry of the caller. *)
Theorem get_entry_is_owner_scoped (k : Entries.EntryKind) (st : Store.State)
    (userId id : string) :
  userId ≠ "" →
  match Entries.getEntry k st (Some userId) id with
  | Ok found =>
      Entries.entry found ∈ Entries.collection k st
      ∧ Store.e_id (Entries.entry found) = id
      ∧ Store.e_userId (Entries.entry found) = userId
      ∧ Store.e_isActive (Entries.entry found) = true
      ∧ Entries.project found
        = Entries.project_of st userId (Store.e_projectId (Entries.entry found))
  | Err e =>
      e = NotFoundError (Entries.not_found_message k)
      ∧ ∀ x, x ∈ Entries.collection k st → Store.e_id x = id →
             Store.e_userId x ≠ userId ∨ Store.e_isActive x = false
  end.
Proof.
  intros Hu. unfold Entries.getEntry. rewrite (authenticated_Some _ Hu).
  cbn [mbind result_bind].
  destruct (Store.findOne (Store.by_id id userId) (Entries.collection k st))
    as [e|] eqn:Hf; cbn [found mbind result_bind mret result_ret].
  - apply findOne_Some in Hf as [He Hm].
    apply matches_by_id_entry in Hm as (? & ? & ?). done.
  - split; [done|]. intros x Hx Hid.
    pose proof (findOne_is_None _ _ Hf x Hx) as Hnm.
    rewrite matches_by_id_entry in Hnm.
    destruct (decide (Store.e_userId x = userId)) as [Heq|]; [|by left].
    right. destruct (Store.e_isActive x); [|done]. by destruct Hnm.
Qed.

Lemma get_entry_is_owner_scoped_witness :
  getIncomeEntry Sample.ledger (Some "u2") "e1"
  = Err (NotFoundError "Income entry not found").
Proof.
  assert (Hu : "u2" ≠ "") by done.
  pose proof (get_entry_is_owner_scoped Entries.Income Sample.ledger "u2" "e1" Hu)
    as H.
  destruct (Entries.getEntry Entries.Income Sample.ledger (Some "u2") "e1")
    as [f|e] eqn:Hg.
  - destruct H as (_ & _ & Huser & _). exfalso.
    vm_compute in Hg. discriminate.
  - destruct H as [-> _]. reflexivity.
Defined.


Section entry_writes.
Import Store Entries.

Lemma find_nil `{Document D} (q : gmap string Cond) (docs : list D) :
  (∀ d, d ∈ docs → ¬ matches q d) → find q docs = [].
Proof.
  intros Hnone. unfold find. induction docs as [|d docs IH]; [done|].
  rewrite filter_cons_False by (apply Hnone; left).
  apply IH. intros x Hx. apply Hnone. by right.
Qed.

Lemma checked_valid {A} (errors : list string) (doc : A) :
  errors = [] → checked errors doc = Ok doc.
Proof. by intros ->. Qed.

Lemma checked_Ok {A} (errors : list string) (doc doc' : A) :
  checked errors doc = Ok doc' → errors = [] ∧ doc' = doc.
Proof. destruct errors; [by intros [= <-] | done]. Qed.

Lemma includes_default k (category : option string) :
  from_option (λ c, includes (categories k) c = true) True category →
  includes (categories k) (default (default_category k) category) = true.
Proof. destruct category; [done|]. by destruct k. Qed.
End entry_writes.

(** X4.  Creating an entry and reading it back.  A request of an
    authenticated caller with a project the caller may see, an amount of at
    least 0.01, a description of 2 to 200 characters once trimmed and a
    category of the enum (or none) appends one document to the collection
    and changes nothing else.  The document has the caller as owner, the
    trimmed description, the default category and the current time as date
    where the request gives none, and is active.  When the new identifier
    is fresh, reading it back returns that document with the name and
    client of its project. *)
Theorem created_entry_is_found (k : Entries.EntryKind) (env : Env)
    (st : Store.State) (userId projectId description : string) (amount : Q)
    (date : option JSDate.IsoDate) (category receiptUrl : option string)
    (p : Store.Project) :
  userId ≠ "" → projectId ≠ "" →
  Store.findOne (Store.by_id projectId userId) (Store.projects st) = Some p →
  (1 # 100 <= amount)%Q →
  (2 ≤ String.length (JSString.trim description) ≤ 200)%nat →
  from_option (λ c, includes (Entries.categories k) c = true) True category →
  (∀ x, x ∈ Entries.collection k st → Store.e_id x ≠ newId env) →
  let doc :=
    {| Store.e_id := newId env; Store.e_userId := userId;
       Store.e_projectId := projectId; Store.e_amount := amount;
       Store.e_description := JSString.trim description;
       Store.e_date :=
         default (now env) (JSDate.Date_parse (tz env) <$> date);
       Store.e_category := default (Entries.default_category k) category;
       Store.e_receiptUrl :=
         match k with
         | Entries.Income => None
         | Entries.Expense => JSString.trim <$> receiptUrl
         end;
       Store.e_isActive := true;
       Store.e_createdAt := now env; Store.e_updatedAt := now env |} in
  let st' := Entries.set_collection k (Entries.collection k st ++ [doc]) st in
  Entries.createEntry k env st (Some userId)
    {| Entries.b_projectId := Some projectId;
       Entries.b_amount := Some amount;
       Entries.b_description := Some description;
       Entries.b_date := date;
       Entries.b_category := category;
       Entries.b_receiptUrl := receiptUrl |}
  = (Ok doc, st')
  ∧ Entries.getEntry k st' (Some userId) (newId env)
    = Ok {| Entries.entry := doc;
            Entries.project :=
              Some {| Entries.name := Store.p_name p;
                      Entries.clientName := Store.p_clientName p |} |}.
Proof.
  intros Hu Hp Hfind Hamount Hdesc Hcat Hfresh doc st'.
  assert (Hd : description ≠ "") by (apply trim_nonempty; lia).
  assert (Htrim : JSString.trim description ≠ "")
    by (intros Heq; rewrite Heq in Hdesc; simpl in Hdesc; lia).
  assert (Hpos : (0 < amount)%Q) by lra.
  assert (Hle : Qle_bool amount 0 = false) by (by apply Qle_bool_false).
  assert (Hvalid : Entries.validate k doc = []).
  { assert (E1 : String.eqb (Store.e_userId doc) "" = false)
      by (by apply eqb_nonempty).
    assert (E2 : String.eqb (Store.e_projectId doc) "" = false)
      by (by apply eqb_nonempty).
    assert (E3 : Qle_bool (1 # 100) (Store.e_amount doc) = true)
      by (by apply Qle_bool_iff).
    assert (E4 : String.eqb (Store.e_description doc) "" = false)
      by (by apply eqb_nonempty).
    assert (E5 : (2 <=? String.length (Store.e_description doc))%nat = true)
      by (apply Nat.leb_le; subst doc; cbn [Store.e_description]; lia).
    assert (E6 : (String.length (Store.e_description doc) <=? 200)%nat = true)
      by (apply Nat.leb_le; subst doc; cbn [Store.e_description]; lia).
    assert (E7 : includes (Entries.categories k) (Store.e_category doc) = true)
      by (by apply includes_default).
    unfold Entries.validate. rewrite E1, E2, E3, E4, E5, E6, E7. reflexivity. }
  assert (Hcreate :
    Entries.create_doc k env st (Some userId)
      {| Entries.b_projectId := Some projectId;
         Entries.b_amount := Some amount;
         Entries.b_description := Some description;
         Entries.b_date := date;
         Entries.b_category := category;
         Entries.b_receiptUrl := receiptUrl |} = Ok doc).
  { unfold Entries.create_doc. rewrite (authenticated_Some _ Hu).
    cbn [Entries.b_projectId Entries.b_amount Entries.b_description
         Entries.b_date Entries.b_category Entries.b_receiptUrl
         mbind result_bind default from_option Datatypes.id].
    rewrite (truthy_str_Some _ Hp), (truthy_str_Some _ Hd),
      (truthy_num_pos _ Hpos), Hle, Hfind.
    cbn [negb orb throw_if found mbind result_bind].
    by apply checked_valid. }
  split.
  { unfold Entries.createEntry. by rewrite Hcreate. }
  unfold Entries.getEntry. rewrite (authenticated_Some _ Hu).
  cbn [mbind result_bind]. subst st'. rewrite collection_set.
  assert (Hone : Store.findOne (Store.by_id (newId env) userId)
                   (Entries.collection k st ++ [doc]) = Some doc).
  { unfold Store.findOne, Store.find. rewrite filter_app.
    fold (Store.find (Store.by_id (newId env) userId) (Entries.collection k st)).
    rewrite find_nil.
    - rewrite filter_cons_True; [done|]. by apply matches_by_id_entry.
    - intros x Hx [Hid _]%matches_by_id_entry. by apply (Hfresh x). }
  rewrite Hone. cbn [found mbind result_bind mret result_ret].
  unfold Entries.project_of. rewrite projects_set.
  cbn [Store.e_projectId doc]. by rewrite Hfind.
Qed.

Lemma created_entry_is_found_witness :
  ∃ doc st',
    createIncomeEntry Sample.env Sample.ledger (Some "u1")
      {| Entries.b_projectId := Some "p1";
         Entries.b_amount := Some 250%Q;
         Entries.b_description := Some "  Second milestone ";
         Entries.b_date := None;
         Entries.b_category := None;
         Entries.b_receiptUrl := None |}
    = (Ok doc, st')
    ∧ getIncomeEntry st' (Some "u1") "new"
      = Ok {| Entries.entry := doc;
              Entries.project :=
                Some {| Entries.name := "Shop"; Entries.clientName := "Acme" |} |}.
Proof.
  assert (Hu : "u1" ≠ "") by done.
  assert (Hp : "p1" ≠ "") by done.
  assert (Hfind : Store.findOne (Store.by_id "p1" "u1")
                    (Store.projects Sample.ledger)
                  = Some (Sample.project "p1" "u1" "Shop"))
    by (vm_compute; reflexivity).
  assert (Ha : (1 # 100 <= 250)%Q) by (by vm_compute).
  assert (Hd : (2 ≤ String.length (JSString.trim "  Second milestone ") ≤ 200)%nat)
    by (vm_compute; lia).
  assert (Hfresh : ∀ x, x ∈ Entries.collection Entries.Income Sample.ledger →
                        Store.e_id x ≠ newId Sample.env).
  { intros x Hx. apply list_elem_of_In in Hx. vm_compute in Hx.
    destruct Hx as [<- | [<- | [<- | []]]]; vm_compute; discriminate. }
  pose proof (created_entry_is_found Entries.Income Sample.env Sample.ledger
              "u1" "p1" "  Second milestone " 250 None None None _
              Hu Hp Hfind Ha Hd I Hfresh) as [Hcreate Hget].
  exact (ex_intro _ _ (ex_intro _ _ (conj Hcreate Hget))).
Defined.


Section entry_schema.
Import Store Entries.

Lemma first_failure_nil (validators : list (bool * string)) :
  first_failure validators = [] ↔ Forall (λ v, v.1 = true) validators.
Proof.
  induction validators as [|[ok message] rest IH]; simpl.
  - split; [constructor | done].
  - destruct ok.
    + rewrite IH. split; [by constructor | by inversion 1].
    + split; [done | by inversion 1].
Qed.

(** What the schema of an entry demands. *)
Lemma validate_nil (k : EntryKind) (e : Entry) :
  validate k e = [] ↔
  e_userId e ≠ "" ∧ e_projectId e ≠ ""
  ∧ (1 # 100 <= e_amount e)%Q
  ∧ (2 ≤ String.length (e_description e) ≤ 200)%nat
  ∧ includes (categories k) (e_category e) = true.
Proof.
  unfold validate. rewrite !app_nil, !first_failure_nil.
  rewrite !Forall_cons, !Forall_nil. cbn [fst].
  rewrite !negb_true_iff, Qle_bool_iff, !Nat.leb_le.
  rewrite <- !not_true_iff_false, !String.eqb_eq.
  split.
  - intros ((? & _) & (? & _) & (? & _) & (? & ? & ? & _) & (? & _)). done.
  - intros (? & ? & ? & [? ?] & ?).
    assert (e_description e ≠ "")
      by (intros Heq; rewrite Heq in *; simpl in *; lia).
    done.
Qed.

Lemma update_doc_Ok k env st user id body doc :
  update_doc k env st user id body = Ok doc → validate k doc = [].
Proof.
  unfold update_doc. intros Hd.
  repeat (apply bind_Ok_inv in Hd as (? & _ & Hd); cbv zeta in Hd).
  by apply checked_Ok in Hd as [Hv ->].
Qed.

Lemma create_doc_Ok k env st user body doc :
  create_doc k env st user body = Ok doc → validate k doc = [].
Proof.
  unfold create_doc. intros Hd.
  repeat (apply bind_Ok_inv in Hd as (? & _ & Hd); cbv zeta in Hd).
  by apply checked_Ok in Hd as [Hv ->].
Qed.

Lemma Forall_replace {D} (P : D → Prop) (id_of : D → string) (d : D)
    (docs : list D) :
  P d → Forall P docs → Forall P (replace id_of d docs).
Proof.
  intros Hd Hdocs. unfold replace. apply Forall_fmap.
  eapply Forall_impl; [exact Hdocs|]. intros x Hx. simpl.
  by destruct (String.eqb _ _).
Qed.
End entry_schema.

(** X5.  Deleting an entry is a soft delete.  For an authenticated caller
    and a stored, valid entry of the caller, [deleteIncomeEntry] /
    [deleteExpenseEntry] succeeds; afterwards reading the entry and deleting
    it again both fail with the 404 "... entry not found", and no listing
    or statistics query of the caller selects it; yet nothing is removed:
    the collection keeps its length, the document is still stored with its
    amount, marked inactive, and every other entry is untouched. *)
Theorem deleted_entry_disappears (k : Entries.EntryKind) (env : Env)
    (st : Store.State) (userId id : string) (e : Store.Entry) :
  userId ≠ "" →
  Store.findOne (Store.by_id id userId) (Entries.collection k st) = Some e →
  Entries.validate k e = [] →
  ∃ st',
    Entries.deleteEntry k env st (Some userId) id = (Ok (), st')
    ∧ Entries.getEntry k st' (Some userId) id
      = Err (NotFoundError (Entries.not_found_message k))
    ∧ Entries.deleteEntry k env st' (Some userId) id
      = (Err (NotFoundError (Entries.not_found_message k)), st')
    ∧ length (Entries.collection k st') = length (Entries.collection k st)
    ∧ (∃ d, d ∈ Entries.collection k st' ∧ Store.e_id d = id
            ∧ Store.e_userId d = userId ∧ Store.e_isActive d = false
            ∧ Store.e_amount d = Store.e_amount e)
    ∧ (∀ x, x ∈ Entries.collection k st → Store.e_id x ≠ id →
            x ∈ Entries.collection k st')
    ∧ (∀ tz q x,
         x ∈ Store.find (Entries.list_query k tz userId q)
               (Entries.collection k st')
         ∨ x ∈ Store.find (Entries.match_query tz userId q)
                 (Entries.collection k st') →
         Store.e_id x ≠ id).
Proof.
  intros Hu Hf Hvalid.
  destruct (findOne_Some _ _ _ Hf) as [He Hm].
  apply matches_by_id_entry in Hm as (Hid & Huser & Hact).
  set (dead :=
    {| Store.e_id := Store.e_id e; Store.e_userId := Store.e_userId e;
       Store.e_projectId := Store.e_projectId e;
       Store.e_amount := Store.e_amount e;
       Store.e_description := Store.e_description e;
       Store.e_date := Store.e_date e; Store.e_category := Store.e_category e;
       Store.e_receiptUrl := Store.e_receiptUrl e; Store.e_isActive := false;
       Store.e_createdAt := Store.e_createdAt e;
       Store.e_updatedAt := now env |}).
  set (docs' := replace Store.e_id dead (Entries.collection k st)).
  exists (Entries.set_collection k docs' st).
  assert (Hdead : ∀ x, x ∈ docs' → Store.e_id x = id → Store.e_isActive x = false).
  { intros x Hx Hxid. apply replace_elem in Hx as [-> | [_ Hne]]; [done|].
    destruct Hne. by rewrite Hxid. }
  assert (Hgone : Store.findOne (Store.by_id id userId) docs' = None).
  { apply findOne_None. intros x Hx (Hxid & _ & Hxact)%matches_by_id_entry.
    rewrite (Hdead x Hx Hxid) in Hxact. done. }
  split.
  { unfold Entries.deleteEntry. rewrite (authenticated_Some _ Hu).
    cbn [mbind result_bind]. rewrite Hf. cbn [found mbind result_bind].
    change (Entries.validate k _) with (Entries.validate k e).
    rewrite Hvalid. reflexivity. }
  split.
  { unfold Entries.getEntry. rewrite (authenticated_Some _ Hu).
    cbn [mbind result_bind]. rewrite collection_set, Hgone. reflexivity. }
  split.
  { unfold Entries.deleteEntry. rewrite (authenticated_Some _ Hu).
    cbn [mbind result_bind]. rewrite collection_set, Hgone. reflexivity. }
  rewrite collection_set.
  split; [apply replace_length|].
  split.
  { exists dead. split; [|by rewrite <- Huser].
    by apply (replace_self Store.e_id dead e). }
  split.
  { intros x Hx Hne. apply replace_other; [done|]. simpl. by rewrite Hid. }
  intros tz q x Hx Hxid.
  assert (Hs : x ∈ docs' ∧ Store.matches (Store.scoped userId) x).
  { destruct Hx as [Hx | Hx]; apply list_elem_of_filter in Hx as [Hq Hx];
      (split; [done|]); refine (matches_subseteq _ _ _ _ Hq).
    - apply (descriptors_scoped
               {| tz := tz; now := 0; newId := EmptyString |} userId
               (match k with
                | Entries.Income => GetIncomeEntries q
                | Entries.Expense => GetExpenseEntries q
                end)).
      destruct k; apply list_elem_of_here.
    - apply (descriptors_scoped
               {| tz := tz; now := 0; newId := EmptyString |} userId
               (GetIncomeStats q)).
      apply list_elem_of_here. }
  destruct Hs as [Hx' Hs]. apply matches_scoped in Hs as [_ Ha].
  destruct (Entry_fields x) as (_ & _ & Ha' & _). rewrite Ha' in Ha.
  rewrite (Hdead x Hx' Hxid) in Ha. done.
Qed.

Lemma deleted_entry_disappears_witness :
  ∃ st',
    deleteIncomeEntry Sample.env Sample.ledger (Some "u1") "e2" = (Ok (), st')
    ∧ getIncomeEntry st' (Some "u1") "e2"
      = Err (NotFoundError "Income entry not found")
    ∧ length (Store.incomeEntries st') = 3%nat.
Proof.
  assert (Hu : "u1" ≠ "") by done.
  assert (Hf : Store.findOne (Store.by_id "e2" "u1")
                 (Entries.collection Entries.Income Sample.ledger)
               = Some (Sample.entry "e2" "u1" "p2" 400
                         (JSDate.DateOnly 2024 1 20) "bonus"))
    by (vm_compute; reflexivity).
  assert (Hv : Entries.validate Entries.Income
                 (Sample.entry "e2" "u1" "p2" 400
                    (JSDate.DateOnly 2024 1 20) "bonus") = [])
    by (vm_compute; reflexivity).
  destruct (deleted_entry_disappears Entries.Income Sample.env Sample.ledger
              "u1" "e2" _ Hu Hf Hv) as (st' & Hdel & Hget & _ & Hlen & _).
  exists st'. split; [exact Hdel|]. split; [exact Hget | exact Hlen].
Defined.

(** X6.  The three write handlers keep the collection within the schema.
    If every stored entry has an amount of at least 0.01, a description of
    2 to 200 characters and a category of the enum, the same holds of the
    collection after [create], [update] and [delete], whatever the request
    and whether it succeeds or fails; and the collection never shrinks. *)
Theorem entry_writes_keep_the_schema (k : Entries.EntryKind) (env : Env)
    (st : Store.State) (user : option string) (id : string)
    (body : Entries.EntryBody) :
  Forall (λ e, Entries.validate k e = []) (Entries.collection k st) →
  ∀ st',
    st' = (Entries.createEntry k env st user body).2
    ∨ st' = (Entries.updateEntry k env st user id body).2
    ∨ st' = (Entries.deleteEntry k env st user id).2 →
    Forall (λ e, (1 # 100 <= Store.e_amount e)%Q
                 ∧ (2 ≤ String.length (Store.e_description e) ≤ 200)%nat
                 ∧ includes (Entries.categories k) (Store.e_category e) = true)
      (Entries.collection k st')
    ∧ (length (Entries.collection k st) ≤ length (Entries.collection k st'))%nat.
Proof.
  intros Hst st' Hst'.
  assert (Hkeep : Forall (λ e, Entries.validate k e = []) (Entries.collection k st')
                  ∧ (length (Entries.collection k st)
                     ≤ length (Entries.collection k st'))%nat).
  { destruct Hst' as [-> | [-> | ->]].
    - unfold Entries.createEntry.
      destruct (Entries.create_doc k env st user body) as [doc|err] eqn:Hd;
        cbn [snd]; [|done].
      rewrite collection_set, length_app. split; [|lia].
      apply Forall_app. split; [done|]. apply Forall_singleton.
      by eapply create_doc_Ok.
    - unfold Entries.updateEntry.
      destruct (Entries.update_doc k env st user id body) as [doc|err] eqn:Hd;
        cbn [snd]; [|done].
      rewrite collection_set, replace_length. split; [|lia].
      apply Forall_replace; [|done]. by eapply update_doc_Ok.
    - unfold Entries.deleteEntry.
      match goal with |- context [match ?r with Ok _ => _ | Err _ => _ end] =>
        destruct r as [doc|err] eqn:Hd end; cbn [snd]; [|done].
      rewrite collection_set, replace_length. split; [|lia].
      apply Forall_replace; [|done].
      repeat (apply bind_Ok_inv in Hd as (? & _ & Hd)).
      by apply checked_Ok in Hd as [? ->]. }
  destruct Hkeep as [Hvalid Hlen]. split; [|exact Hlen].
  eapply Forall_impl; [exact Hvalid|]. intros e He.
  apply validate_nil in He. tauto.
Qed.

Lemma entry_writes_keep_the_schema_witness :
  Forall (λ e, (1 # 100 <= Store.e_amount e)%Q
               ∧ (2 ≤ String.length (Store.e_description e) ≤ 200)%nat
               ∧ includes (Entries.categories Entries.Income) (Store.e_category e)
                 = true)
    (Entries.collection Entries.Income
       (deleteIncomeEntry Sample.env Sample.ledger (Some "u1") "e2").2).
Proof.
  assert (Hst : Forall (λ e, Entries.validate Entries.Income e = [])
                  (Entries.collection Entries.Income Sample.ledger)).
  { apply Forall_forall. intros x Hx. apply list_elem_of_In in Hx.
    vm_compute in Hx.
    destruct Hx as [<- | [<- | [<- | []]]]; vm_compute; reflexivity. }
  apply (entry_writes_keep_the_schema Entries.Income Sample.env Sample.ledger
           (Some "u1") "e2"
           {| Entries.b_projectId := None; Entries.b_amount := None;
              Entries.b_description := None; Entries.b_date := None;
              Entries.b_category := None; Entries.b_receiptUrl := None |}
           Hst).
  right. right. reflexivity.
Defined.


Section statistics.
Import Store Aggregate Entries.

Lemma foldl_Qplus (x : Q) (l : list Q) : (foldl Qplus x l == x + sum l)%Q.
Proof.
  revert x. induction l as [|a l IH]; intros x; unfold sum; simpl.
  - ring.
  - rewrite (IH (x + a)%Q), (IH (0 + a)%Q). ring.
Qed.

Lemma sum_cons (a : Q) (l : list Q) : (sum (a :: l) == a + sum l)%Q.
Proof. unfold sum at 1. simpl. rewrite foldl_Qplus. ring. Qed.

Lemma sum_Permutation (l1 l2 : list Q) : l1 ≡ₚ l2 → (sum l1 == sum l2)%Q.
Proof.
  induction 1 as [|a l1 l2 _ IH|a b l|l1 l2 l3 _ IH1 _ IH2].
  - reflexivity.
  - by rewrite !sum_cons, IH.
  - rewrite !sum_cons. ring.
  - by rewrite IH1.
Qed.

Context {D K : Type} `{EqDecision K}.
Variable key : D → K.
Variable amount : D → Q.

Lemma accumulate_total (k : K) (a : Q) (acc : list (Group K)) :
  (sum (total <$> accumulate k a acc) == sum (total <$> acc) + a)%Q.
Proof.
  induction acc as [|g rest IH]; cbn [accumulate].
  - rewrite fmap_cons. cbn [total]. rewrite sum_cons. ring.
  - destruct (decide (_id g = k)); rewrite !fmap_cons, !sum_cons.
    + cbn [total]. ring.
    + rewrite IH. ring.
Qed.

(** The totals of the groups add up to the total of the record set. *)
Lemma group_total (docs : list D) :
  (sum (total <$> group key amount docs) == sum (amount <$> docs))%Q.
Proof.
  induction docs as [|d docs IH] using rev_ind; [reflexivity|].
  rewrite group_snoc, accumulate_total, IH, fmap_app.
  change (amount <$> [d]) with [amount d]. by rewrite sum_snoc.
Qed.

Lemma filter_all (P : D → Prop) `{∀ d, Decision (P d)} (docs : list D) :
  (∀ d, P d) → filter P docs = docs.
Proof.
  intros HP. induction docs as [|d docs IH]; [done|].
  rewrite filter_cons_True by done. by rewrite IH.
Qed.
End statistics.

Section single_group.
Import Store Aggregate.
Context {D : Type}.
Variable amount : D → Q.

(** [$group] with [_id: null]: no output document for an empty input, one
    that covers the whole input otherwise. *)
Lemma group_null (docs : list D) :
  match group (λ _, ()) amount docs with
  | [] => docs = []
  | g :: _ =>
      docs ≠ [] ∧ (total g == sum (amount <$> docs))%Q
      ∧ count g = Z.of_nat (length docs)
  end.
Proof.
  destruct (group (λ _, ()) amount docs) as [|g rest] eqn:Hg.
  - destruct docs as [|d docs]; [done|].
    assert (Hin : () ∈ _id <$> group (λ _ : D, ()) amount (d :: docs))
      by (apply group_ids; exists d; split; [left | done]).
    rewrite Hg in Hin. by apply elem_of_nil in Hin.
  - assert (Hin : g ∈ group (λ _ : D, ()) amount docs) by (rewrite Hg; left).
    destruct (group_totals _ _ _ _ Hin) as [Ht Hc].
    unfold members in Ht, Hc.
    rewrite (filter_all (λ d, () = _id g)) in Ht, Hc by (by destruct (_id g)).
    split; [|done]. intros ->. by apply elem_of_nil in Hin.
Qed.
End single_group.

Section category_map.
Import Store Aggregate.

(** The [reduce] that turns the category groups into an object binds the
    categories that have a group, and no other. *)
Lemma reduce_None (stats : list (Group string)) (c : string) :
  foldl (λ (acc : gmap string Q) stat, <[_id stat := total stat]> acc) ∅ stats
    !! c = None
  ↔ c ∉ _id <$> stats.
Proof.
  induction stats as [|g stats IH] using rev_ind.
  - simpl. rewrite lookup_empty. split; [intros _; apply not_elem_of_nil | done].
  - rewrite foldl_app, fmap_app. simpl. rewrite lookup_insert_None, IH.
    rewrite elem_of_app, list_elem_of_singleton. split.
    + intros [Hc Hne] [Hin | Heq]; [by apply Hc | by apply Hne].
    + intros Hc. split; [intros Hin; apply Hc; by left|].
      intros Heq. apply Hc. by right.
Qed.

Lemma reduce_list (stats : list (Group string)) :
  NoDup (_id <$> stats) →
  map_to_list
    (foldl (λ (acc : gmap string Q) stat, <[_id stat := total stat]> acc) ∅ stats)
  ≡ₚ (λ g, (_id g, total g)) <$> stats.
Proof.
  induction stats as [|g stats IH] using rev_ind; intros Hnd.
  - simpl. by rewrite map_to_list_empty.
  - rewrite fmap_app in Hnd. apply NoDup_app in Hnd as (Hnd & Hg & _).
    rewrite foldl_app, fmap_app. simpl.
    rewrite map_to_list_insert.
    + rewrite (IH Hnd). by rewrite Permutation_cons_append.
    + apply reduce_None. intros Hin. apply (Hg _ Hin). left.
Qed.
End category_map.




Section listing.
Import Store Entries.

Lemma matches_insert_str (key v s : string) (q : gmap string Cond) (e : Entry) :
  q !! key = None → field e key = Some (VStr s) →
  matches (<[key := CEq (VStr v)]> q) e ↔ s = v ∧ matches q e.
Proof.
  intros Hq Hf. unfold matches. rewrite map_Forall_insert by done.
  rewrite Hf. simpl. by rewrite String.eqb_eq.
Qed.

Lemma matches_set_if_str (c : bool) (key v s : string) (q : gmap string Cond)
    (e : Entry) :
  q !! key = None → field e key = Some (VStr s) →
  matches (set_if c key (VStr v) q) e ↔ (c = true → s = v) ∧ matches q e.
Proof.
  intros Hq Hf. destruct c; simpl.
  - rewrite matches_insert_str by done. tauto.
  - split; [by intros ? | tauto].
Qed.

Lemma set_if_lookup_ne (c : bool) (key key' : string) (v : Value)
    (q : gmap string Cond) :
  key ≠ key' → set_if c key v q !! key' = q !! key'.
Proof. intros Hne. destruct c; simpl; [by rewrite lookup_insert_ne | done]. Qed.

(** What the descriptor of the entry listings selects. *)
Lemma list_query_selects (k : EntryKind) (tz : Z) (userId : string)
    (q : ListQuery) (e : Entry) :
  matches (list_query k tz userId q) e ↔
  e_userId e = userId ∧ e_isActive e = true
  ∧ (∀ p, q_projectId q = Some p → p ≠ "" → e_projectId e = p)
  ∧ (∀ c, q_category q = Some c → includes (categories k) c = true →
          e_category e = c)
  ∧ from_option (λ s, JSDate.Date_parse tz s ≤ e_date e) True (q_startDate q)
  ∧ from_option
      (λ b, e_date e ≤ JSDate.setHours tz (JSDate.Date_parse tz b) 23 59 59 999)
      True (q_endDate q).
Proof.
  destruct (Entry_fields e) as (_ & Hu & Ha & Hp & Hc & _).
  unfold list_query. cbv zeta.
  set (q1 := set_if (truthy_str (q_projectId q)) "projectId"
               (VStr (default "" (q_projectId q))) (scoped userId)).
  set (q2 := set_if _ "category" _ q1).
  assert (H1c : q1 !! "category" = None)
    by (unfold q1; rewrite set_if_lookup_ne by done; by apply scoped_other).
  assert (H1d : q1 !! "date" = None)
    by (unfold q1; rewrite set_if_lookup_ne by done; by apply scoped_other).
  assert (H2d : q2 !! "date" = None)
    by (unfold q2; by rewrite set_if_lookup_ne by done).
  rewrite (date_window _ _ _ H2d). unfold q2.
  rewrite (matches_set_if_str _ _ _ _ _ _ H1c Hc). unfold q1.
  rewrite (matches_set_if_str _ _ _ _ _ _
             (scoped_other userId "projectId" ltac:(done) ltac:(done)) Hp).
  rewrite matches_scoped, Hu, Ha.
  unfold JSDate.getDateRange. cbn [JSDate.startDate JSDate.endDate].
  assert (Hproj : (truthy_str (q_projectId q) = true →
                   e_projectId e = default "" (q_projectId q))
                  ↔ ∀ p, q_projectId q = Some p → p ≠ "" → e_projectId e = p).
  { destruct (q_projectId q) as [p|]; simpl.
    - rewrite negb_true_iff, String.eqb_neq. split.
      + intros Hp' p' [= <-]. done.
      + intros Hp' Hne. by apply Hp'.
    - split; [by intros _ p' | by intros _]. }
  assert (Hcat : (truthy_str (q_category q)
                  && includes (categories k) (default "" (q_category q)) = true →
                  e_category e = default "" (q_category q))
                 ↔ ∀ c, q_category q = Some c →
                        includes (categories k) c = true → e_category e = c).
  { destruct (q_category q) as [c|]; simpl.
    - rewrite andb_true_iff, negb_true_iff, String.eqb_neq. split.
      + intros Hc' c' [= <-] Hin. apply Hc'. split; [|done].
        intros ->. by destruct k.
      + intros Hc' [_ Hin]. by apply Hc'.
    - split; [by intros _ c' | by intros _]. }
  rewrite Hproj, Hcat.
  destruct (q_startDate q), (q_endDate q); simpl;
    split; intros; destruct_and?; split_and?;
    try done; try congruence.
Qed.
End listing.

(** X8.  What the income and the expense listing return.  For an
    authenticated caller the handler succeeds; the descriptor selects exactly
    the caller's active entries that have the requested project when one is
    given, the requested category when it is one of the enum, and a date
    from the start instant to the end instant of the window; [total] counts
    these; the page holds at most [limit], hence at most 100, of them, each
    joined with the name and client of its project as the caller may see
    it. *)
Theorem entries_listing_selects (k : Entries.EntryKind) (env : Env)
    (st : Store.State) (userId : string) (q : ListQuery) :
  userId ≠ "" →
  let selected (e : Store.Entry) :=
    Store.e_userId e = userId ∧ Store.e_isActive e = true
    ∧ (∀ p, q_projectId q = Some p → p ≠ "" → Store.e_projectId e = p)
    ∧ (∀ c, q_category q = Some c → includes (Entries.categories k) c = true →
            Store.e_category e = c)
    ∧ from_option (λ s, JSDate.Date_parse (tz env) s ≤ Store.e_date e) True
        (q_startDate q)
    ∧ from_option
        (λ b, Store.e_date e
              ≤ JSDate.setHours (tz env) (JSDate.Date_parse (tz env) b)
                  23 59 59 999)
        True (q_endDate q) in
  let found :=
    Store.find (Entries.list_query k (tz env) userId q)
      (Entries.collection k st) in
  ∃ page pagination,
    Entries.getEntries k env st (Some userId) q = Ok (page, pagination)
    ∧ (∀ e, e ∈ found ↔ e ∈ Entries.collection k st ∧ selected e)
    ∧ Pagination.r_total pagination = Z.of_nat (length found)
    ∧ Z.of_nat (length page) ≤ Pagination.r_limit pagination ≤ 100
    ∧ (∀ pe, pe ∈ page →
         Entries.entry pe ∈ found
         ∧ Entries.project pe
           = Entries.project_of st userId (Store.e_projectId (Entries.entry pe))).
Proof.
  intros Hu selected found.
  unfold Entries.getEntries. rewrite (authenticated_Some _ Hu).
  cbn [mbind result_bind mret result_ret]. cbv zeta.
  fold found.
  destruct (paginated (Entries.list_query k (tz env) userId q) (pagination_of q)
              (Entries.collection k st)) as [entries pagination] eqn:Hp.
  eexists _, _. split; [reflexivity|].
  assert (Hentries : entries = (paginated (Entries.list_query k (tz env) userId q)
                                  (pagination_of q) (Entries.collection k st)).1)
    by (by rewrite Hp).
  assert (Hpag : pagination = (paginated (Entries.list_query k (tz env) userId q)
                                  (pagination_of q) (Entries.collection k st)).2)
    by (by rewrite Hp).
  clear Hp.
  pose proof (getPaginationOptions_bounds (q_page q) (q_limit q) (q_sortBy q)
                (q_sortOrder q)) as [_ Hlimit].
  split_and!.
  - intros e. unfold found, Store.find. rewrite list_elem_of_filter.
    rewrite list_query_selects. unfold selected. tauto.
  - by rewrite Hpag.
  - rewrite Hpag, length_fmap, Hentries.
    unfold paginated, Pagination.skip_limit, pagination_of.
    cbn [fst snd Pagination.r_limit Pagination.calculatePagination].
    rewrite length_take. lia.
  - rewrite Hpag. unfold paginated, pagination_of.
    cbn [snd Pagination.r_limit Pagination.calculatePagination]. lia.
  - intros pe (e & -> & He)%list_elem_of_fmap. cbn [Entries.entry Entries.project].
    split; [|done]. rewrite Hentries in He.
    apply paginated_found in He as [He Hm].
    unfold found, Store.find. by apply list_elem_of_filter.
Qed.

Lemma entries_listing_selects_witness :
  ∃ page pagination,
    getIncomeEntries Sample.env Sample.ledger (Some "u1") no_query
    = Ok (page, pagination)
    ∧ Pagination.r_total pagination = 3
    ∧ Z.of_nat (length page) ≤ Pagination.r_limit pagination ≤ 100.
Proof.
  assert (Hu : "u1" ≠ "") by done.
  destruct (entries_listing_selects Entries.Income Sample.env Sample.ledger
              "u1" no_query Hu)
    as (page & pagination & Hget & _ & Htotal & Hlen & _).
  exists page, pagination. split; [exact Hget|]. split; [|exact Hlen].
  rewrite Htotal. vm_compute. reflexivity.
Defined.


(** ** Savings goals: statistics, invariants, listings and writes *)

Section goal_queries.
Import Store Savings.

Lemma SavingsGoal_fields (g : SavingsGoal) :
  field g "_id" = Some (VStr (g_id g))
  ∧ field g "userId" = Some (VStr (g_userId g))
  ∧ field g "isActive" = Some (VBool (g_isActive g))
  ∧ field g "isCompleted" = Some (VBool (g_isCompleted g))
  ∧ field g "deadline" = Some (VDate (g_deadline g))
  ∧ field g "category" = Some (VStr (g_category g))
  ∧ field g "priority" = Some (VStr (g_priority g)).
Proof. destruct g as [? ? ? ? ? ? [d|] ? ? ? ? ? ? ?]; vm_compute; done. Qed.

Lemma matches_insert `{Document D} (key : string) (c : Cond)
    (q : gmap string Cond) (d : D) :
  q !! key = None →
  matches (<[key := c]> q) d ↔ cond_holds c (field d key) = true ∧ matches q d.
Proof. intros Hq. unfold matches. by rewrite map_Forall_insert. Qed.

Lemma matches_scoped_goal (userId : string) (g : SavingsGoal) :
  matches (scoped userId) g ↔ g_userId g = userId ∧ g_isActive g = true.
Proof.
  destruct (SavingsGoal_fields g) as (_ & Hu & Ha & _).
  rewrite matches_scoped, Hu, Ha. split.
  - by intros [[= ->] [= ->]].
  - by intros [-> ->].
Qed.

Lemma matches_completed_query (userId : string) (b : bool) (g : SavingsGoal) :
  matches (completed_query userId b) g ↔
  g_userId g = userId ∧ g_isActive g = true ∧ g_isCompleted g = b.
Proof.
  destruct (SavingsGoal_fields g) as (_ & _ & _ & Hc & _).
  unfold completed_query.
  rewrite matches_insert by (by apply scoped_other).
  rewrite Hc, matches_scoped_goal. simpl.
  destruct (g_isCompleted g), b; simpl; intuition congruence.
Qed.

Lemma completed_query_deadline (userId : string) (b : bool) :
  completed_query userId b !! "deadline" = None.
Proof.
  unfold completed_query. rewrite lookup_insert_ne by done.
  by apply scoped_other.
Qed.

Lemma matches_expiring_query (now : Z) (userId : string) (days : Z)
    (g : SavingsGoal) :
  matches (expiring_query now userId days) g ↔
  g_userId g = userId ∧ g_isActive g = true ∧ g_isCompleted g = false
  ∧ g_deadline g ≤ now + days * JSDate.msPerDay.
Proof.
  destruct (SavingsGoal_fields g) as (_ & _ & _ & _ & Hd & _).
  unfold expiring_query. cbv zeta.
  rewrite matches_insert by apply completed_query_deadline.
  rewrite Hd, matches_completed_query. simpl. rewrite Z.leb_le. tauto.
Qed.

Lemma sort_length `{Document D} key o (docs : list D) :
  length (sort key o docs) = length docs.
Proof. unfold sort. by rewrite merge_sort_Permutation. Qed.

Lemma sort_elem `{Document D} key o (docs : list D) (d : D) :
  d ∈ sort key o docs ↔ d ∈ docs.
Proof. unfold sort. by rewrite merge_sort_Permutation. Qed.

(** Splitting a filtered list on a boolean field. *)
Lemma filter_split {A} (P P1 P2 : A → Prop) `{∀ x, Decision (P x)}
    `{∀ x, Decision (P1 x)} `{∀ x, Decision (P2 x)} (l : list A) :
  (∀ x, P x ↔ (P1 x ∨ P2 x)) → (∀ x, P1 x → P2 x → False) →
  length (filter P l) = (length (filter P1 l) + length (filter P2 l))%nat.
Proof.
  intros Hor Hex. induction l as [|x l IH]; [done|].
  destruct (decide (P1 x)) as [Hx1|Hx1], (decide (P2 x)) as [Hx2|Hx2].
  - destruct (Hex x Hx1 Hx2).
  - rewrite (filter_cons_True P), (filter_cons_True P1), (filter_cons_False P2)
      by (try done; apply Hor; by left).
    simpl. lia.
  - rewrite (filter_cons_True P), (filter_cons_False P1), (filter_cons_True P2)
      by (try done; apply Hor; by right).
    simpl. lia.
  - rewrite (filter_cons_False P), (filter_cons_False P1), (filter_cons_False P2)
      by (try done; rewrite Hor; tauto).
    done.
Qed.

Lemma filter_length_le {A} (P Q : A → Prop) `{∀ x, Decision (P x)}
    `{∀ x, Decision (Q x)} (l : list A) :
  (∀ x, P x → Q x) → (length (filter P l) ≤ length (filter Q l))%nat.
Proof.
  intros Himp. induction l as [|x l IH]; [done|].
  destruct (decide (P x)) as [HP|HP].
  - rewrite (filter_cons_True P), (filter_cons_True Q) by auto. simpl. lia.
  - rewrite (filter_cons_False P) by done.
    destruct (decide (Q x)).
    + rewrite (filter_cons_True Q) by done. simpl. lia.
    + by rewrite (filter_cons_False Q).
Qed.

Lemma round2_close (x : Q) :
  (x - (1 # 200) < round2 x)%Q ∧ (round2 x <= x + (1 # 200))%Q.
Proof.
  unfold round2.
  pose proof (Qfloor_le (x * 100 + (1 # 2))) as Hle.
  pose proof (Qlt_floor (x * 100 + (1 # 2))) as Hlt.
  set (n := Qfloor (x * 100 + (1 # 2))) in *.
  rewrite inject_Z_plus in Hlt. change (inject_Z 1) with 1%Q in Hlt.
  set (r := inject_Z n) in *. clearbody r.
  split.
  - apply Qlt_shift_div_l; [reflexivity|]. lra.
  - apply Qle_shift_div_r; [reflexivity|]. lra.
Qed.
End goal_queries.




Section goal_schema.
Import Store Savings.

(** What the schema of a savings goal demands at the instant [now]. *)
Lemma goal_validate_nil (now : Z) (g : SavingsGoal) :
  validate now g = [] ↔
  g_userId g ≠ ""
  ∧ (2 ≤ String.length (g_title g) ≤ 100)%nat
  ∧ (1 <= g_targetAmount g)%Q
  ∧ (0 <= g_currentAmount g)%Q
  ∧ now < g_deadline g
  ∧ (String.length (default "" (g_description g)) ≤ 500)%nat
  ∧ includes categories (g_category g) = true
  ∧ includes priorities (g_priority g) = true
  ∧ includes types (g_type g) = true.
Proof.
  unfold validate. rewrite !app_nil, !first_failure_nil.
  rewrite !Forall_cons, !Forall_nil. cbn [fst].
  rewrite !negb_true_iff, !Qle_bool_iff, !Nat.leb_le, Z.ltb_lt.
  rewrite <- !not_true_iff_false, !String.eqb_eq.
  split.
  - intros ((? & _) & (? & ? & ? & _) & (? & _) & (? & _) & (? & _) & (? & _)
            & (? & _) & (? & _) & (? & _)). done.
  - intros (? & [? ?] & ? & ? & ? & ? & ? & ? & ?).
    assert (g_title g ≠ "")
      by (intros Heq; rewrite Heq in *; simpl in *; lia).
    done.
Qed.

Lemma expired_is_invalid (now : Z) (g : SavingsGoal) :
  g_deadline g ≤ now → "Deadline must be in the future" ∈ validate now g.
Proof.
  intros Hd. unfold validate.
  do 4 (apply elem_of_app; right). apply elem_of_app. left.
  simpl. apply Z.ltb_ge in Hd. rewrite Hd. apply list_elem_of_here.
Qed.

(** A [save] either fails and writes nothing, or writes a document that
    passed the validators and the hook. *)
Lemma save_prepared_state (env : Env) (prepared : result SavingsGoal)
    (st : State) :
  ((∃ e, save_prepared env prepared st = (Err e, st))
   ∨ ∃ g, prepared = Ok g ∧ validate (now env) g = []
          ∧ save_prepared env prepared st
            = (Ok (set_updatedAt (now env) (pre_save g)),
               write (set_updatedAt (now env) (pre_save g)) st)).
Proof.
  destruct prepared as [g|e]; simpl; [|left; by exists e].
  unfold save. destruct (validate (now env) g) as [|m errors] eqn:Hv.
  - right. exists g. by rewrite Hv.
  - left. by eexists.
Qed.

Lemma save_prepared_invalid (env : Env) (g : SavingsGoal) (st : State) :
  validate (now env) g ≠ [] →
  save_prepared env (Ok g) st
  = (Err (handleValidationError (validate (now env) g)), st).
Proof.
  intros Hv. simpl. unfold save.
  by destruct (validate (now env) g) as [|m errors].
Qed.

Lemma write_other_collections (g : SavingsGoal) (st : State) :
  projects (write g st) = projects st
  ∧ incomeEntries (write g st) = incomeEntries st
  ∧ expenseEntries (write g st) = expenseEntries st.
Proof. done. Qed.

Lemma write_Forall (P : SavingsGoal → Prop) (g : SavingsGoal) (st : State) :
  P g → Forall P (savingsGoals st) → Forall P (savingsGoals (write g st)).
Proof.
  intros Hg Hst. unfold write. cbn [savingsGoals].
  destruct (existsb _ _).
  - by apply Forall_replace.
  - apply Forall_app. split; [done | by apply Forall_singleton].
Qed.

Lemma write_length (g : SavingsGoal) (st : State) :
  (length (savingsGoals st) ≤ length (savingsGoals (write g st)))%nat.
Proof.
  unfold write. cbn [savingsGoals]. destruct (existsb _ _).
  - by rewrite replace_length.
  - rewrite length_app. lia.
Qed.

Lemma write_existing (g x : SavingsGoal) (st : State) :
  x ∈ savingsGoals st → g_id x = g_id g →
  savingsGoals (write g st) = replace g_id g (savingsGoals st).
Proof.
  intros Hx Hid. unfold write. cbn [savingsGoals].
  assert (Hex : existsb (has_id (g_id g)) (savingsGoals st) = true).
  { apply existsb_exists. exists x. split; [by apply list_elem_of_In|].
    unfold has_id. by apply String.eqb_eq. }
  by rewrite Hex.
Qed.

Lemma matches_by_id_goal (id userId : string) (g : SavingsGoal) :
  matches (by_id id userId) g ↔
  g_id g = id ∧ g_userId g = userId ∧ g_isActive g = true.
Proof.
  destruct (SavingsGoal_fields g) as (Hid & Hu & Ha & _).
  by apply matches_by_id_fields.
Qed.

(** The hook leaves no goal that has reached its target marked open. *)
Lemma saved_goal_sound (now : Z) (g : SavingsGoal) :
  validate now g = [] →
  let saved := set_updatedAt now (pre_save g) in
  (0 <= g_currentAmount saved)%Q ∧ (1 <= g_targetAmount saved)%Q
  ∧ (g_isCompleted saved = false →
     (g_currentAmount saved < g_targetAmount saved)%Q).
Proof.
  intros (_ & _ & Ht & Hc & _)%goal_validate_nil. cbv zeta.
  cbn [set_updatedAt g_currentAmount g_targetAmount g_isCompleted].
  destruct (pre_save_amounts g) as [-> ->]. split_and!; [done | done |].
  unfold pre_save.
  destruct (Qle_bool (g_targetAmount g) (g_currentAmount g)) eqn:Hle.
  - destruct (g_isCompleted g) eqn:Hcompl; simpl; [by rewrite Hcompl | done].
  - intros _. by apply Qle_bool_false.
Qed.
End goal_schema.

(** X10.  The writes of the savings handlers keep the goals sound.  If
    every stored goal has a non-negative current amount, a target of at
    least 1 and, unless it is marked completed, a current amount below its
    target, the same holds after [createSavingsGoal], [updateSavingsGoal],
    [updateSavingsGoalProgress] and [deleteSavingsGoal], whatever the request
    and whether it succeeds or fails; no goal is ever removed, and the
    projects and the income and expense entries are not touched. *)
Theorem savings_writes_keep_goals_sound (env : Env) (st : Store.State)
    (user : option string) (id : string) (goal : Savings.GoalBody)
    (progress : Savings.ProgressBody) :
  let sound (g : Store.SavingsGoal) :=
    (0 <= Store.g_currentAmount g)%Q ∧ (1 <= Store.g_targetAmount g)%Q
    ∧ (Store.g_isCompleted g = false →
       (Store.g_currentAmount g < Store.g_targetAmount g)%Q) in
  Forall sound (Store.savingsGoals st) →
  ∀ st',
    st' = (Savings.createSavingsGoal env st user goal).2
    ∨ st' = (Savings.updateSavingsGoal env st user id goal).2
    ∨ st' = (Savings.updateSavingsGoalProgress env st user id progress).2
    ∨ st' = (Savings.deleteSavingsGoal env st user id).2 →
    Forall sound (Store.savingsGoals st')
    ∧ (length (Store.savingsGoals st) ≤ length (Store.savingsGoals st'))%nat
    ∧ Store.projects st' = Store.projects st
    ∧ Store.incomeEntries st' = Store.incomeEntries st
    ∧ Store.expenseEntries st' = Store.expenseEntries st.
Proof.
  intros sound Hst st' Hst'.
  assert (Hsave : ∀ prepared,
            st' = (Savings.save_prepared env prepared st).2 →
            Forall sound (Store.savingsGoals st')
            ∧ (length (Store.savingsGoals st)
               ≤ length (Store.savingsGoals st'))%nat
            ∧ Store.projects st' = Store.projects st
            ∧ Store.incomeEntries st' = Store.incomeEntries st
            ∧ Store.expenseEntries st' = Store.expenseEntries st).
  { intros prepared ->.
    destruct (save_prepared_state env prepared st)
      as [[e ->] | (g & _ & Hv & ->)]; cbn [snd]; [done|].
    split; [|split; [apply write_length | apply write_other_collections]].
    apply write_Forall; [|done]. by apply saved_goal_sound. }
  destruct Hst' as [Hst' | [Hst' | [Hst' | Hst']]]; by eapply Hsave.
Qed.

Lemma savings_writes_keep_goals_sound_witness :
  Forall (λ g, (0 <= Store.g_currentAmount g)%Q
               ∧ (1 <= Store.g_targetAmount g)%Q
               ∧ (Store.g_isCompleted g = false →
                  (Store.g_currentAmount g < Store.g_targetAmount g)%Q))
    (Store.savingsGoals
       (Savings.updateSavingsGoalProgress Sample.env
          (Sample.goals [Sample.goal]) (Some "u1") "g1" (Sample.add 25)).2).
Proof.
  assert (Hst : Forall (λ g, (0 <= Store.g_currentAmount g)%Q
                             ∧ (1 <= Store.g_targetAmount g)%Q
                             ∧ (Store.g_isCompleted g = false →
                                (Store.g_currentAmount g
                                 < Store.g_targetAmount g)%Q))
                  (Store.savingsGoals (Sample.goals [Sample.goal]))).
  { apply Forall_singleton. vm_compute. split_and!; congruence || done. }
  refine (proj1 (savings_writes_keep_goals_sound Sample.env
                   (Sample.goals [Sample.goal]) (Some "u1") "g1"
                   {| Savings.gb_title := None; Savings.gb_targetAmount := None;
                      Savings.gb_currentAmount := None;
                      Savings.gb_deadline := None;
                      Savings.gb_description := None;
                      Savings.gb_category := None;
                      Savings.gb_priority := None |}
                   (Sample.add 25) Hst _ _)).
  right. right. left. reflexivity.
Defined.


Section goal_virtuals.
Import Store Savings Virtuals.

Lemma ratio_bounds (c t : Q) :
  (0 <= c)%Q → (1 <= t)%Q →
  (0 <= c / t * 100)%Q ∧ ((c / t * 100 <= 100)%Q ↔ (c <= t)%Q)
  ∧ ((100 <= c / t * 100)%Q ↔ (t <= c)%Q).
Proof.
  intros Hc Ht.
  assert (Hpos : (0 < t)%Q) by lra.
  assert (Hne : ¬ (t == 0)%Q) by lra.
  pose proof (Qmult_div_r c t Hne) as Hr.
  set (r := (c / t)%Q) in *.
  assert (H0 : (0 <= r)%Q).
  { destruct (Qlt_le_dec r 0) as [Hneg|]; [|done].
    assert ((t * r < 0)%Q) by nra. lra. }
  split; [lra|]. split; split.
  - intros Hle. assert ((r <= 1)%Q) by lra. nra.
  - intros Hle. destruct (Qlt_le_dec 1 r) as [Hgt|]; [|lra]. nra.
  - intros Hle. assert ((1 <= r)%Q) by lra. nra.
  - intros Hle. destruct (Qlt_le_dec r 1) as [Hgt|]; [|lra]. nra.
Qed.

Lemma ceiling_days (a n : Z) :
  Qceiling (inject_Z a / inject_Z (1000 * 3600 * 24)) ≤ n
  ↔ a ≤ n * JSDate.msPerDay.
Proof.
  rewrite Qceiling_quotient by done. unfold JSDate.msPerDay.
  change (1000 * 3600 * 24) with 86400000.
  pose proof (Z.div_mod (- a) 86400000 ltac:(lia)).
  pose proof (Z.mod_pos_bound (- a) 86400000 ltac:(lia)).
  lia.
Qed.
End goal_virtuals.




Section goal_listings.
Import Store Savings.

Lemma StronglySorted_weaken {A} (R S : relation A) (l : list A) :
  (∀ x y, R x y → S x y) → StronglySorted R l → StronglySorted S l.
Proof.
  intros HRS. induction 1 as [|x l Hl IH Hx]; constructor; [done|].
  eapply Forall_impl; [exact Hx | by intros y; apply HRS].
Qed.

Lemma sort_rel_deadline (g1 g2 : SavingsGoal) :
  sort_rel "deadline" Pagination.asc g1 g2 ↔ g_deadline g1 ≤ g_deadline g2.
Proof.
  destruct (SavingsGoal_fields g1) as (_ & _ & _ & _ & Hd1 & _).
  destruct (SavingsGoal_fields g2) as (_ & _ & _ & _ & Hd2 & _).
  unfold sort_rel. rewrite Hd1, Hd2. simpl. apply Z.leb_le.
Qed.

#[local] Instance sort_rel_deadline_trans :
  Transitive (sort_rel "deadline" Pagination.asc : relation SavingsGoal).
Proof. intros g1 g2 g3. rewrite !sort_rel_deadline. lia. Qed.

#[local] Instance sort_rel_deadline_total :
  Total (sort_rel "deadline" Pagination.asc : relation SavingsGoal).
Proof. intros g1 g2. rewrite !sort_rel_deadline. lia. Qed.

Lemma sort_by_deadline (docs : list SavingsGoal) :
  StronglySorted (λ g1 g2, g_deadline g1 ≤ g_deadline g2)
    (sort "deadline" Pagination.asc docs).
Proof.
  apply (StronglySorted_weaken (sort_rel "deadline" Pagination.asc)).
  - intros g1 g2. apply sort_rel_deadline.
  - unfold sort. apply StronglySorted_merge_sort; apply _.
Qed.
End goal_listings.




Section goal_writes.
Import Store Savings.

Lemma validate_set_isActive now b g :
  validate now (set_isActive b g) = validate now g.
Proof. reflexivity. Qed.

Lemma validate_set_updatedAt now t g :
  validate now (set_updatedAt t g) = validate now g.
Proof. reflexivity. Qed.

Lemma elem_of_not_nil {A} (x : A) (l : list A) : x ∈ l → l ≠ [].
Proof. intros Hx ->. by apply elem_of_nil in Hx. Qed.

Lemma progressed_goal_deadline st userId id body g g' :
  userId ≠ "" →
  findOne (by_id id userId) (savingsGoals st) = Some g →
  progressed_goal st (Some userId) id body = Ok g' →
  g_deadline g' = g_deadline g.
Proof.
  intros Hu Hf. unfold progressed_goal.
  rewrite (authenticated_Some _ Hu). intros Hp.
  apply bind_Ok_inv in Hp as (? & [= <-] & Hp).
  apply bind_Ok_inv in Hp as (? & _ & Hp).
  apply bind_Ok_inv in Hp as (? & _ & Hp).
  rewrite Hf in Hp. apply bind_Ok_inv in Hp as (? & [= <-] & Hp).
  destruct (String.eqb _ "add").
  - by injection Hp as <-.
  - apply bind_Ok_inv in Hp as (? & _ & Hp). by injection Hp as <-.
Qed.

Lemma updated_goal_deadline env st userId id body g g' :
  userId ≠ "" →
  findOne (by_id id userId) (savingsGoals st) = Some g →
  gb_deadline body = None →
  updated_goal env st (Some userId) id body = Ok g' →
  g_deadline g' = g_deadline g.
Proof.
  intros Hu Hf Hnone. unfold updated_goal.
  rewrite (authenticated_Some _ Hu). intros Hp.
  apply bind_Ok_inv in Hp as (? & [= <-] & Hp).
  rewrite Hf in Hp. apply bind_Ok_inv in Hp as (? & [= <-] & Hp).
  repeat (apply bind_Ok_inv in Hp as (? & _ & Hp); cbv zeta in Hp).
  injection Hp as <-. simpl. by rewrite Hnone.
Qed.
End goal_writes.

(** X13.  A goal whose deadline has passed is frozen.  The schema asks of
    every [save] that the deadline lies in the future, so for a stored goal
    with [deadline <= now] the delete fails with the 400 of a validation
    error that names the deadline, no progress update succeeds, and an
    update succeeds only if it carries a new deadline; the store is left
    unchanged by each failed request. *)
Theorem expired_goal_is_frozen (env : Env) (st : Store.State)
    (userId id : string) (g : Store.SavingsGoal) :
  userId ≠ "" →
  Store.findOne (Store.by_id id userId) (Store.savingsGoals st) = Some g →
  Store.g_deadline g ≤ now env →
  (∃ errors,
     Savings.deleteSavingsGoal env st (Some userId) id
     = (Err (handleValidationError errors), st)
     ∧ "Deadline must be in the future" ∈ errors
     ∧ statusCode (handleValidationError errors) = 400)
  ∧ (∀ body, ∃ e,
       Savings.updateSavingsGoalProgress env st (Some userId) id body
       = (Err e, st))
  ∧ (∀ body, Savings.gb_deadline body = None →
       ∃ e, Savings.updateSavingsGoal env st (Some userId) id body
            = (Err e, st)).
Proof.
  intros Hu Hf Hd.
  assert (Hfrozen : ∀ prepared,
            (∀ g', prepared = Ok g' → Store.g_deadline g' = Store.g_deadline g) →
            ∃ e, Savings.save_prepared env prepared st = (Err e, st)).
  { intros prepared Hsame.
    destruct (save_prepared_state env prepared st)
      as [He | (g' & Hg' & Hv & _)]; [done|].
    apply goal_validate_nil in Hv as (_ & _ & _ & _ & Hfuture & _).
    rewrite (Hsame g' Hg') in Hfuture. lia. }
  split_and!.
  - exists (Savings.validate (now env) g). split_and!.
    + unfold Savings.deleteSavingsGoal. rewrite (authenticated_Some _ Hu).
      cbn [mbind result_bind]. rewrite Hf. cbn [found mbind result_bind mret
        result_ret].
      rewrite save_prepared_invalid; rewrite validate_set_isActive; [done|].
      eapply elem_of_not_nil. by apply expired_is_invalid.
    + by apply expired_is_invalid.
    + reflexivity.
  - intros body. apply Hfrozen. intros g' Hg'.
    by eapply progressed_goal_deadline.
  - intros body Hnone. apply Hfrozen. intros g' Hg'.
    by eapply updated_goal_deadline.
Qed.

Lemma expired_goal_is_frozen_witness :
  ∃ e, Savings.updateSavingsGoalProgress
         {| tz := 0; now := 1735689600000; newId := "new" |}
         (Sample.goals [Sample.goal]) (Some "u1") "g1" (Sample.add 25)
       = (Err e, Sample.goals [Sample.goal]).
Proof.
  assert (Hu : "u1" ≠ "") by done.
  assert (Hf : Store.findOne (Store.by_id "g1" "u1")
                 (Store.savingsGoals (Sample.goals [Sample.goal]))
               = Some Sample.goal) by (vm_compute; reflexivity).
  assert (Hd : Store.g_deadline Sample.goal
               ≤ now {| tz := 0; now := 1735689600000; newId := "new" |})
    by (vm_compute; discriminate).
  destruct (expired_goal_is_frozen _ _ _ _ _ Hu Hf Hd) as (_ & Hp & _).
  exact (Hp (Sample.add 25)).
Defined.

(** X14.  The instance methods of the model, on a goal that passes the
    schema.  [addProgress] and [subtractProgress] with a non-negative amount
    always save: the first adds the amount, the second subtracts it but
    never goes below 0 (it clamps where the handler rejects).
    [markCompleted] stores the goal completed, and [markActive] re-opens it
    only if it is below its target: on a goal that has reached the target
    the hook completes it again within the same save. *)
Theorem goal_methods (env : Env) (st : Store.State) (g : Store.SavingsGoal)
    (amount : Q) :
  Savings.validate (now env) g = [] → (0 <= amount)%Q →
  ∃ added subtracted completed reopened,
    Savings.addProgress env g amount st = (Ok added, Savings.write added st)
    ∧ Store.g_currentAmount added = (Store.g_currentAmount g + amount)%Q
    ∧ Savings.subtractProgress env g amount st
      = (Ok subtracted, Savings.write subtracted st)
    ∧ (0 <= Store.g_currentAmount subtracted)%Q
    ∧ ((amount <= Store.g_currentAmount g)%Q →
       Store.g_currentAmount subtracted = (Store.g_currentAmount g - amount)%Q)
    ∧ ((Store.g_currentAmount g < amount)%Q →
       Store.g_currentAmount subtracted = 0%Q)
    ∧ Savings.markCompleted env g st
      = (Ok completed, Savings.write completed st)
    ∧ Store.g_isCompleted completed = true
    ∧ Savings.markActive env g st = (Ok reopened, Savings.write reopened st)
    ∧ (Store.g_isCompleted reopened = true
       ↔ (Store.g_targetAmount g <= Store.g_currentAmount g)%Q).
Proof.
  intros Hv Ha.
  pose proof Hv as (Hu & Htitle & Ht & Hc & Hd & Hdesc & Hcat & Hprio & Htype)
    %goal_validate_nil.
  assert (Hamount : ∀ a, (0 <= a)%Q →
            Savings.validate (now env) (Savings.set_currentAmount a g) = []).
  { intros a H0. apply goal_validate_nil.
    cbn [Savings.set_currentAmount Store.g_userId Store.g_title
         Store.g_targetAmount Store.g_currentAmount Store.g_deadline
         Store.g_description Store.g_category Store.g_priority Store.g_type].
    destruct Htitle. by split_and!. }
  assert (Hmax : (0 <= Savings.max0 (Store.g_currentAmount g - amount))%Q).
  { unfold Savings.max0.
    destruct (Qle_bool 0 _) eqn:Hb; [by apply Qle_bool_iff | done]. }
  eexists _, _, _, _. split_and!.
  - unfold Savings.addProgress. apply save_valid, Hamount. lra.
  - cbn [Savings.set_updatedAt Store.g_currentAmount].
    by destruct (pre_save_amounts
                   (Savings.set_currentAmount (Store.g_currentAmount g + amount) g))
      as [-> _].
  - unfold Savings.subtractProgress. by apply save_valid, Hamount.
  - cbn [Savings.set_updatedAt Store.g_currentAmount].
    by destruct (pre_save_amounts
                   (Savings.set_currentAmount
                      (Savings.max0 (Store.g_currentAmount g - amount)) g))
      as [-> _].
  - intros Hle. cbn [Savings.set_updatedAt Store.g_currentAmount].
    destruct (pre_save_amounts
                (Savings.set_currentAmount
                   (Savings.max0 (Store.g_currentAmount g - amount)) g))
      as [-> _].
    cbn [Savings.set_currentAmount Store.g_currentAmount]. unfold Savings.max0.
    assert (Hb : Qle_bool 0 (Store.g_currentAmount g - amount) = true)
      by (apply Qle_bool_iff; lra).
    by rewrite Hb.
  - intros Hlt. cbn [Savings.set_updatedAt Store.g_currentAmount].
    destruct (pre_save_amounts
                (Savings.set_currentAmount
                   (Savings.max0 (Store.g_currentAmount g - amount)) g))
      as [-> _].
    cbn [Savings.set_currentAmount Store.g_currentAmount]. unfold Savings.max0.
    assert (Hb : Qle_bool 0 (Store.g_currentAmount g - amount) = false)
      by (apply Qle_bool_false; lra).
    by rewrite Hb.
  - unfold Savings.markCompleted. apply save_valid.
    by rewrite validate_set_isCompleted.
  - cbn [Savings.set_updatedAt Store.g_isCompleted].
    by rewrite pre_save_keeps.
  - unfold Savings.markActive. apply save_valid.
    by rewrite validate_set_isCompleted.
  - cbn [Savings.set_updatedAt Store.g_isCompleted]. unfold Savings.pre_save.
    cbn [Savings.set_isCompleted Store.g_isCompleted Store.g_targetAmount
         Store.g_currentAmount negb]. rewrite andb_true_r.
    destruct (Qle_bool (Store.g_targetAmount g) (Store.g_currentAmount g))
      eqn:Hb; cbn [Savings.set_isCompleted Store.g_isCompleted].
    + apply Qle_bool_iff in Hb. done.
    + apply Qle_bool_false in Hb. split; [done|]. intros Hle. lra.
Qed.

Lemma goal_methods_witness :
  ∃ subtracted,
    Savings.subtractProgress Sample.env Sample.goal 200 Sample.empty
    = (Ok subtracted, Savings.write subtracted Sample.empty)
    ∧ Store.g_currentAmount subtracted = 0%Q.
Proof.
  assert (Hv : Savings.validate (now Sample.env) Sample.goal = [])
    by (vm_compute; reflexivity).
  assert (Ha : (0 <= 200)%Q) by (by vm_compute).
  assert (Hlt : (Store.g_currentAmount Sample.goal < 200)%Q) by (by vm_compute).
  destruct (goal_methods Sample.env Sample.empty Sample.goal 200 Hv Ha)
    as (added & subtracted & completed & reopened
        & _ & _ & Hsub & _ & _ & Hzero & _).
  exists subtracted. split; [exact Hsub | exact (Hzero Hlt)].
Defined.


Section goal_delete.
Import Store Savings.

Lemma pre_save_fields g :
  g_id (pre_save g) = g_id g ∧ g_userId (pre_save g) = g_userId g
  ∧ g_isActive (pre_save g) = g_isActive g
  ∧ g_deadline (pre_save g) = g_deadline g.
Proof. unfold pre_save. by destruct (_ && _). Qed.
End goal_delete.

(** X15.  Deleting a savings goal is a soft delete.  For an authenticated
    caller and a stored goal of the caller that passes the schema,
    [deleteSavingsGoal] succeeds; afterwards the goal cannot be read or
    deleted again (404 "Savings goal not found") and none of the listings
    (all, active, completed, expiring soon) shows it; yet it is still
    stored, with its amounts, marked inactive, and the number of stored
    goals is unchanged. *)
Theorem deleted_goal_disappears (env : Env) (st : Store.State)
    (userId id : string) (g : Store.SavingsGoal) :
  userId ≠ "" →
  Store.findOne (Store.by_id id userId) (Store.savingsGoals st) = Some g →
  Savings.validate (now env) g = [] →
  ∃ g' st',
    Savings.deleteSavingsGoal env st (Some userId) id = (Ok g', st')
    ∧ g' ∈ Store.savingsGoals st'
    ∧ Store.g_id g' = id ∧ Store.g_isActive g' = false
    ∧ Store.g_currentAmount g' = Store.g_currentAmount g
    ∧ Store.g_targetAmount g' = Store.g_targetAmount g
    ∧ length (Store.savingsGoals st') = length (Store.savingsGoals st)
    ∧ Savings.getSavingsGoalById st' (Some userId) id
      = Err (NotFoundError "Savings goal not found")
    ∧ Savings.deleteSavingsGoal env st' (Some userId) id
      = (Err (NotFoundError "Savings goal not found"), st')
    ∧ (∀ q days x,
         x ∈ Store.find (Savings.list_query userId q) (Store.savingsGoals st')
         ∨ x ∈ Savings.findActiveByUser userId st'
         ∨ x ∈ Savings.findCompletedByUser userId st'
         ∨ x ∈ Savings.findExpiringSoon (now env) userId days st' →
         Store.g_id x ≠ id).
Proof.
  intros Hu Hf Hvalid.
  destruct (findOne_Some _ _ _ Hf) as [Hg Hm].
  apply matches_by_id_goal in Hm as (Hid & Huser & Hact).
  set (dead := Savings.set_updatedAt (now env)
                 (Savings.pre_save (Savings.set_isActive false g))).
  destruct (pre_save_fields (Savings.set_isActive false g))
    as (Hpid & Hpu & Hpa & _).
  destruct (pre_save_amounts (Savings.set_isActive false g)) as [Hpc Hpt].
  assert (Hdid : Store.g_id dead = id) by (unfold dead; simpl; by rewrite Hpid).
  assert (Hdact : Store.g_isActive dead = false)
    by (unfold dead; simpl; by rewrite Hpa).
  assert (Hstored : Store.savingsGoals (Savings.write dead st)
                    = replace Store.g_id dead (Store.savingsGoals st))
    by (apply (write_existing dead g); [done | by rewrite Hdid]).
  assert (Hdead : ∀ x, x ∈ Store.savingsGoals (Savings.write dead st) →
                       Store.g_id x = id → Store.g_isActive x = false).
  { intros x Hx Hxid. rewrite Hstored in Hx.
    apply replace_elem in Hx as [-> | [_ Hne]]; [done|].
    destruct Hne. by rewrite Hxid, Hdid. }
  assert (Hgone : Store.findOne (Store.by_id id userId)
                    (Store.savingsGoals (Savings.write dead st)) = None).
  { apply findOne_None. intros x Hx (Hxid & _ & Hxact)%matches_by_id_goal.
    rewrite (Hdead x Hx Hxid) in Hxact. done. }
  exists dead, (Savings.write dead st). split_and!.
  - unfold Savings.deleteSavingsGoal. rewrite (authenticated_Some _ Hu).
    cbn [mbind result_bind]. rewrite Hf.
    cbn [found mbind result_bind mret result_ret Savings.save_prepared].
    apply save_valid. by rewrite validate_set_isActive.
  - apply write_stores.
  - done.
  - done.
  - unfold dead. simpl. by rewrite Hpc.
  - unfold dead. simpl. by rewrite Hpt.
  - rewrite Hstored. apply replace_length.
  - unfold Savings.getSavingsGoalById. rewrite (authenticated_Some _ Hu).
    cbn [mbind result_bind]. by rewrite Hgone.
  - unfold Savings.deleteSavingsGoal. rewrite (authenticated_Some _ Hu).
    cbn [mbind result_bind]. by rewrite Hgone.
  - intros q days x Hx Hxid.
    assert (Hs : x ∈ Store.savingsGoals (Savings.write dead st)
                 ∧ Store.matches (Store.scoped userId) x).
    { unfold Savings.findActiveByUser, Savings.findCompletedByUser,
        Savings.findExpiringSoon in Hx.
      rewrite !sort_elem in Hx. unfold Store.find in Hx.
      rewrite !list_elem_of_filter in Hx.
      destruct Hx as [[Hq Hx] | [[Hq Hx] | [[Hq Hx] | [Hq Hx]]]];
        (split; [done|]); refine (matches_subseteq _ _ _ _ Hq).
      - apply (descriptors_scoped env userId (GetSavingsGoals q)).
        apply list_elem_of_here.
      - apply (descriptors_scoped env userId GetActiveSavingsGoals).
        apply list_elem_of_here.
      - apply (descriptors_scoped env userId GetCompletedSavingsGoals).
        apply list_elem_of_here.
      - apply (descriptors_scoped env userId (GetExpiringSoonSavingsGoals days)).
        apply list_elem_of_here. }
    destruct Hs as [Hx' Hs]. apply matches_scoped_goal in Hs as [_ Ha].
    rewrite (Hdead x Hx' Hxid) in Ha. done.
Qed.

Lemma deleted_goal_disappears_witness :
  ∃ g' st',
    Savings.deleteSavingsGoal Sample.env (Sample.goals [Sample.goal])
      (Some "u1") "g1" = (Ok g', st')
    ∧ Savings.getSavingsGoalById st' (Some "u1") "g1"
      = Err (NotFoundError "Savings goal not found").
Proof.
  assert (Hu : "u1" ≠ "") by done.
  assert (Hf : Store.findOne (Store.by_id "g1" "u1")
                 (Store.savingsGoals (Sample.goals [Sample.goal]))
               = Some Sample.goal) by (vm_compute; reflexivity).
  assert (Hv : Savings.validate (now Sample.env) Sample.goal = [])
    by (vm_compute; reflexivity).
  destruct (deleted_goal_disappears Sample.env _ "u1" "g1" _ Hu Hf Hv)
    as (g' & st' & Hdel & _ & _ & _ & _ & _ & _ & Hget & _).
  exists g', st'. split; [exact Hdel | exact Hget].
Defined.


(** ** Projects: statistics, creation, deletion and listings *)

Section project_schema.
Import Store ProjectWrites.

(** What the schema of a project demands. *)
Lemma project_validate_nil (p : Project) :
  validate p = [] ↔
  p_userId p ≠ ""
  ∧ (2 ≤ String.length (p_name p) ≤ 100)%nat
  ∧ (2 ≤ String.length (p_clientName p) ≤ 100)%nat
  ∧ (0 <= p_expectedPayment p)%Q
  ∧ includes Projects.statuses (p_status p) = true
  ∧ (0 <= p_budgetAllocation p)%Q ∧ (p_budgetAllocation p <= 100)%Q
  ∧ (String.length (default "" (p_description p)) ≤ 500)%nat.
Proof.
  unfold validate. rewrite !app_nil, !first_failure_nil.
  rewrite !Forall_cons, !Forall_nil. cbn [fst].
  rewrite !negb_true_iff, !Qle_bool_iff, !Nat.leb_le.
  rewrite <- !not_true_iff_false, !String.eqb_eq.
  split.
  - intros ((? & _) & (? & ? & ? & _) & (? & ? & ? & _) & (? & _) & (? & _)
            & (? & ? & _) & (? & _)). done.
  - intros (? & [? ?] & [? ?] & ? & ? & ? & ? & ?).
    assert (p_name p ≠ "")
      by (intros Heq; rewrite Heq in *; simpl in *; lia).
    assert (p_clientName p ≠ "")
      by (intros Heq; rewrite Heq in *; simpl in *; lia).
    done.
Qed.

Lemma truthy_str_inv (s : option string) :
  truthy_str s = true ↔ ∃ v, s = Some v ∧ v ≠ "".
Proof.
  destruct s as [v|]; simpl.
  - rewrite negb_true_iff, String.eqb_neq. split; [by exists v|].
    by intros (? & [= <-] & ?).
  - split; [done | by intros (? & ? & _)].
Qed.

Lemma truthy_num_inv (x : option Q) :
  truthy_num x = true ↔ ∃ v, x = Some v ∧ ¬ (v == 0)%Q.
Proof.
  destruct x as [v|]; simpl.
  - rewrite negb_true_iff, <- not_true_iff_false, Qeq_bool_iff.
    split; [by exists v|]. by intros (? & [= <-] & ?).
  - split; [done | by intros (? & ? & _)].
Qed.

Lemma set_projects_projects docs st : projects (set_projects docs st) = docs.
Proof. done. Qed.

Lemma count_status_filter (s : string) (docs : list Project) :
  Projects.count_status s docs
  = Z.of_nat (length (filter (λ p, p_status p = s) docs)).
Proof.
  unfold Projects.count_status.
  assert (Hgen : ∀ n,
            foldl (λ n p, n + (if String.eqb (p_status p) s then 1 else 0)) n docs
            = n + Z.of_nat (length (filter (λ p, p_status p = s) docs))).
  { induction docs as [|p docs IH]; intros n; simpl; [lia|].
    rewrite IH. destruct (String.eqb_spec (p_status p) s).
    - rewrite filter_cons_True by done. simpl. lia.
    - rewrite filter_cons_False by done. lia. }
  by rewrite Hgen.
Qed.

Lemma status_partition (docs : list Project) :
  Forall (λ p, includes Projects.statuses (p_status p) = true) docs →
  length docs
  = (length (filter (λ p, p_status p = "active") docs)
     + length (filter (λ p, p_status p = "completed") docs)
     + length (filter (λ p, p_status p = "on-hold") docs))%nat.
Proof.
  induction 1 as [|p docs Hp _ IH]; [done|].
  assert (Hs : p_status p = "active" ∨ p_status p = "completed"
               ∨ p_status p = "on-hold").
  { unfold includes, Projects.statuses in Hp. simpl in Hp.
    rewrite !orb_true_iff, !String.eqb_eq in Hp. intuition congruence. }
  destruct Hs as [Hs | [Hs | Hs]];
    [rewrite (filter_cons_True (λ p, p_status p = "active")) by done;
     rewrite (filter_cons_False (λ p, p_status p = "completed"))
       by (by rewrite Hs);
     rewrite (filter_cons_False (λ p, p_status p = "on-hold"))
       by (by rewrite Hs)
    |rewrite (filter_cons_False (λ p, p_status p = "active"))
       by (by rewrite Hs);
     rewrite (filter_cons_True (λ p, p_status p = "completed")) by done;
     rewrite (filter_cons_False (λ p, p_status p = "on-hold"))
       by (by rewrite Hs)
    |rewrite (filter_cons_False (λ p, p_status p = "active"))
       by (by rewrite Hs);
     rewrite (filter_cons_False (λ p, p_status p = "completed"))
       by (by rewrite Hs);
     rewrite (filter_cons_True (λ p, p_status p = "on-hold")) by done];
    simpl; lia.
Qed.

Lemma status_counts_le (docs : list Project) :
  (length (filter (λ p, p_status p = "active") docs)
   + length (filter (λ p, p_status p = "completed") docs)
   + length (filter (λ p, p_status p = "on-hold") docs)
   ≤ length docs)%nat.
Proof.
  induction docs as [|p docs IH]; [done|].
  destruct (decide (p_status p = "active")) as [Hs|Ha].
  - rewrite (filter_cons_True (λ p, p_status p = "active")) by done.
    rewrite (filter_cons_False (λ p, p_status p = "completed"))
      by (by rewrite Hs).
    rewrite (filter_cons_False (λ p, p_status p = "on-hold"))
      by (by rewrite Hs).
    simpl. lia.
  - rewrite (filter_cons_False (λ p, p_status p = "active")) by done.
    destruct (decide (p_status p = "completed")) as [Hs|Hc].
    + rewrite (filter_cons_True (λ p, p_status p = "completed")) by done.
      rewrite (filter_cons_False (λ p, p_status p = "on-hold"))
        by (by rewrite Hs).
      simpl. lia.
    + rewrite (filter_cons_False (λ p, p_status p = "completed")) by done.
      destruct (decide (p_status p = "on-hold")) as [Hs|Ho].
      * rewrite (filter_cons_True (λ p, p_status p = "on-hold")) by done.
        simpl. lia.
      * rewrite (filter_cons_False (λ p, p_status p = "on-hold")) by done.
        simpl. lia.
Qed.
End project_schema.







Section project_delete.
Import Store Entries.

Lemma collection_set_projects k docs st :
  collection k (ProjectWrites.set_projects docs st) = collection k st.
Proof. by destruct k. Qed.

Lemma getEntries_page k env st userId q page pagination :
  userId ≠ "" →
  getEntries k env st (Some userId) q = Ok (page, pagination) →
  ∀ pe, pe ∈ page →
    project pe = project_of st userId (e_projectId (entry pe)).
Proof.
  intros Hu. unfold getEntries. rewrite (authenticated_Some _ Hu).
  cbn [mbind result_bind mret result_ret]. cbv zeta.
  destruct (paginated _ _ _) as [entries pag]. intros [= <- _] pe.
  by intros (e & -> & _)%list_elem_of_fmap.
Qed.
End project_delete.

(** X18.  Deleting a project is a soft delete that orphans its entries.
    For an authenticated caller and a stored project of the caller that
    passes the schema, [deleteProject] succeeds and touches neither the
    entries nor the number of stored projects.  Afterwards the project
    cannot be read (404), no entry can be created on it, and the entries
    that point to it are still listed, now with [project: null], and are
    reported under "Unknown Project" / "Unknown Client" in the per-project
    breakdown. *)
Theorem deleted_project_orphans_entries (env : Env) (st : Store.State)
    (userId id : string) (p : Store.Project) :
  userId ≠ "" →
  Store.findOne (Store.by_id id userId) (Store.projects st) = Some p →
  ProjectWrites.validate p = [] →
  ∃ st',
    ProjectWrites.deleteProject env st (Some userId) id = (Ok (), st')
    ∧ length (Store.projects st') = length (Store.projects st)
    ∧ Store.incomeEntries st' = Store.incomeEntries st
    ∧ Store.expenseEntries st' = Store.expenseEntries st
    ∧ ProjectWrites.getProject st' (Some userId) id
      = Err (NotFoundError "Project not found")
    ∧ (∀ k env' body,
         Entries.b_projectId body = Some id →
         ∃ e, Entries.createEntry k env' st' (Some userId) body = (Err e, st'))
    ∧ (∀ k env' q page pagination,
         Entries.getEntries k env' st' (Some userId) q = Ok (page, pagination) →
         ∀ pe, pe ∈ page → Store.e_projectId (Entries.entry pe) = id →
               Entries.project pe = None)
    ∧ (∀ stat, Aggregate._id stat = id →
         Entries.projectName (Entries.project_row st' userId stat)
         = "Unknown Project"
         ∧ Entries.rowClientName (Entries.project_row st' userId stat)
           = "Unknown Client").
Proof.
  intros Hu Hf Hvalid.
  destruct (findOne_Some _ _ _ Hf) as [Hp Hm].
  apply matches_by_id_project in Hm as (Hid & Huser & Hact).
  set (dead := ProjectWrites.deactivated env p).
  set (docs' := replace Store.p_id dead (Store.projects st)).
  exists (ProjectWrites.set_projects docs' st).
  assert (Hgone : Store.findOne (Store.by_id id userId) docs' = None).
  { apply findOne_None. intros x Hx (Hxid & _ & Hxact)%matches_by_id_project.
    apply replace_elem in Hx as [-> | [_ Hne]]; [done|].
    destruct Hne. by rewrite Hxid. }
  split_and!.
  - unfold ProjectWrites.deleteProject. rewrite (authenticated_Some _ Hu).
    cbn [mbind result_bind]. rewrite Hf. cbn [found mbind result_bind].
    change (ProjectWrites.validate (ProjectWrites.deactivated env p))
      with (ProjectWrites.validate p).
    rewrite Hvalid. reflexivity.
  - apply replace_length.
  - done.
  - done.
  - unfold ProjectWrites.getProject. rewrite (authenticated_Some _ Hu).
    cbn [mbind result_bind Store.projects ProjectWrites.set_projects].
    by rewrite Hgone.
  - intros k env' body Hbody. unfold Entries.createEntry, Entries.create_doc.
    rewrite (authenticated_Some _ Hu). cbn [mbind result_bind]. cbv zeta.
    rewrite Hbody. cbn [default from_option Datatypes.id].
    match goal with |- context [match ?r with Ok _ => _ | Err _ => _ end] =>
      destruct r as [doc|e] eqn:Hd end; [|eexists; reflexivity].
    apply bind_Ok_inv in Hd as (? & _ & Hd).
    apply bind_Ok_inv in Hd as (? & _ & Hd).
    cbn [Store.projects ProjectWrites.set_projects] in Hd.
    rewrite Hgone in Hd. discriminate.
  - intros k env' q page pagination Hget pe Hpe Hpid.
    rewrite (getEntries_page _ _ _ _ _ _ _ Hu Hget pe Hpe), Hpid.
    unfold Entries.project_of.
    cbn [Store.projects ProjectWrites.set_projects]. by rewrite Hgone.
  - intros stat Hstat. unfold Entries.project_row. cbv zeta.
    cbn [Entries.projectName Entries.rowClientName Store.projects
         ProjectWrites.set_projects].
    rewrite Hstat, Hgone. done.
Qed.

Lemma deleted_project_orphans_entries_witness :
  ∃ st',
    ProjectWrites.deleteProject Sample.env Sample.ledger (Some "u1") "p1"
    = (Ok (), st')
    ∧ ProjectWrites.getProject st' (Some "u1") "p1"
      = Err (NotFoundError "Project not found")
    ∧ Store.incomeEntries st' = Store.incomeEntries Sample.ledger.
Proof.
  assert (Hu : "u1" ≠ "") by done.
  assert (Hf : Store.findOne (Store.by_id "p1" "u1")
                 (Store.projects Sample.ledger)
               = Some (Sample.project "p1" "u1" "Shop"))
    by (vm_compute; reflexivity).
  assert (Hv : ProjectWrites.validate (Sample.project "p1" "u1" "Shop") = [])
    by (vm_compute; reflexivity).
  destruct (deleted_project_orphans_entries Sample.env Sample.ledger "u1" "p1"
              _ Hu Hf Hv) as (st' & Hdel & _ & Hinc & _ & Hget & _).
  exists st'. split; [exact Hdel|]. split; [exact Hget | exact Hinc].
Defined.


Section more_listings.
Import Store.

Lemma Project_status (p : Project) : field p "status" = Some (VStr (p_status p)).
Proof. destruct p as [? ? ? ? ? ? ? ? [d|] ? ? ?]; vm_compute; done. Qed.

Lemma matches_scoped_project (userId : string) (p : Project) :
  matches (scoped userId) p ↔ p_userId p = userId ∧ p_isActive p = true.
Proof.
  destruct (Project_fields p) as (_ & Hu & Ha).
  rewrite matches_scoped, Hu, Ha. split.
  - by intros [[= ->] [= ->]].
  - by intros [-> ->].
Qed.

Lemma matches_insert_field `{Document D} (key v s : string)
    (q : gmap string Cond) (d : D) :
  q !! key = None → field d key = Some (VStr s) →
  matches (<[key := CEq (VStr v)]> q) d ↔ s = v ∧ matches q d.
Proof.
  intros Hq Hf. rewrite matches_insert by done.
  rewrite Hf. simpl. by rewrite String.eqb_eq.
Qed.

Lemma matches_set_if_field `{Document D} (c : bool) (key v s : string)
    (q : gmap string Cond) (d : D) :
  q !! key = None → field d key = Some (VStr s) →
  matches (set_if c key (VStr v) q) d ↔ (c = true → s = v) ∧ matches q d.
Proof.
  intros Hq Hf. destruct c; simpl.
  - rewrite matches_insert_field by done. tauto.
  - split; [by intros ? | tauto].
Qed.

Lemma matches_insert_bool `{Document D} (key : string) (v s : bool)
    (q : gmap string Cond) (d : D) :
  q !! key = None → field d key = Some (VBool s) →
  matches (<[key := CEq (VBool v)]> q) d ↔ s = v ∧ matches q d.
Proof.
  intros Hq Hf. rewrite matches_insert by done.
  rewrite Hf. simpl. destruct s, v; simpl; intuition congruence.
Qed.

Lemma paginated_length `{Document D} (q : gmap string Cond)
    (opts : Pagination.PaginationOptions) (docs : list D) :
  0 ≤ Pagination.limit opts →
  Z.of_nat (length (paginated q opts docs).1) ≤ Pagination.limit opts.
Proof.
  intros Hl. unfold paginated, Pagination.skip_limit. cbn [fst].
  rewrite length_take. lia.
Qed.

(** What the descriptor of the project listing selects. *)
Lemma projects_list_query_selects (userId : string) (q : ListQuery)
    (p : Project) :
  matches (Projects.list_query userId q) p ↔
  p_userId p = userId ∧ p_isActive p = true
  ∧ (∀ s, q_status q = Some s → includes Projects.statuses s = true →
          p_status p = s).
Proof.
  unfold Projects.list_query. cbv zeta.
  rewrite (matches_set_if_field (D:=Project) _ _ _ _ _ _
             (scoped_other userId "status" ltac:(done) ltac:(done))
             (Project_status p)).
  rewrite matches_scoped_project.
  destruct (q_status q) as [s|]; simpl.
  - rewrite andb_true_iff, negb_true_iff, String.eqb_neq. split.
    + intros (Hs & Hu & Ha). split_and!; try done.
      intros s' [= <-] Hin. apply Hs. split; [|done]. by intros ->.
    + intros (Hu & Ha & Hs). split_and!; try done.
      intros [_ Hin]. by apply Hs.
  - split; [intros (_ & Hu & Ha) | intros (Hu & Ha & _)]; by split_and!.
Qed.

(** What the descriptor of the savings listing selects. *)
Lemma savings_list_query_selects (userId : string) (q : ListQuery)
    (g : SavingsGoal) :
  matches (Savings.list_query userId q) g ↔
  g_userId g = userId ∧ g_isActive g = true
  ∧ (q_status q = Some "active" → g_isCompleted g = false)
  ∧ (q_status q = Some "completed" → g_isCompleted g = true)
  ∧ (∀ c, q_category q = Some c → c ≠ "" → g_category g = c)
  ∧ (∀ p, q_priority q = Some p → includes Savings.priorities p = true →
          g_priority g = p).
Proof.
  destruct (SavingsGoal_fields g) as (_ & _ & _ & Hc & _ & Hcat & Hprio).
  unfold Savings.list_query. cbv zeta.
  set (q1 := if truthy_str (q_status q) then _ else _).
  set (q2 := set_if _ "category" _ q1).
  assert (H1 : matches q1 g ↔
               g_userId g = userId ∧ g_isActive g = true
               ∧ (q_status q = Some "active" → g_isCompleted g = false)
               ∧ (q_status q = Some "completed" → g_isCompleted g = true)).
  { unfold q1. destruct (q_status q) as [s|]; simpl.
    - destruct (String.eqb_spec s "") as [-> | Hne]; simpl.
      + rewrite matches_scoped_goal. intuition congruence.
      + destruct (String.eqb_spec s "active") as [-> | Hna].
        * rewrite (matches_insert_bool (D:=SavingsGoal) _ _ _ _ _
                     (scoped_other userId "isCompleted" ltac:(done) ltac:(done))
                     Hc).
          rewrite matches_scoped_goal. intuition congruence.
        * destruct (String.eqb_spec s "completed") as [-> | Hnc].
          -- rewrite (matches_insert_bool (D:=SavingsGoal) _ _ _ _ _
                        (scoped_other userId "isCompleted" ltac:(done)
                           ltac:(done)) Hc).
             rewrite matches_scoped_goal. intuition congruence.
          -- rewrite matches_scoped_goal. intuition congruence.
    - rewrite matches_scoped_goal. intuition congruence. }
  assert (H1c : q1 !! "category" = None).
  { unfold q1. destruct (truthy_str _); [|by apply scoped_other].
    repeat case_match; rewrite ?lookup_insert_ne by done;
      by apply scoped_other. }
  assert (H1p : q1 !! "priority" = None).
  { unfold q1. destruct (truthy_str _); [|by apply scoped_other].
    repeat case_match; rewrite ?lookup_insert_ne by done;
      by apply scoped_other. }
  assert (H2p : q2 !! "priority" = None)
    by (unfold q2; by rewrite set_if_lookup_ne by done).
  rewrite (matches_set_if_field (D:=SavingsGoal) _ _ _ _ _ _ H2p Hprio). unfold q2.
  rewrite (matches_set_if_field (D:=SavingsGoal) _ _ _ _ _ _ H1c Hcat), H1.
  assert (Hcategory : (truthy_str (q_category q) = true →
                       g_category g = default "" (q_category q))
                      ↔ ∀ c, q_category q = Some c → c ≠ "" → g_category g = c).
  { destruct (q_category q) as [c|]; simpl.
    - rewrite negb_true_iff, String.eqb_neq. split.
      + intros Hc' c' [= <-]. done.
      + intros Hc' Hne. by apply Hc'.
    - split; [by intros _ c' | by intros _]. }
  assert (Hpriority : (truthy_str (q_priority q)
                       && includes Savings.priorities
                            (default "" (q_priority q)) = true →
                       g_priority g = default "" (q_priority q))
                      ↔ ∀ p, q_priority q = Some p →
                             includes Savings.priorities p = true →
                             g_priority g = p).
  { destruct (q_priority q) as [p|]; simpl.
    - rewrite andb_true_iff, negb_true_iff, String.eqb_neq. split.
      + intros Hp' p' [= <-] Hin. apply Hp'. split; [|done]. by intros ->.
      + intros Hp' [_ Hin]. by apply Hp'.
    - split; [by intros _ p' | by intros _]. }
  rewrite Hcategory, Hpriority. tauto.
Qed.
End more_listings.

(** X19.  What the savings listing returns.  For an authenticated caller
    [getSavingsGoals] succeeds with a page of at most [limit] goals, all of
    them selected by the descriptor, and [total] counts the selected goals.
    The descriptor selects the caller's active goals, open ones for
    [status=active], completed ones for [status=completed] (any other status
    selects both), with the requested priority when it is one of the enum,
    and with the requested category whatever it is: a category that no
    stored goal carries empties the listing. *)
Theorem savings_listing_selects (st : Store.State) (userId : string)
    (q : ListQuery) :
  userId ≠ "" →
  let selected (g : Store.SavingsGoal) :=
    Store.g_userId g = userId ∧ Store.g_isActive g = true
    ∧ (q_status q = Some "active" → Store.g_isCompleted g = false)
    ∧ (q_status q = Some "completed" → Store.g_isCompleted g = true)
    ∧ (∀ c, q_category q = Some c → c ≠ "" → Store.g_category g = c)
    ∧ (∀ p, q_priority q = Some p → includes Savings.priorities p = true →
            Store.g_priority g = p) in
  let found :=
    Store.find (Savings.list_query userId q) (Store.savingsGoals st) in
  ∃ page pagination,
    Savings.getSavingsGoals st (Some userId) q = Ok (page, pagination)
    ∧ (∀ g, g ∈ found ↔ g ∈ Store.savingsGoals st ∧ selected g)
    ∧ Pagination.r_total pagination = Z.of_nat (length found)
    ∧ Z.of_nat (length page) ≤ Pagination.r_limit pagination ≤ 100
    ∧ (∀ g, g ∈ page → g ∈ found)
    ∧ (∀ c, q_category q = Some c → c ≠ "" →
         (∀ g, g ∈ Store.savingsGoals st → Store.g_category g ≠ c) →
         page = [] ∧ Pagination.r_total pagination = 0).
Proof.
  intros Hu selected found. unfold Savings.getSavingsGoals.
  rewrite (authenticated_Some _ Hu). cbn [mbind result_bind mret result_ret].
  destruct (paginated (Savings.list_query userId q) (pagination_of q)
              (Store.savingsGoals st)) as [page pagination] eqn:Hp.
  assert (Hpage : page = (paginated (Savings.list_query userId q)
                            (pagination_of q) (Store.savingsGoals st)).1)
    by (by rewrite Hp).
  assert (Hpag : pagination = (paginated (Savings.list_query userId q)
                                 (pagination_of q) (Store.savingsGoals st)).2)
    by (by rewrite Hp).
  clear Hp.
  pose proof (getPaginationOptions_bounds (q_page q) (q_limit q) (q_sortBy q)
                (q_sortOrder q)) as [_ Hlimit].
  assert (Hfound : ∀ g, g ∈ found ↔ g ∈ Store.savingsGoals st ∧ selected g).
  { intros g. unfold found, Store.find. rewrite list_elem_of_filter.
    rewrite savings_list_query_selects. unfold selected. tauto. }
  assert (Hin : ∀ g, g ∈ page → g ∈ found).
  { intros g Hg. rewrite Hpage in Hg.
    apply paginated_found in Hg as [Hg Hm].
    unfold found, Store.find. by apply list_elem_of_filter. }
  exists page, pagination. split_and!; try done.
  - by rewrite Hpag.
  - rewrite Hpag, Hpage. apply paginated_length. unfold pagination_of. lia.
  - rewrite Hpag. unfold paginated, pagination_of.
    cbn [snd Pagination.r_limit Pagination.calculatePagination]. lia.
  - intros c Hc Hne Hnone.
    assert (Hempty : found = []).
    { destruct found as [|g rest] eqn:Hf; [done|].
      assert (Hg : g ∈ g :: rest) by left.
      apply Hfound in Hg as (Hg & _ & _ & _ & _ & Hcat & _).
      destruct (Hnone g Hg). by apply Hcat. }
    split.
    + destruct page as [|g rest]; [done|].
      assert (Hg : g ∈ found) by (apply Hin; left).
      rewrite Hempty in Hg. by apply elem_of_nil in Hg.
    + rewrite Hpag. unfold paginated. cbn [snd Pagination.r_total
        Pagination.calculatePagination]. unfold Store.countDocuments.
      fold found. by rewrite Hempty.
Qed.

Lemma savings_listing_selects_witness :
  ∃ page pagination,
    Savings.getSavingsGoals (Sample.goals [Sample.goal]) (Some "u1")
      (set_category (Some "bogus") no_query) = Ok (page, pagination)
    ∧ page = [] ∧ Pagination.r_total pagination = 0.
Proof.
  assert (Hu : "u1" ≠ "") by done.
  destruct (savings_listing_selects (Sample.goals [Sample.goal]) "u1"
              (set_category (Some "bogus") no_query) Hu)
    as (page & pagination & Hget & _ & _ & _ & _ & Hnone).
  exists page, pagination. split; [exact Hget|].
  apply (Hnone "bogus"); [reflexivity | done |].
  intros g Hg. apply list_elem_of_In in Hg. vm_compute in Hg.
  destruct Hg as [<- | []]. vm_compute. discriminate.
Defined.

(** X20.  What the project listings return.  [getProjects] selects the
    caller's active projects, with the requested status when it is one of
    the enum; [getProjectsByStatus] with a status of the enum selects the
    caller's active projects of that status.  Both return a page of at most
    [limit] selected projects and count the selected projects in [total]. *)
Theorem projects_listing_selects (st : Store.State) (userId : string)
    (q : ListQuery) (status : string) :
  userId ≠ "" →
  (∃ page pagination,
     Projects.getProjects st (Some userId) q = Ok (page, pagination)
     ∧ Pagination.r_total pagination
       = Z.of_nat (length (Store.find (Projects.list_query userId q)
                             (Store.projects st)))
     ∧ Z.of_nat (length page) ≤ Pagination.r_limit pagination ≤ 100
     ∧ (∀ p, p ∈ page →
          p ∈ Store.projects st ∧ Store.p_userId p = userId
          ∧ Store.p_isActive p = true
          ∧ (∀ s, q_status q = Some s →
                  includes Projects.statuses s = true →
                  Store.p_status p = s)))
  ∧ (∀ p, p ∈ Store.find (Projects.list_query userId q) (Store.projects st)
          ↔ p ∈ Store.projects st ∧ Store.p_userId p = userId
            ∧ Store.p_isActive p = true
            ∧ (∀ s, q_status q = Some s →
                    includes Projects.statuses s = true →
                    Store.p_status p = s))
  ∧ (includes Projects.statuses status = true →
     ∃ page pagination,
       Projects.getProjectsByStatus st (Some userId) status q
       = Ok (page, pagination)
       ∧ Pagination.r_total pagination
         = Z.of_nat
             (length (filter (λ p, Store.p_userId p = userId
                                   ∧ Store.p_isActive p = true
                                   ∧ Store.p_status p = status)
                        (Store.projects st)))
       ∧ Z.of_nat (length page) ≤ Pagination.r_limit pagination ≤ 100
       ∧ (∀ p, p ∈ page →
            p ∈ Store.projects st ∧ Store.p_userId p = userId
            ∧ Store.p_isActive p = true ∧ Store.p_status p = status)).
Proof.
  intros Hu.
  pose proof (getPaginationOptions_bounds (q_page q) (q_limit q) (q_sortBy q)
                (q_sortOrder q)) as [_ Hlimit].
  assert (Hstatus : ∀ p, Store.matches (Projects.status_query userId status) p
                         ↔ Store.p_userId p = userId
                           ∧ Store.p_isActive p = true
                           ∧ Store.p_status p = status).
  { intros p. unfold Projects.status_query.
    rewrite (matches_insert_field (D:=Store.Project) _ _ _ _ _
               (scoped_other userId "status" ltac:(done) ltac:(done))
               (Project_status p)).
    rewrite matches_scoped_project. tauto. }
  split_and!.
  - unfold Projects.getProjects. rewrite (authenticated_Some _ Hu).
    cbn [mbind result_bind mret result_ret].
    destruct (paginated _ _ _) as [page pagination] eqn:Hp.
    exists page, pagination. split_and!; try done.
    + by replace pagination with (paginated (Projects.list_query userId q)
        (pagination_of q) (Store.projects st)).2 by (by rewrite Hp).
    + replace page with (paginated (Projects.list_query userId q)
        (pagination_of q) (Store.projects st)).1 by (by rewrite Hp).
      replace pagination with (paginated (Projects.list_query userId q)
        (pagination_of q) (Store.projects st)).2 by (by rewrite Hp).
      apply paginated_length. unfold pagination_of. lia.
    + replace pagination with (paginated (Projects.list_query userId q)
        (pagination_of q) (Store.projects st)).2 by (by rewrite Hp).
      unfold paginated, pagination_of.
      cbn [snd Pagination.r_limit Pagination.calculatePagination]. lia.
    + intros p Hin.
      replace page with (paginated (Projects.list_query userId q)
        (pagination_of q) (Store.projects st)).1 in Hin by (by rewrite Hp).
      apply paginated_found in Hin as [Hin Hm].
      apply projects_list_query_selects in Hm. tauto.
  - intros p. unfold Store.find. rewrite list_elem_of_filter.
    rewrite projects_list_query_selects. tauto.
  - intros Hvalid. unfold Projects.getProjectsByStatus.
    rewrite (authenticated_Some _ Hu). cbn [mbind result_bind].
    rewrite Hvalid. cbn [negb throw_if mbind result_bind mret result_ret].
    destruct (paginated _ _ _) as [page pagination] eqn:Hp.
    exists page, pagination. split_and!; try done.
    + replace pagination with (paginated (Projects.status_query userId status)
        (pagination_of q) (Store.projects st)).2 by (by rewrite Hp).
      unfold paginated. cbn [snd Pagination.r_total
        Pagination.calculatePagination]. unfold Store.countDocuments, Store.find.
      f_equal. f_equal. apply list_filter_iff. intros p. apply Hstatus.
    + replace page with (paginated (Projects.status_query userId status)
        (pagination_of q) (Store.projects st)).1 by (by rewrite Hp).
      replace pagination with (paginated (Projects.status_query userId status)
        (pagination_of q) (Store.projects st)).2 by (by rewrite Hp).
      apply paginated_length. unfold pagination_of. lia.
    + replace pagination with (paginated (Projects.status_query userId status)
        (pagination_of q) (Store.projects st)).2 by (by rewrite Hp).
      unfold paginated, pagination_of.
      cbn [snd Pagination.r_limit Pagination.calculatePagination]. lia.
    + intros p Hin.
      replace page with (paginated (Projects.status_query userId status)
        (pagination_of q) (Store.projects st)).1 in Hin by (by rewrite Hp).
      apply paginated_found in Hin as [Hin Hm].
      apply Hstatus in Hm. tauto.
Qed.

Lemma projects_listing_selects_witness :
  ∃ page pagination,
    Projects.getProjectsByStatus Sample.ledger (Some "u1") "active" no_query
    = Ok (page, pagination)
    ∧ Pagination.r_total pagination = 1.
Proof.
  assert (Hu : "u1" ≠ "") by done.
  destruct (projects_listing_selects Sample.ledger "u1" no_query "active" Hu)
    as (_ & _ & Hby).
  destruct (Hby eq_refl) as (page & pagination & Hget & Htotal & _).
  exists page, pagination. split; [exact Hget|].
  rewrite Htotal. vm_compute. reflexivity.
Defined.


(** ** The date, array, string and number helpers *)

Section month_ranges.
Import JSDate Helpers.

Lemma february (Y : Z) :
  days_from_civil Y 3 1 - days_from_civil Y 2 1 = if is_leap Y then 29 else 28.
Proof.
  unfold days_from_civil, is_leap.
  change ((2 + 9) mod 12) with 11. change ((3 + 9) mod 12) with 0.
  change ((153 * 11 + 2) / 5) with 337. change ((153 * 0 + 2) / 5) with 0.
  change (3 <=? 2) with false. change (2 <=? 2) with true. cbv iota.
  destruct (Y mod 4 =? 0) eqn:H4; destruct (Y mod 100 =? 0) eqn:H100;
    destruct (Y mod 400 =? 0) eqn:H400; cbn [negb andb orb];
    rewrite ?Z.eqb_eq, ?Z.eqb_neq in *;
    Z.div_mod_to_equations; lia.
Qed.

(** The first of the next month comes [days_in_month] days after the first
    of a month. *)
Lemma month_length (Y m : Z) :
  1 ≤ m ≤ 12 →
  days_from_civil (Y + m / 12) (m mod 12 + 1) 1 - days_from_civil Y m 1
  = days_in_month Y m.
Proof.
  intros Hm.
  assert (m = 1 ∨ m = 2 ∨ m = 3 ∨ m = 4 ∨ m = 5 ∨ m = 6 ∨ m = 7 ∨ m = 8
          ∨ m = 9 ∨ m = 10 ∨ m = 11 ∨ m = 12) as Hcases by lia.
  destruct Hcases as [-> | [-> | Hcases]].
  - change (1 / 12) with 0. change (1 mod 12 + 1) with 2.
    rewrite Z.add_0_r. unfold days_from_civil, days_in_month. simpl.
    Z.div_mod_to_equations. lia.
  - change (2 / 12) with 0. change (2 mod 12 + 1) with 3.
    rewrite Z.add_0_r, february. reflexivity.
  - repeat (destruct Hcases as [-> | Hcases]; [
      unfold days_from_civil, days_in_month; simpl;
      rewrite ?Z.add_0_r; Z.div_mod_to_equations; lia|]).
    subst m. change (12 / 12) with 1. change (12 mod 12 + 1) with 1.
    unfold days_from_civil, days_in_month. simpl.
    replace (Y + 1 - 1) with Y by lia. Z.div_mod_to_equations. lia.
Qed.

Lemma year_length (Y : Z) :
  days_from_civil (Y + 1) 1 1 - days_from_civil Y 1 1
  = if is_leap Y then 366 else 365.
Proof.
  pose proof (february Y) as Hfeb.
  assert (H1 : days_from_civil Y 2 1 - days_from_civil Y 1 1 = 31)
    by (unfold days_from_civil; simpl; Z.div_mod_to_equations; lia).
  assert (H2 : days_from_civil (Y + 1) 1 1 - days_from_civil Y 3 1 = 306).
  { unfold days_from_civil. simpl. replace (Y + 1 - 1) with Y by lia.
    Z.div_mod_to_equations. lia. }
  destruct (is_leap Y); lia.
Qed.

(** The range of a month in terms of day numbers. *)
Lemma month_range_days (tz year month : Z) :
  1 ≤ month ≤ 12 →
  r_start (getMonthRange tz year month)
  = UTC tz (days_from_civil (full_year year) month 1 * msPerDay)
  ∧ r_end (getMonthRange tz year month) + 1
    - r_start (getMonthRange tz year month)
    = days_in_month (full_year year) month * msPerDay.
Proof.
  intros Hm.
  unfold getMonthRange, Date_local, MakeDay, UTC, MakeTime, msPerDay,
    msPerMinute.
  cbn [r_start r_end].
  set (Y := full_year year).
  assert (Hq : (month - 1) / 12 = 0) by (apply Z.div_small; lia).
  assert (Hr : (month - 1) mod 12 + 1 = month)
    by (rewrite Z.mod_small by lia; lia).
  rewrite Hq, Hr, !Z.add_0_r.
  pose proof (month_length Y month Hm) as Hlen.
  set (d1 := days_from_civil (Y + month / 12) _ _) in *.
  set (d0 := days_from_civil Y month 1) in *.
  clearbody d0 d1. split; lia.
Qed.
End month_ranges.



Section arrays.
Import Helpers.
Context {A : Type} `{EqDecision A}.

Lemma removeDuplicates_snoc (array : list A) (x : A) :
  removeDuplicates (array ++ [x])
  = if decide (x ∈ removeDuplicates array) then removeDuplicates array
    else removeDuplicates array ++ [x].
Proof. unfold removeDuplicates. by rewrite foldl_app. Qed.

Lemma removeDuplicates_elem (array : list A) (x : A) :
  x ∈ removeDuplicates array ↔ x ∈ array.
Proof.
  induction array as [|y array IH] using rev_ind; [done|].
  rewrite removeDuplicates_snoc. case_decide as Hy.
  - rewrite elem_of_app, list_elem_of_singleton, IH. split; [tauto|].
    intros [? | ->]; [done | by apply IH].
  - by rewrite !elem_of_app, IH.
Qed.

Lemma removeDuplicates_NoDup (array : list A) : NoDup (removeDuplicates array).
Proof.
  induction array as [|y array IH] using rev_ind; [apply NoDup_nil_2|].
  rewrite removeDuplicates_snoc. case_decide as Hy; [done|].
  apply NoDup_app. split_and!; [done | | apply NoDup_singleton].
  by intros x Hx ->%list_elem_of_singleton.
Qed.

Lemma removeDuplicates_sublist (array : list A) :
  removeDuplicates array `sublist_of` array.
Proof.
  induction array as [|y array IH] using rev_ind; [done|].
  rewrite removeDuplicates_snoc. case_decide as Hy.
  - by apply sublist_inserts_r.
  - by apply sublist_app.
Qed.

Lemma removeDuplicates_fixed (array : list A) :
  NoDup array → removeDuplicates array = array.
Proof.
  induction array as [|y array IH] using rev_ind; [done|].
  intros (Hnd & Hy & _)%NoDup_app. rewrite removeDuplicates_snoc, IH by done.
  rewrite decide_False; [done|]. intros Hin. apply (Hy _ Hin). left.
Qed.

Lemma removeDuplicates_head (x : A) (rest : list A) :
  ∃ rest', removeDuplicates (x :: rest) = x :: rest'.
Proof.
  unfold removeDuplicates. cbn [foldl].
  destruct (decide (x ∈ [])) as [Hin|_]; [by apply elem_of_nil in Hin|].
  change ([] ++ [x]) with [x].
  assert (Hgen : ∀ tail,
            ∃ rest',
              foldl (λ set x, if decide (x ∈ set) then set else set ++ [x])
                (x :: tail) rest = x :: rest').
  { induction rest as [|y rest IH]; intros tail; [by eexists|].
    cbn [foldl]. destruct (decide (y ∈ x :: tail)); [apply IH|].
    change ((x :: tail) ++ [y]) with (x :: (tail ++ [y])). apply IH. }
  apply Hgen.
Qed.
End arrays.

(** X22.  [removeDuplicates] keeps the first occurrence of every element:
    the result has no duplicates, has exactly the elements of the array, in
    the order of the array (it is a sub-list of it), leaves a duplicate-free
    array as it is, and is therefore idempotent. *)
Theorem removeDuplicates_keeps_first {A : Type} `{EqDecision A}
    (array : list A) :
  NoDup (Helpers.removeDuplicates array)
  ∧ (∀ x, x ∈ Helpers.removeDuplicates array ↔ x ∈ array)
  ∧ Helpers.removeDuplicates array `sublist_of` array
  ∧ (NoDup array → Helpers.removeDuplicates array = array)
  ∧ Helpers.removeDuplicates (Helpers.removeDuplicates array)
    = Helpers.removeDuplicates array
  ∧ (∀ x rest, array = x :: rest →
       ∃ rest', Helpers.removeDuplicates array = x :: rest').
Proof.
  split_and!.
  - apply removeDuplicates_NoDup.
  - apply removeDuplicates_elem.
  - apply removeDuplicates_sublist.
  - apply removeDuplicates_fixed.
  - apply removeDuplicates_fixed, removeDuplicates_NoDup.
  - intros x rest ->. apply removeDuplicates_head.
Qed.

Section grouping.
Import Helpers.
Context {T : Type}.
Variable key : T → string.

Lemma groupBy_snoc (array : list T) (item : T) :
  groupBy key (array ++ [item])
  = <[key item := default [] (groupBy key array !! key item) ++ [item]]>
      (groupBy key array).
Proof. unfold groupBy. by rewrite foldl_app. Qed.

Lemma groupBy_lookup (array : list T) (k : string) :
  groupBy key array !! k
  = match filter (λ item, key item = k) array with
    | [] => None
    | items => Some items
    end.
Proof.
  induction array as [|item array IH] using rev_ind; [done|].
  rewrite groupBy_snoc, filter_app.
  destruct (decide (key item = k)) as [<- | Hne].
  - rewrite lookup_insert_eq, IH, filter_cons_True by done.
    rewrite filter_nil.
    by destruct (filter (λ item0, key item0 = key item) array).
  - rewrite lookup_insert_ne by done.
    rewrite filter_cons_False, filter_nil, app_nil_r by done. apply IH.
Qed.
End grouping.



Section strings.
Import Helpers.

Lemma lowered_kept (c : ascii) :
  let c' := toLowerCase_char c in
  is_word c' || is_blank c' = true →
  in_range 97 122 c' || in_range 48 57 c' || (nat_of_ascii c' =? 95)%nat
  || is_blank c' = true.
Proof.
  destruct c as [[] [] [] [] [] [] [] []]; vm_compute; done.
Qed.

Lemma filtered_chars (keep : ascii → bool) (s : string) :
  Forall (λ c, keep c = true) (list_ascii_of_string (filter_string keep s)).
Proof.
  induction s as [|c s IH]; simpl; [constructor|].
  destruct (keep c) eqn:Hc; [|done]. simpl. by constructor.
Qed.

Lemma mapped_chars (f : ascii → ascii) (s : string) :
  Forall (λ c, ∃ c0, c = f c0) (list_ascii_of_string (map_string f s)).
Proof.
  induction s as [|c s IH]; simpl; constructor; [by exists c | done].
Qed.

Lemma filter_string_sub (keep : ascii → bool) (P : ascii → Prop) (s : string) :
  Forall P (list_ascii_of_string s) →
  Forall P (list_ascii_of_string (filter_string keep s)).
Proof.
  induction s as [|c s IH]; simpl; [done|].
  intros [Hc Hs]%Forall_cons. destruct (keep c); [|by apply IH].
  simpl. constructor; [done | by apply IH].
Qed.

(** The characters that survive the lower-casing and the first
    replacement. *)
Lemma cleaned_chars (str : string) :
  Forall (λ c, in_range 97 122 c || in_range 48 57 c
               || (nat_of_ascii c =? 95)%nat || is_blank c = true)
    (list_ascii_of_string
       (filter_string (λ c, is_word c || is_blank c)
          (map_string toLowerCase_char str))).
Proof.
  pose proof (filtered_chars (λ c, is_word c || is_blank c)
                (map_string toLowerCase_char str)) as Hkept.
  pose proof (filter_string_sub (λ c, is_word c || is_blank c) _ _
                (mapped_chars toLowerCase_char str)) as Hlow.
  rewrite Forall_forall in Hkept, Hlow. apply Forall_forall. intros c Hc.
  destruct (Hlow c Hc) as [c0 ->]. apply lowered_kept. by apply Hkept.
Qed.

Lemma dashes_chars (P : ascii → Prop) (in_run : bool) (s : string) :
  P "-"%char →
  Forall (λ c, is_blank c = true ∨ P c) (list_ascii_of_string s) →
  Forall P (list_ascii_of_string (dashes in_run s)).
Proof.
  intros Hdash. revert in_run. induction s as [|c s IH]; intros in_run; simpl;
    [constructor|].
  intros [Hc Hs]%Forall_cons.
  destruct (is_blank c) eqn:Hb.
  - destruct in_run; simpl; [by apply IH|]. constructor; [done | by apply IH].
  - simpl. constructor; [|by apply IH]. by destruct Hc.
Qed.

Lemma dashes_length (in_run : bool) (s : string) :
  (String.length (dashes in_run s) ≤ String.length s)%nat.
Proof.
  revert in_run. induction s as [|c s IH]; intros in_run; simpl; [done|].
  destruct (is_blank c); [destruct in_run|]; simpl;
    [pose proof (IH true) | pose proof (IH true) | pose proof (IH false)]; lia.
Qed.

Lemma filter_string_length (keep : ascii → bool) (s : string) :
  (String.length (filter_string keep s) ≤ String.length s)%nat.
Proof.
  induction s as [|c s IH]; simpl; [done|]. destruct (keep c); simpl; lia.
Qed.

Lemma map_string_length (f : ascii → ascii) (s : string) :
  String.length (map_string f s) = String.length s.
Proof. induction s as [|c s IH]; simpl; [done | by rewrite IH]. Qed.

(** No two dashes in a row come out of a string that holds none. *)
Lemma dashes_single (s : string) :
  Forall (λ c, c ≠ "-"%char) (list_ascii_of_string s) →
  ∀ in_run i,
    (in_run = true → String.get 0 (dashes in_run s) ≠ Some "-"%char)
    ∧ (String.get i (dashes in_run s) = Some "-"%char →
       String.get (S i) (dashes in_run s) ≠ Some "-"%char).
Proof.
  induction s as [|c s IH]; intros Hs in_run i; simpl; [done|].
  apply Forall_cons in Hs as [Hc Hs].
  destruct (is_blank c) eqn:Hb.
  - destruct in_run.
    + apply (IH Hs true i).
    + split; [done|]. destruct i as [|i]; simpl.
      * intros _. by apply (IH Hs true 0%nat).
      * apply (IH Hs true i).
  - split.
    + intros _. simpl. by intros [= ->].
    + destruct i as [|i]; simpl; [by intros [= ->]|].
      apply (IH Hs false i).
Qed.

Lemma dashes_no_blank (in_run : bool) (s : string) :
  Forall (λ c, is_blank c = false) (list_ascii_of_string s) →
  dashes in_run s = s.
Proof.
  revert in_run. induction s as [|c s IH]; intros in_run; simpl; [done|].
  intros [Hc Hs]%Forall_cons. rewrite Hc. by rewrite IH.
Qed.

Lemma substring_length (n : nat) (s : string) :
  String.length (String.substring 0 n s) = Nat.min n (String.length s).
Proof.
  revert n. induction s as [|c s IH]; intros [|n]; simpl; try done.
  by rewrite IH.
Qed.

Lemma substring_zero (s : string) : String.substring 0 0 s = "".
Proof. by destruct s. Qed.

Lemma substring_prefix (n : nat) (s t : string) :
  (n ≤ String.length s)%nat →
  String.substring 0 n (String.substring 0 n s +:+ t)
  = String.substring 0 n s.
Proof.
  revert n. induction s as [|c s IH]; intros [|n] Hn.
  - by rewrite !substring_zero.
  - simpl in Hn. lia.
  - by rewrite !substring_zero.
  - simpl in Hn. simpl. f_equal. apply IH. lia.
Qed.

Lemma append_length (s1 s2 : string) :
  String.length (s1 +:+ s2) = (String.length s1 + String.length s2)%nat.
Proof. induction s1 as [|c s1 IH]; simpl; [done | by rewrite IH]. Qed.
End strings.


(** X25.  [truncate] cuts a string that is longer than [length] down to
    its first [length] characters and appends three dots, so that the result
    has [max(0, length) + 3] characters, which can be more than the string
    had; a string of at most [length] characters is returned as it is. *)
Theorem truncate_length (str : string) (length : Z) :
  (Z.of_nat (String.length str) ≤ length → Helpers.truncate str length = str)
  ∧ (length < Z.of_nat (String.length str) →
     Helpers.truncate str length
     = String.substring 0 (Z.to_nat length) str +:+ "..."
     ∧ Z.of_nat (String.length (Helpers.truncate str length))
       = Z.max 0 length + 3
     ∧ String.substring 0 (Z.to_nat length) (Helpers.truncate str length)
       = String.substring 0 (Z.to_nat length) str)
  ∧ Z.of_nat (String.length (Helpers.truncate str length))
    ≤ Z.max (Z.of_nat (String.length str)) (Z.max 0 length + 3).
Proof.
  unfold Helpers.truncate.
  destruct (length <? Z.of_nat (String.length str)) eqn:Hlt.
  - apply Z.ltb_lt in Hlt.
    assert (Hlen : Z.of_nat (String.length
                     (String.substring 0 (Z.to_nat length) str +:+ "..."))
                   = Z.max 0 length + 3).
    { rewrite append_length, substring_length.
      change (String.length "...") with 3%nat. lia. }
    split_and!; [intros; lia | | rewrite Hlen; lia].
    intros _. split_and!; [done | done |].
    apply substring_prefix. lia.
  - apply Z.ltb_ge in Hlt. split_and!; [done | intros; lia | lia].
Qed.




Section calendar_round_trip.
Import JSDate JSString Helpers.

Lemma is_leap_period (y k : Z) : is_leap (y + 400 * k) = is_leap y.
Proof.
  unfold is_leap.
  replace ((y + 400 * k) mod 4) with (y mod 4)
    by (rewrite <- (Z.mod_add y (100 * k) 4) by lia; f_equal; lia).
  replace ((y + 400 * k) mod 100) with (y mod 100)
    by (rewrite <- (Z.mod_add y (4 * k) 100) by lia; f_equal; lia).
  replace ((y + 400 * k) mod 400) with (y mod 400)
    by (rewrite <- (Z.mod_add y k 400) by lia; f_equal; lia).
  done.
Qed.

(** Year and day of the year are recovered from the day of the era, for
    every day of the 400 years of an era (years starting in March). *)
Lemma era_round_trip (yoe doy : Z) :
  0 ≤ yoe < 400 →
  0 ≤ doy ≤ 364 + (if is_leap (yoe + 1) then 1 else 0) →
  let doe := yoe * 365 + yoe / 4 - yoe / 100 + doy in
  let yoe' := (doe - doe / 1460 + doe / 36524 - doe / 146096) / 365 in
  0 ≤ doe < 146097 ∧ yoe' = yoe
  ∧ doe - (365 * yoe' + yoe' / 4 - yoe' / 100) = doy.
Proof.
  intros Hyoe Hdoy.
  set (P := λ x : Z,
         let yoe := x / 366 in
         let doy := x mod 366 in
         if doy <=? 364 + (if is_leap (yoe + 1) then 1 else 0) then
           let doe := yoe * 365 + yoe / 4 - yoe / 100 + doy in
           let yoe' := (doe - doe / 1460 + doe / 36524 - doe / 146096) / 365 in
           (0 <=? doe) && (doe <? 146097) && (yoe' =? yoe)
           && (doe - (365 * yoe' + yoe' / 4 - yoe' / 100) =? doy)
         else true).
  assert (HP : P (yoe * 366 + doy) = true).
  { apply (checked_below P 146400); [vm_compute; reflexivity|].
    destruct (is_leap (yoe + 1)); lia. }
  unfold P in HP. cbv zeta in HP.
  assert (Hq : (yoe * 366 + doy) / 366 = yoe).
  { symmetry. apply (Z.div_unique _ _ _ doy); [|lia].
    destruct (is_leap (yoe + 1)); lia. }
  assert (Hr : (yoe * 366 + doy) mod 366 = doy).
  { symmetry. apply (Z.mod_unique _ _ yoe); [|lia].
    destruct (is_leap (yoe + 1)); lia. }
  rewrite Hq, Hr in HP.
  assert (Hle : (doy <=? 364 + (if is_leap (yoe + 1) then 1 else 0)) = true)
    by (apply Z.leb_le; lia).
  rewrite Hle in HP.
  apply andb_true_iff in HP as [[[H0 H1]%andb_true_iff H2]%andb_true_iff H3].
  apply Z.leb_le in H0. apply Z.ltb_lt in H1. apply Z.eqb_eq in H2, H3.
  cbv zeta. done.
Qed.

(** Month and day of the month are recovered from the day of the year. *)
Lemma month_round_trip (m d : Z) :
  1 ≤ m ≤ 12 → 1 ≤ d ≤ 31 →
  (m = 4 ∨ m = 6 ∨ m = 9 ∨ m = 11 → d ≤ 30) → (m = 2 → d ≤ 29) →
  let mp := (m + 9) mod 12 in
  let doy := (153 * mp + 2) / 5 + d - 1 in
  let mp' := (5 * doy + 2) / 153 in
  mp' = mp ∧ doy - (153 * mp' + 2) / 5 + 1 = d
  ∧ (if mp' <? 10 then mp' + 3 else mp' - 9) = m
  ∧ 0 ≤ doy ∧ (3 ≤ m → doy ≤ 305) ∧ (m = 1 → doy ≤ 336)
  ∧ (m = 2 → doy = 336 + d).
Proof.
  intros Hm Hd H30 H29.
  assert (m = 1 ∨ m = 2 ∨ m = 3 ∨ m = 4 ∨ m = 5 ∨ m = 6 ∨ m = 7 ∨ m = 8
          ∨ m = 9 ∨ m = 10 ∨ m = 11 ∨ m = 12) as Hcases by lia.
  assert (Hgen : ∀ mp c : Z,
            0 ≤ mp ≤ 11 → c = (153 * mp + 2) / 5 →
            d ≤ (153 * (mp + 1) + 2) / 5 - c →
            let doy := c + d - 1 in
            (5 * doy + 2) / 153 = mp).
  { intros mp c Hmp -> Hlen. cbv zeta. symmetry.
    apply (Z.div_unique _ _ _
             (5 * ((153 * mp + 2) / 5 + d - 1) + 2 - 153 * mp)); [|lia].
    pose proof (Z.div_mod (153 * mp + 2) 5 ltac:(lia)).
    pose proof (Z.mod_pos_bound (153 * mp + 2) 5 ltac:(lia)).
    pose proof (Z.div_mod (153 * (mp + 1) + 2) 5 ltac:(lia)).
    pose proof (Z.mod_pos_bound (153 * (mp + 1) + 2) 5 ltac:(lia)).
    lia. }
  cbv zeta.
  repeat (destruct Hcases as [-> | Hcases];
    [match goal with
     | |- context [(?m + 9) mod 12] =>
         let mp := eval vm_compute in ((m + 9) mod 12) in
         change ((m + 9) mod 12) with mp;
         let c := eval vm_compute in ((153 * mp + 2) / 5) in
         change ((153 * mp + 2) / 5) with c;
         rewrite (Hgen mp c ltac:(lia) ltac:(reflexivity)
                    ltac:(vm_compute (_ / 5); lia));
         change ((153 * mp + 2) / 5) with c;
         vm_compute (_ <? 10); split_and!; lia
     end|]).
  subst m.
  change ((12 + 9) mod 12) with 9. change ((153 * 9 + 2) / 5) with 275.
  rewrite (Hgen 9 275 ltac:(lia) ltac:(reflexivity)
             ltac:(vm_compute (_ / 5); lia)).
  change ((153 * 9 + 2) / 5) with 275.
  vm_compute (_ <? 10). split_and!; lia.
Qed.

Lemma days_in_month_bounds (y m : Z) :
  28 ≤ days_in_month y m ≤ 31
  ∧ (m = 4 ∨ m = 6 ∨ m = 9 ∨ m = 11 → days_in_month y m = 30)
  ∧ (m = 2 → days_in_month y m = if is_leap y then 29 else 28).
Proof.
  unfold days_in_month.
  destruct (m =? 2) eqn:H2; [apply Z.eqb_eq in H2 | apply Z.eqb_neq in H2].
  - destruct (is_leap y); split_and!; try lia; done.
  - destruct ((m =? 4) || (m =? 6) || (m =? 9) || (m =? 11)) eqn:H30.
    + split_and!; try lia; done.
    + rewrite !orb_false_iff, !Z.eqb_neq in H30. split_and!; try lia.
Qed.

(** [civil_from_days] inverts [days_from_civil] on the dates of the
    proleptic Gregorian calendar. *)
Lemma civil_round_trip (y m d : Z) :
  1 ≤ m ≤ 12 → 1 ≤ d ≤ days_in_month y m →
  civil_from_days (days_from_civil y m d) = (y, m, d).
Proof.
  intros Hm Hd.
  destruct (days_in_month_bounds y m) as (Hdim & H30 & H2).
  unfold days_from_civil, civil_from_days. cbv zeta.
  set (y' := if m <=? 2 then y - 1 else y).
  set (era := y' / 400).
  set (yoe := y' - era * 400).
  assert (Hyoe : 0 ≤ yoe < 400).
  { subst yoe era. pose proof (Z.div_mod y' 400 ltac:(lia)).
    pose proof (Z.mod_pos_bound y' 400 ltac:(lia)). lia. }
  destruct (month_round_trip m d Hm ltac:(lia) ltac:(lia)
              ltac:(intros ->; destruct (is_leap y); lia))
    as (Hmp & Hday & Hmonth & Hdoy0 & Hdoy3 & Hdoy1 & Hdoy2).
  cbv zeta in Hmp, Hday, Hmonth, Hdoy0, Hdoy3, Hdoy1, Hdoy2.
  set (doy := (153 * ((m + 9) mod 12) + 2) / 5 + d - 1) in *.
  assert (Hleap : m = 2 → is_leap (yoe + 1) = is_leap y).
  { intros ->. subst yoe y'. change (2 <=? 2) with true. cbv iota.
    rewrite <- (is_leap_period (y - 1 - era * 400 + 1) era).
    f_equal. lia. }
  assert (Hdoy : 0 ≤ doy ≤ 364 + (if is_leap (yoe + 1) then 1 else 0)).
  { split; [done|].
    destruct (decide (m = 2)) as [-> | Hne2].
    - rewrite Hleap by done. rewrite Hdoy2 by done.
      specialize (H2 eq_refl). destruct (is_leap y); lia.
    - destruct (decide (m = 1)) as [-> | Hne1].
      + specialize (Hdoy1 eq_refl). destruct (is_leap (yoe + 1)); lia.
      + specialize (Hdoy3 ltac:(lia)). destruct (is_leap (yoe + 1)); lia. }
  destruct (era_round_trip yoe doy Hyoe Hdoy) as (Hdoe & Hyoe' & Hdoy').
  cbv zeta in Hdoe, Hyoe', Hdoy'.
  set (doe := yoe * 365 + yoe / 4 - yoe / 100 + doy) in *.
  replace (era * 146097 + doe - 719468 + 719468) with (era * 146097 + doe)
    by lia.
  assert (Hera : (era * 146097 + doe) / 146097 = era)
    by (symmetry; apply (Z.div_unique _ _ _ doe); lia).
  rewrite Hera.
  replace (era * 146097 + doe - era * 146097) with doe by lia.
  rewrite Hyoe' in Hdoy'. rewrite Hmp in Hday, Hmonth.
  rewrite Hyoe', Hdoy', Hmp, Hday, Hmonth.
  f_equal. f_equal. subst yoe y'.
  destruct (m <=? 2); lia.
Qed.

Lemma pad_year (y : Z) : 0 ≤ y ≤ 9999 → String.length (iso_year y) = 4%nat.
Proof.
  intros Hy.
  assert (HP : (λ y, (String.length (iso_year y) =? 4)%nat) y = true).
  { apply (checked_below (λ y, (String.length (iso_year y) =? 4)%nat) 10000);
      [vm_compute; reflexivity | lia]. }
  by apply Nat.eqb_eq in HP.
Qed.

Lemma pad_two (n : Z) : 0 ≤ n ≤ 99 → String.length (pad 2 n) = 2%nat.
Proof.
  intros Hn.
  assert (HP : (λ n, (String.length (pad 2 n) =? 2)%nat) n = true).
  { apply (checked_below (λ n, (String.length (pad 2 n) =? 2)%nat) 100);
      [vm_compute; reflexivity | lia]. }
  by apply Nat.eqb_eq in HP.
Qed.
End calendar_round_trip.

(** X27.  A date-only string and the calendar.  For a date of the
    Gregorian calendar (month 1 to 12, day 1 to the length of the month),
    the instant that [new Date('YYYY-MM-DD')] denotes is read back by the
    calendar as that year, month and day, in whatever time zone the process
    runs: [formatDate] prints the same date (ten characters for a year from
    0 to 9999), and the [$year] and [$month] of the monthly trend are the
    year and month of the string.  In a process that runs in UTC the
    instant lies within [getMonthRange(year, month)]. *)
Theorem date_only_round_trip (tz y m d : Z) :
  1 ≤ m ≤ 12 → 1 ≤ d ≤ Helpers.days_in_month y m →
  let t := JSDate.Date_parse tz (JSDate.DateOnly y m d) in
  JSDate.civil_from_days (t / JSDate.msPerDay) = (y, m, d)
  ∧ Helpers.formatDate t
    = Helpers.iso_year y +:+ "-" +:+ Helpers.pad 2 m +:+ "-" +:+ Helpers.pad 2 d
  ∧ (0 ≤ y ≤ 9999 → String.length (Helpers.formatDate t) = 10%nat)
  ∧ JSDate.year_of t = y ∧ JSDate.month_of t = m
  ∧ (¬ 0 ≤ y ≤ 99 →
     Helpers.r_start (Helpers.getMonthRange 0 y m) ≤ t
     ≤ Helpers.r_end (Helpers.getMonthRange 0 y m)).
Proof.
  intros Hm Hd t.
  assert (Hday : t / JSDate.msPerDay = JSDate.days_from_civil y m d).
  { subst t. unfold JSDate.Date_parse, JSDate.msPerDay.
    by rewrite Z.div_mul. }
  pose proof (civil_round_trip y m d Hm Hd) as Hcivil.
  assert (Hfmt : Helpers.formatDate t
                 = Helpers.iso_year y +:+ "-" +:+ Helpers.pad 2 m +:+ "-"
                   +:+ Helpers.pad 2 d).
  { unfold Helpers.formatDate. by rewrite Hday, Hcivil. }
  split_and!.
  - by rewrite Hday.
  - exact Hfmt.
  - intros Hy. rewrite Hfmt, !append_length, pad_year by done.
    destruct (days_in_month_bounds y m) as (Hdim & _).
    rewrite !pad_two by lia. reflexivity.
  - unfold JSDate.year_of. by rewrite Hday, Hcivil.
  - unfold JSDate.month_of. by rewrite Hday, Hcivil.
  - intros Hy.
    destruct (month_range_days 0 y m Hm) as [Hstart Hlen].
    assert (Hfull : Helpers.full_year y = y).
    { unfold Helpers.full_year.
      destruct ((0 <=? y) && (y <=? 99)) eqn:Hb; [|done].
      apply andb_true_iff in Hb as [H0 H99].
      apply Z.leb_le in H0, H99. lia. }
    rewrite Hfull in Hstart, Hlen.
    assert (Hlin : JSDate.days_from_civil y m d
                   = JSDate.days_from_civil y m 1 + d - 1)
      by (unfold JSDate.days_from_civil; lia).
    subst t. unfold JSDate.Date_parse.
    unfold JSDate.UTC, JSDate.msPerDay, JSDate.msPerMinute in *.
    rewrite Hlin. lia.
Qed.

Lemma date_only_round_trip_witness :
  Helpers.formatDate (JSDate.Date_parse (-300) (JSDate.DateOnly 2024 2 29))
  = "2024-02-29"
  ∧ JSDate.month_of (JSDate.Date_parse (-300) (JSDate.DateOnly 2024 2 29)) = 2.
Proof.
  assert (Hm : 1 ≤ 2 ≤ 12) by lia.
  assert (Hd : 1 ≤ 29 ≤ Helpers.days_in_month 2024 2) by (vm_compute; done).
  destruct (date_only_round_trip (-300) 2024 2 29 Hm Hd)
    as (_ & Hfmt & _ & _ & Hmonth & _).
  split; [exact Hfmt | exact Hmonth].
Defined.


(** ** Updates read back, and totals across the statistics routes *)

Section entry_update.
Import Store Entries.

Lemma findOne_replace (id userId : string) (doc e : Entry) (docs : list Entry) :
  e ∈ docs → e_id e = id → e_id doc = id →
  matches (by_id id userId) doc →
  findOne (by_id id userId) (replace e_id doc docs) = Some doc.
Proof.
  intros He Heid Hdid Hm. unfold findOne, find, replace.
  induction docs as [|x docs IH]; [by apply elem_of_nil in He|].
  rewrite fmap_cons.
  destruct (String.eqb_spec (e_id x) (e_id doc)) as [Hx | Hx].
  - by rewrite filter_cons_True.
  - rewrite filter_cons_False.
    + apply IH. apply elem_of_cons in He as [-> | He]; [|done].
      destruct Hx. by rewrite Heid, Hdid.
    + intros [Hxid _]%matches_by_id_entry. apply Hx. by rewrite Hxid, Hdid.
Qed.

Lemma update_doc_fields k env st userId id body doc :
  userId ≠ "" →
  update_doc k env st (Some userId) id body = Ok doc →
  ∃ e, findOne (by_id id userId) (collection k st) = Some e
    ∧ e_id doc = e_id e ∧ e_userId doc = e_userId e
    ∧ e_isActive doc = e_isActive e ∧ e_createdAt doc = e_createdAt e
    ∧ e_updatedAt doc = now env
    ∧ e_amount doc = default (e_amount e) (b_amount body)
    ∧ from_option (λ a, (0 < a)%Q) True (b_amount body)
    ∧ (b_category body = None → e_category doc = e_category e)
    ∧ (b_description body = None → e_description doc = e_description e)
    ∧ (b_projectId body = None → e_projectId doc = e_projectId e)
    ∧ (b_date body = None → e_date doc = e_date e)
    ∧ (e_projectId doc ≠ e_projectId e →
       is_Some (findOne (by_id (e_projectId doc) userId) (projects st))).
Proof.
  intros Hu. unfold update_doc. rewrite (authenticated_Some _ Hu). intros Hd.
  apply bind_Ok_inv in Hd as (? & [= <-] & Hd).
  apply bind_Ok_inv in Hd as (e & He & Hd). cbv zeta in Hd.
  apply bind_Ok_inv in Hd as (? & Hamount%throw_if_Ok & Hd).
  apply bind_Ok_inv in Hd as (? & _ & Hd).
  apply bind_Ok_inv in Hd as (? & Hproject & Hd).
  apply checked_Ok in Hd as [_ ->].
  exists e. split.
  { destruct (findOne _ _); [by injection He as -> | done]. }
  cbn [e_id e_userId e_isActive e_createdAt e_updatedAt e_amount e_category
       e_description e_projectId e_date].
  split_and!; try done.
  - destruct (b_amount body) as [a|]; [|done]. simpl in Hamount |- *.
    by apply Qle_bool_false.
  - by intros ->.
  - by intros ->.
  - by intros ->.
  - by intros ->.
  - intros Hchanged.
    destruct (truthy_str (b_projectId body)) eqn:Ht; [|done].
    unfold assign_if in *.
    destruct (String.eqb_spec (default "" (b_projectId body)) (e_projectId e))
      as [Heq | Hne]; [done|].
    cbn [negb andb] in Hproject.
    apply bind_Ok_inv in Hproject as (p & Hp & _).
    destruct (findOne _ (projects st)); [done | discriminate].
Qed.
End entry_update.




Section totals.
Import Store Aggregate.

Lemma foldr_add_Permutation (l1 l2 : list Z) :
  l1 ≡ₚ l2 → foldr Z.add 0 l1 = foldr Z.add 0 l2.
Proof. induction 1; simpl; lia. Qed.

Lemma foldr_add_app (l1 l2 : list Z) :
  foldr Z.add 0 (l1 ++ l2) = foldr Z.add 0 l1 + foldr Z.add 0 l2.
Proof. induction l1 as [|x l1 IH]; simpl; lia. Qed.

Context {D K : Type} `{EqDecision K}.
Variable key : D → K.
Variable amount : D → Q.

Lemma accumulate_count (k : K) (a : Q) (acc : list (Group K)) :
  foldr Z.add 0 (count <$> accumulate k a acc)
  = foldr Z.add 0 (count <$> acc) + 1.
Proof.
  induction acc as [|g rest IH]; cbn [accumulate]; [done|].
  destruct (decide (_id g = k)); rewrite !fmap_cons; simpl; lia.
Qed.

(** The counts of the groups add up to the size of the record set. *)
Lemma group_count (docs : list D) :
  foldr Z.add 0 (count <$> group key amount docs) = Z.of_nat (length docs).
Proof.
  induction docs as [|d docs IH] using rev_ind; [done|].
  rewrite group_snoc, accumulate_count, IH, length_app. simpl. lia.
Qed.
End totals.




(** ** The order of a page *)

Section sorting.
Import Store.

Lemma string_leb_trans (s1 s2 s3 : string) :
  String.leb s1 s2 = true → String.leb s2 s3 = true → String.leb s1 s3 = true.
Proof.
  unfold String.leb.
  assert (Hcmp : ∀ s1 s2 s3,
            String.compare s1 s2 ≠ Gt → String.compare s2 s3 ≠ Gt →
            String.compare s1 s3 ≠ Gt).
  { clear. induction s1 as [|c1 s1 IH]; intros [|c2 s2] [|c3 s3]; simpl;
      try done.
    unfold Ascii.compare.
    destruct (N.compare_spec (N_of_ascii c1) (N_of_ascii c2)) as [H12|H12|H12],
      (N.compare_spec (N_of_ascii c2) (N_of_ascii c3)) as [H23|H23|H23],
      (N.compare_spec (N_of_ascii c1) (N_of_ascii c3)) as [H13|H13|H13];
      try done; try lia.
    apply IH. }
  intros H12 H23.
  assert (H13 : String.compare s1 s3 ≠ Gt).
  { apply (Hcmp s1 s2 s3).
    - by destruct (String.compare s1 s2).
    - by destruct (String.compare s2 s3). }
  by destruct (String.compare s1 s3).
Qed.

Lemma value_leb_total (v w : option Value) :
  value_leb v w = true ∨ value_leb w v = true.
Proof.
  destruct v as [[a|a|a|a]|], w as [[b|b|b|b]|]; simpl;
    try (by left); try (by right).
  - apply String.leb_total.
  - destruct a, b; simpl; auto.
  - rewrite !Qle_bool_iff. destruct (Qlt_le_dec a b) as [Hlt|Hle];
      [left; by apply Qlt_le_weak | by right].
  - rewrite !Z.leb_le. lia.
Qed.

Lemma value_leb_trans (u v w : option Value) :
  value_leb u v = true → value_leb v w = true → value_leb u w = true.
Proof.
  destruct u as [[a|a|a|a]|], v as [[b|b|b|b]|], w as [[c|c|c|c]|]; simpl;
    try done.
  - apply string_leb_trans.
  - destruct a, b, c; simpl; done.
  - rewrite !Qle_bool_iff. apply Qle_trans.
  - rewrite !Z.leb_le. lia.
Qed.

#[global] Instance sort_rel_trans `{Document D} key o :
  Transitive (sort_rel (D:=D) key o).
Proof.
  intros d1 d2 d3. unfold sort_rel. destruct o.
  - apply value_leb_trans.
  - intros H12 H23. by apply (value_leb_trans _ (field d2 key)).
Qed.

#[global] Instance sort_rel_total `{Document D} key o :
  Total (sort_rel (D:=D) key o).
Proof.
  intros d1 d2. unfold sort_rel. destruct o; apply value_leb_total.
Qed.

(** A page is a segment of the sorted result set. *)
Lemma paginated_sorted `{Document D} (q : gmap string Cond)
    (opts : Pagination.PaginationOptions) (docs : list D) :
  StronglySorted (sort_rel (Pagination.sortBy opts) (Pagination.sortOrder opts))
    (paginated q opts docs).1.
Proof.
  unfold paginated, Pagination.skip_limit, sort. cbn [fst].
  set (sorted := merge_sort _ _).
  assert (Hs : StronglySorted
                 (sort_rel (Pagination.sortBy opts) (Pagination.sortOrder opts))
                 sorted)
    by (apply StronglySorted_merge_sort; apply _).
  set (n := Z.to_nat (Pagination.getSkipValue _ _)).
  rewrite <- (take_drop n sorted) in Hs.
  apply StronglySorted_app_1_r in Hs.
  set (m := Z.to_nat (Pagination.limit opts)).
  rewrite <- (take_drop m (drop n sorted)) in Hs.
  by apply StronglySorted_app_1_l in Hs.
Qed.

Lemma Entry_sort_fields (e : Entry) :
  field e "createdAt" = Some (VDate (e_createdAt e))
  ∧ field e "amount" = Some (VNum (e_amount e))
  ∧ field e "date" = Some (VDate (e_date e)).
Proof. destruct e as [? ? ? ? ? ? ? [u|] ? ? ?]; vm_compute; done. Qed.
End sorting.

(** X30.  A page comes sorted.  The entries of a page of [getIncomeEntries]
    / [getExpenseEntries], and the goals and projects of a page of
    [getSavingsGoals] and [getProjects], are in the order of the sort field
    that [getPaginationOptions] returns: ascending for [sortOrder=asc],
    descending for anything else.  With no sort parameters the newest
    entries come first; with [sortBy=amount&sortOrder=asc] the amounts
    ascend. *)
Theorem pages_are_sorted (k : Entries.EntryKind) (env : Env) (st : Store.State)
    (userId : string) (q : ListQuery) :
  userId ≠ "" →
  ∃ entries goals projects,
    Entries.getEntries k env st (Some userId) q = Ok entries
    ∧ Savings.getSavingsGoals st (Some userId) q = Ok goals
    ∧ Projects.getProjects st (Some userId) q = Ok projects
    ∧ StronglySorted
        (Store.sort_rel (Pagination.sortBy (pagination_of q))
           (Pagination.sortOrder (pagination_of q)))
        (Entries.entry <$> entries.1)
    ∧ StronglySorted
        (Store.sort_rel (Pagination.sortBy (pagination_of q))
           (Pagination.sortOrder (pagination_of q)))
        goals.1
    ∧ StronglySorted
        (Store.sort_rel (Pagination.sortBy (pagination_of q))
           (Pagination.sortOrder (pagination_of q)))
        projects.1
    ∧ (q_sortBy q = None → q_sortOrder q = None →
       StronglySorted
         (λ e1 e2, Store.e_createdAt e2 ≤ Store.e_createdAt e1)
         (Entries.entry <$> entries.1))
    ∧ (q_sortBy q = Some "amount" → q_sortOrder q = Some "asc" →
       StronglySorted
         (λ e1 e2, (Store.e_amount e1 <= Store.e_amount e2)%Q)
         (Entries.entry <$> entries.1)).
Proof.
  intros Hu.
  unfold Entries.getEntries, Savings.getSavingsGoals, Projects.getProjects.
  rewrite (authenticated_Some _ Hu).
  cbn [mbind result_bind mret result_ret]. cbv zeta.
  pose proof (paginated_sorted
                (Entries.list_query k (tz env) userId q) (pagination_of q)
                (Entries.collection k st)) as Hentries.
  destruct (paginated (Entries.list_query k (tz env) userId q)
              (pagination_of q) (Entries.collection k st))
    as [page pagination].
  cbn [fst] in Hentries.
  eexists _, _, _. split; [reflexivity|]. split; [reflexivity|].
  split; [reflexivity|]. cbn [fst].
  rewrite <- list_fmap_compose.
  assert (Hid : (Entries.entry
                 ∘ (λ e, {| Entries.entry := e;
                            Entries.project :=
                              Entries.project_of st userId
                                (Store.e_projectId e) |})) <$> page
                = page).
  { clear. induction page as [|e page IH]; [done|].
    rewrite fmap_cons. by rewrite IH. }
  rewrite Hid.
  split_and!.
  - exact Hentries.
  - apply paginated_sorted.
  - apply paginated_sorted.
  - intros Hby Horder. revert Hentries.
    unfold pagination_of, Pagination.getPaginationOptions.
    rewrite Hby, Horder.
    change (StronglySorted (Store.sort_rel "createdAt" Pagination.desc) page →
            StronglySorted
              (λ e1 e2, Store.e_createdAt e2 ≤ Store.e_createdAt e1) page).
    apply StronglySorted_weaken. intros e1 e2. unfold Store.sort_rel.
    destruct (Entry_sort_fields e1) as (-> & _).
    destruct (Entry_sort_fields e2) as (-> & _).
    simpl. by rewrite Z.leb_le.
  - intros Hby Horder. revert Hentries.
    unfold pagination_of, Pagination.getPaginationOptions.
    rewrite Hby, Horder.
    change (StronglySorted (Store.sort_rel "amount" Pagination.asc) page →
            StronglySorted
              (λ e1 e2, (Store.e_amount e1 <= Store.e_amount e2)%Q) page).
    apply StronglySorted_weaken. intros e1 e2. unfold Store.sort_rel.
    destruct (Entry_sort_fields e1) as (_ & -> & _).
    destruct (Entry_sort_fields e2) as (_ & -> & _).
    simpl. by rewrite Qle_bool_iff.
Qed.

Lemma pages_are_sorted_witness :
  ∃ entries,
    getIncomeEntries Sample.env Sample.ledger (Some "u1") no_query = Ok entries
    ∧ StronglySorted
        (λ e1 e2, Store.e_createdAt e2 ≤ Store.e_createdAt e1)
        (Entries.entry <$> entries.1).
Proof.
  assert (Hu : "u1" ≠ "") by done.
  destruct (pages_are_sorted Entries.Income Sample.env Sample.ledger "u1"
              no_query Hu)
    as (entries & goals & projects & Hentries & _ & _ & _ & _ & _ & Hnewest & _).
  exists entries. split; [exact Hentries|]. by apply Hnewest.
Defined.
